(** * todo-cli: a shallow embedding of main.go and its checked properties

    The program keeps a list of tasks in one JSON file.  Every command
    loads the file, changes the list in memory and writes it back.  The
    embedding follows main.go function by function:

    - [Task], [Tasks]                       the data model (main.go:15-23)
    - [tasksFilePath], [loadTasks], [saveTasks]   the store (main.go:25-84)
    - [nextID], [findIndexByID]             the helpers (main.go:86-103)
    - [cmdAdd], [cmdDo], [cmdRemove], [cmdEdit], [cmdClear]   the commands
      (main.go:105-123, 148-241)
    - [cmdList], [usage], [main]            the listing and the dispatch
      (main.go:125-146, 243-288)
    - [Add], [MarkDone], [Remove], [Edit]   what the commands do to the
      collection between [loadTasks] and [saveTasks]

    The Go library functions the program calls (strconv, strings, time,
    unicode/utf8, encoding/json, os, fmt) are modelled as far as the
    program observes them; each model says which library function it
    stands for. *)

From Stdlib Require Import ZArith List String Ascii Lia Bool.
From stdpp Require Import gmap strings.

Open Scope Z_scope.

(** ** Go values *)

(** Bytes are [ascii] characters and a Go [string] or [[]byte] is a
    [string].  Characters that cannot be typed in a literal are given by
    their code. *)

Definition byte_of (n : Z) : ascii := ascii_of_N (Z.to_N n).
Definition code (c : ascii) : Z := Z.of_N (N_of_ascii c).

Definition dquote : ascii := byte_of 34.
Definition LF : ascii := byte_of 10.
Definition str1 (c : ascii) : string := String c EmptyString.

(** [int64] arithmetic wraps around. *)
Definition int64_max : Z := 2 ^ 63 - 1.
Definition int64_min : Z := - 2 ^ 63.
Definition wrap64 (z : Z) : Z := (z + 2 ^ 63) mod 2 ^ 64 - 2 ^ 63.

(** Go's [error] values, as far as the program creates or meets them. *)
Inductive error : Type :=
| errorString (msg : string)          (* errors.New, fmt.Errorf *)
| NumError (fn num msg : string)      (* strconv.NumError *)
| PathError (op path : string) (notExist : bool)   (* fs.PathError *)
| LinkError (op old new : string)     (* os.LinkError *)
| HomeError                           (* os.UserHomeDir: home not defined *)
| SyntaxError (msg : string)          (* json.SyntaxError *)
| UnmarshalTypeError (what : string)  (* json.UnmarshalTypeError *)
| TimeError (msg : string).           (* errors of time.Time's JSON methods *)

Inductive result (A : Type) : Type :=
| Ok (a : A)
| Err (e : error).
Arguments Ok {A} a.
Arguments Err {A} e.

Definition is_Ok {A} (r : result A) : bool :=
  match r with Ok _ => true | Err _ => false end.

(** ** Digits and substrings *)

Definition is_digit (c : ascii) : bool := (48 <=? code c) && (code c <=? 57).
Definition digit_val (c : ascii) : Z := code c - 48.
Definition digit_char (d : Z) : ascii := byte_of (48 + d).

(** The value of a run of decimal digits, [None] when another character
    occurs. *)
Fixpoint parse_digits (acc : Z) (s : string) : option Z :=
  match s with
  | EmptyString => Some acc
  | String c s' =>
      if is_digit c then parse_digits (acc * 10 + digit_val c) s' else None
  end.

(** Decimal digits of a non-negative number, most significant first. *)
Fixpoint fmt_digits (fuel : nat) (n : Z) (acc : string) : string :=
  let acc' := String (digit_char (n mod 10)) acc in
  match fuel with
  | O => acc'
  | S fuel' => if n <? 10 then acc' else fmt_digits fuel' (n / 10) acc'
  end.

(** [n] decimal digits of [z], zero padded (the low [n] digits). *)
Fixpoint pad (n : nat) (z : Z) : string :=
  match n with
  | O => EmptyString
  | S n' => pad n' (z / 10) +:+ str1 (digit_char (z mod 10))
  end.

(** [s[i:j]] on strings, for [i <= j <= len(s)]. *)
Fixpoint drop_str (n : nat) (s : string) : string :=
  match n, s with
  | O, _ => s
  | S n', String _ s' => drop_str n' s'
  | S _, EmptyString => EmptyString
  end.

Fixpoint take_str (n : nat) (s : string) : string :=
  match n, s with
  | O, _ => EmptyString
  | S n', String c s' => String c (take_str n' s')
  | S _, EmptyString => EmptyString
  end.

Definition slice_str (i j : nat) (s : string) : string :=
  take_str (j - i) (drop_str i s).

Definition len (s : string) : Z := Z.of_nat (String.length s).

Definition between (lo x hi : Z) : bool := (lo <=? x) && (x <=? hi).

(** ** strconv *)

Module strconv.

(** [strconv.ParseInt(s, 10, 64)]. *)
Definition ParseInt (s : string) : result Z :=
  let syntax := Err (NumError "ParseInt" s "invalid syntax") in
  let range := Err (NumError "ParseInt" s "value out of range") in
  match s with
  | EmptyString => syntax
  | String c s' =>
      let neg := Ascii.eqb c "-" in
      let body := if neg || Ascii.eqb c "+" then s' else s in
      match body with
      | EmptyString => syntax
      | _ =>
          match parse_digits 0 body with
          | None => syntax
          | Some un =>
              if neg then (if un <=? 2 ^ 63 then Ok (- un) else range)
              else (if un <? 2 ^ 63 then Ok un else range)
          end
      end
  end.

Definition FormatUint (n : Z) : string :=
  fmt_digits (Z.to_nat (Z.log2 n)) n EmptyString.

(** [strconv.FormatInt(z, 10)], also the verb [%d]. *)
Definition FormatInt (z : Z) : string :=
  if z <? 0 then String "-" (FormatUint (- z)) else FormatUint z.

End strconv.
Import strconv.

(** ** strings *)

Module strings.

(** [strings.Join(args, sep)]. *)
Fixpoint Join (args : list string) (sep : string) : string :=
  match args with
  | [] => EmptyString
  | [a] => a
  | a :: rest => a +:+ sep +:+ Join rest sep
  end.

End strings.
Import strings.

(** ** time *)

Module time.

(** A [time.Time] as the program observes it: the calendar date and the
    clock reading in the value's own location, and that location's
    offset from UTC in seconds.  These are the fields [Format] and
    [MarshalJSON] render; the monotonic clock reading is not part of
    them. *)
Record Time : Type := mkTime {
  year : Z;
  month : Z;
  day : Z;
  hour : Z;
  minute : Z;
  second : Z;
  nanosecond : Z;
  offset : Z
}.

(** The zero [Time], January 1, year 1, 00:00:00 UTC. *)
Definition zeroTime : Time := mkTime 1 1 1 0 0 0 0 0.

Definition isLeap (y : Z) : bool :=
  (y mod 4 =? 0) && (negb (y mod 100 =? 0) || (y mod 400 =? 0)).

Definition daysIn (m y : Z) : Z :=
  if m =? 2 then (if isLeap y then 29 else 28)
  else if (m =? 4) || (m =? 6) || (m =? 9) || (m =? 11) then 30
  else 31.

(** The records that are readings of a [time.Time]: a real date and a
    real time of day. *)
Definition Time_ok (t : Time) : bool :=
  between 1 (month t) 12 && between 1 (day t) (daysIn (month t) (year t))
  && between 0 (hour t) 23 && between 0 (minute t) 59
  && between 0 (second t) 59 && between 0 (nanosecond t) 999999999.

(** Days from 1970-01-01 to the given date of the proleptic Gregorian
    calendar. *)
Definition days_from_civil (y m d : Z) : Z :=
  let y' := if m <=? 2 then y - 1 else y in
  let era := y' / 400 in
  let yoe := y' - era * 400 in
  let doy := (153 * ((m + 9) mod 12) + 2) / 5 + d - 1 in
  let doe := yoe * 365 + yoe / 4 - yoe / 100 + doy in
  era * 146097 + doe - 719468.

(** [t.Unix()]. *)
Definition Time_Unix (t : Time) : Z :=
  days_from_civil (year t) (month t) (day t) * 86400
  + hour t * 3600 + minute t * 60 + second t - offset t.

(** [appendInt(b, x, width)] of package time. *)
Definition appendInt (x : Z) (width : nat) : string :=
  let u := Z.abs x in
  (if x <? 0 then "-" else EmptyString)
  +:+ (if u <? 10 ^ Z.of_nat width then pad width u else FormatUint u).

(** Drops the zeros at the end of a string. *)
Fixpoint trim0 (s : string) : string :=
  match s with
  | EmptyString => EmptyString
  | String c s' =>
      match trim0 s' with
      | EmptyString => if Ascii.eqb c "0" then EmptyString else str1 c
      | r => String c r
      end
  end.

(** [appendNano] for the layout [.999999999]. *)
Definition appendNano (ns : Z) : string :=
  if ns =? 0 then EmptyString else "." +:+ trim0 (appendInt ns 9).

(** [t.appendFormatRFC3339(b, true)]: the layout [RFC3339Nano]. *)
Definition formatRFC3339 (t : Time) : string :=
  appendInt (year t) 4 +:+ "-" +:+ appendInt (month t) 2 +:+ "-"
  +:+ appendInt (day t) 2 +:+ "T" +:+ appendInt (hour t) 2 +:+ ":"
  +:+ appendInt (minute t) 2 +:+ ":" +:+ appendInt (second t) 2
  +:+ appendNano (nanosecond t)
  +:+ (if offset t =? 0 then "Z"
       else
         let zone := Z.quot (offset t) 60 in
         (if zone <? 0 then "-" else "+")
         +:+ appendInt (Z.abs zone / 60) 2 +:+ ":"
         +:+ appendInt (Z.abs zone mod 60) 2).

(** [t.MarshalJSON()]: the quoted RFC 3339 text, refused when the year
    or the zone hour does not fit the format. *)
Definition Time_MarshalJSON (t : Time) : result string :=
  if negb (between 0 (year t) 9999) then
    Err (TimeError "Time.MarshalJSON: year outside of range [0,9999]")
  else if negb (offset t =? 0) && (24 <=? Z.abs (Z.quot (offset t) 60) / 60) then
    Err (TimeError "Time.MarshalJSON: timezone hour outside of range [0,23]")
  else Ok (str1 dquote +:+ formatRFC3339 t +:+ str1 dquote).

Definition parseUint (s : string) (lo hi : Z) : option Z :=
  match parse_digits 0 s with
  | Some x => if between lo x hi then Some x else None
  | None => None
  end.

Definition char_at (i : nat) (s : string) : ascii :=
  match String.get i s with Some c => c | None => Ascii.zero end.

(** Length of the run of digits at the head of [s]. *)
Fixpoint digits_run (s : string) : nat :=
  match s with
  | String c s' => if is_digit c then S (digits_run s') else O
  | EmptyString => O
  end.

(** [parseNanoseconds(value, nbytes)] on the digits after the period. *)
Definition parseNanoseconds (digits : string) : option Z :=
  let ds := take_str 9 digits in
  match parse_digits 0 ds with
  | Some ns => Some (ns * 10 ^ (9 - len ds))
  | None => None
  end.

(** The zone suffix of an RFC 3339 text: [Z] or [+hh:mm] or [-hh:mm]. *)
Definition parseZone (s : string) : option Z :=
  if String.eqb s "Z" then Some 0
  else if negb (Nat.eqb (String.length s) 6) then None
  else
    match parseUint (slice_str 1 3 s) 0 23, parseUint (slice_str 4 6 s) 0 59 with
    | Some hr, Some mm =>
        let sign := char_at 0 s in
        if (Ascii.eqb sign "-" || Ascii.eqb sign "+") && Ascii.eqb (char_at 3 s) ":"
        then Some (if Ascii.eqb sign "-" then - ((hr * 60 + mm) * 60)
                   else (hr * 60 + mm) * 60)
        else None
    | _, _ => None
    end.

(** [parseRFC3339] of package time, the fast path of
    [parseStrictRFC3339]: the text must have the exact RFC 3339 form. *)
Definition parseRFC3339 (s : string) : option Time :=
  if (String.length s <? 19)%nat then None
  else
    match parseUint (slice_str 0 4 s) 0 9999, parseUint (slice_str 5 7 s) 1 12 with
    | Some y, Some mo =>
        match parseUint (slice_str 8 10 s) 1 (daysIn mo y),
              parseUint (slice_str 11 13 s) 0 23,
              parseUint (slice_str 14 16 s) 0 59,
              parseUint (slice_str 17 19 s) 0 59 with
        | Some d, Some h, Some mi, Some se =>
            if Ascii.eqb (char_at 4 s) "-" && Ascii.eqb (char_at 7 s) "-"
               && Ascii.eqb (char_at 10 s) "T" && Ascii.eqb (char_at 13 s) ":"
               && Ascii.eqb (char_at 16 s) ":"
            then
              let rest := drop_str 19 s in
              let n :=
                if Ascii.eqb (char_at 0 rest) "." && is_digit (char_at 1 rest)
                then S (digits_run (drop_str 1 rest)) else O in
              let frac :=
                match n with
                | O => Some 0
                | S k => parseNanoseconds (slice_str 1 n rest)
                end in
              match frac, parseZone (drop_str n rest) with
              | Some ns, Some off => Some (mkTime y mo d h mi se ns off)
              | _, _ => None
              end
            else None
        | _, _, _, _ => None
        end
    | _, _ => None
    end.

(** [getnum(s, fixed)]: the number made of the one or two digits at the
    head of [s], and the rest; two digits are required when [fixed]. *)
Definition getnum (s : string) (fixed : bool) : option (Z * string) :=
  match s with
  | String a s1 =>
      if is_digit a then
        match s1 with
        | String b s2 =>
            if is_digit b then Some (digit_val a * 10 + digit_val b, s2)
            else if fixed then None else Some (digit_val a, s1)
        | EmptyString => if fixed then None else Some (digit_val a, s1)
        end
      else None
  | EmptyString => None
  end.

(** [skip(value, prefix)] for a prefix of one character. *)
Definition skip (value : string) (prefix : ascii) : option string :=
  match value with
  | String c r => if Ascii.eqb c prefix then Some r else None
  | EmptyString => None
  end.

(** The layout element [Z07:00] at the end of the text, as [Parse] reads
    it: [Z], or a sign, two digits, a colon and two digits, with hours up
    to 24 and minutes up to 60 let through; nothing may follow. *)
Definition parseZoneLayout (s : string) : option Z :=
  if Ascii.eqb (char_at 0 s) "Z" && negb (String.eqb s EmptyString) then
    if String.eqb (drop_str 1 s) EmptyString then Some 0 else None
  else if (String.length s <? 6)%nat then None
  else if negb (Ascii.eqb (char_at 3 s) ":") then None
  else
    match getnum (slice_str 1 3 s) true, getnum (slice_str 4 6 s) true with
    | Some (hr, _), Some (mm, _) =>
        if (24 <? hr) || (60 <? mm) then None
        else if negb (String.eqb (drop_str 6 s) EmptyString) then None
        else if Ascii.eqb (char_at 0 s) "+" then Some ((hr * 60 + mm) * 60)
        else if Ascii.eqb (char_at 0 s) "-" then Some (- ((hr * 60 + mm) * 60))
        else None
    | _, _ => None
    end.

(** [time.Parse(time.RFC3339, s)], the layout [2006-01-02T15:04:05Z07:00]
    read element by element.  It lets through what [parseRFC3339]
    refuses: an hour of one digit, a comma before the fraction of a
    second, a zone of 24 hours or of 60 minutes. *)
Definition Parse_RFC3339 (s : string) : option Time :=
  if (String.length s <? 4)%nat then None
  else
    y ← parse_digits 0 (take_str 4 s);
    s1 ← skip (drop_str 4 s) "-";
    '(mo, s2) ← getnum s1 true;
    s3 ← skip s2 "-";
    '(d, s4) ← getnum s3 true;
    s5 ← skip s4 "T";
    '(h, s6) ← getnum s5 false;
    s7 ← skip s6 ":";
    '(mi, s8) ← getnum s7 true;
    s9 ← skip s8 ":";
    '(se, rest) ← getnum s9 true;
    if negb (between 1 mo 12 && (h <? 24) && (mi <? 60) && (se <? 60)) then None
    else
      let n :=
        if (Ascii.eqb (char_at 0 rest) "." || Ascii.eqb (char_at 0 rest) ",")
           && is_digit (char_at 1 rest)
        then S (digits_run (drop_str 1 rest)) else O in
      ns ← match n with
           | O => Some 0
           | S k => parseNanoseconds (slice_str 1 n rest)
           end;
      off ← parseZoneLayout (drop_str n rest);
      if between 1 d (daysIn mo y) then Some (mkTime y mo d h mi se ns off) else None.

(** [parseStrictRFC3339]: [parseRFC3339], and [Parse] with the layout
    RFC3339 for the texts it refuses (the stricter checks on what
    [Parse] lets through are switched off in the library). *)
Definition parseStrictRFC3339 (s : string) : option Time :=
  match parseRFC3339 s with
  | Some t => Some t
  | None => Parse_RFC3339 s
  end.

(** [t.Format("2006-01-02 15:04")]: the date and the time of day to the
    minute, in the value's own location. *)
Definition Time_Format (t : Time) : string :=
  appendInt (year t) 4 +:+ "-" +:+ appendInt (month t) 2 +:+ "-"
  +:+ appendInt (day t) 2 +:+ " " +:+ appendInt (hour t) 2 +:+ ":"
  +:+ appendInt (minute t) 2.

End time.
Import time.

(** ** unicode/utf8 *)

Module utf8.

Definition is_cont (c : ascii) : bool := between 128 (code c) 191.

(** The number of bytes of the well-formed UTF-8 sequence at the head of
    [s], and [0] when there is none: [utf8.DecodeRune] then returns
    [(RuneError, 1)]. *)
Definition utf8_len (s : string) : nat :=
  match s with
  | EmptyString => O
  | String b0 s1 =>
      let c0 := code b0 in
      if c0 <? 128 then 1%nat
      else
        match s1 with
        | EmptyString => O
        | String b1 s2 =>
            let c1 := code b1 in
            if between 194 c0 223 then (if is_cont b1 then 2%nat else O)
            else
              match s2 with
              | EmptyString => O
              | String b2 s3 =>
                  if between 224 c0 239 then
                    let lo := if c0 =? 224 then 160 else 128 in
                    let hi := if c0 =? 237 then 159 else 191 in
                    if between lo c1 hi && is_cont b2 then 3%nat else O
                  else
                    match s3 with
                    | EmptyString => O
                    | String b3 _ =>
                        if between 240 c0 244 then
                          let lo := if c0 =? 240 then 144 else 128 in
                          let hi := if c0 =? 244 then 143 else 191 in
                          if between lo c1 hi && is_cont b2 && is_cont b3
                          then 4%nat else O
                        else O
                    end
              end
        end
  end.

(** U+FFFD, the replacement character. *)
Definition RuneError : Z := 65533.

(** [utf8.EncodeRune]. *)
Definition EncodeRune (r : Z) : string :=
  let b3 (x : Z) :=
    String (byte_of (224 + x / 4096))
      (String (byte_of (128 + (x / 64) mod 64))
         (str1 (byte_of (128 + x mod 64)))) in
  if r <? 0 then b3 RuneError
  else if r <? 128 then str1 (byte_of r)
  else if r <? 2048 then
    String (byte_of (192 + r / 64)) (str1 (byte_of (128 + r mod 64)))
  else if between 55296 r 57343 || (1114111 <? r) then b3 RuneError
  else if r <? 65536 then b3 r
  else
    String (byte_of (240 + r / 262144))
      (String (byte_of (128 + (r / 4096) mod 64))
         (String (byte_of (128 + (r / 64) mod 64))
            (str1 (byte_of (128 + r mod 64))))).

(** A string is valid UTF-8 when it is a chain of well-formed
    sequences: [utf8.ValidString]. *)
Fixpoint ValidString (s : string) : bool :=
  match s with
  | EmptyString => true
  | String b0 s1 =>
      if code b0 <? 128 then ValidString s1
      else
        match utf8_len s, s1 with
        | 2%nat, String _ s2 => ValidString s2
        | 3%nat, String _ (String _ s3) => ValidString s3
        | 4%nat, String _ (String _ (String _ s4)) => ValidString s4
        | _, _ => false
        end
  end.

End utf8.
Import utf8.

(** ** The data model (main.go:15-23) *)

Record Task : Type := mkTask {
  ID : Z;                        (* int64 *)
  Title : string;
  Done : bool;
  CreatedAt : Time;
  CompletedAt : option Time      (* *time.Time, nil when unset *)
}.

(** [type Tasks []Task].  A slice is [nil] or holds elements; the two
    empty slices differ in their JSON text only. *)
Inductive Tasks : Type :=
| Nil
| Slice (l : list Task).

Definition elems (ts : Tasks) : list Task :=
  match ts with
  | Nil => []
  | Slice l => l
  end.

(** [append(ts, t)]. *)
Definition append (ts : Tasks) (t : Task) : Tasks := Slice (elems ts ++ [t]).

(** The zero [Task]. *)
Definition zeroTask : Task := mkTask 0 EmptyString false zeroTime None.

(** [ts[i]], for an index in range. *)
Definition index (ts : Tasks) (i : Z) : Task :=
  nth (Z.to_nat i) (elems ts) zeroTask.

(** ** encoding/json: string literals *)

Module json.

Definition hex_char (d : Z) : ascii :=
  if d <? 10 then byte_of (48 + d) else byte_of (87 + d).

Definition is_hex (c : ascii) : bool :=
  is_digit c || between 97 (code c) 102 || between 65 (code c) 70.

Definition hex_val (c : ascii) : Z :=
  if is_digit c then code c - 48
  else if between 97 (code c) 102 then code c - 87
  else code c - 55.

Definition u00 (n : Z) : string :=
  "\u00" +:+ String (hex_char (n / 16)) (str1 (hex_char (n mod 16))).

(** One ASCII byte inside a string literal, as [appendString] writes it
    with HTML escaping on (the setting of [Marshal]). *)
Definition escape_ascii (c : ascii) : string :=
  let n := code c in
  if Ascii.eqb c "\" || Ascii.eqb c dquote then String "\" (str1 c)
  else if n =? 8 then "\b"
  else if n =? 12 then "\f"
  else if n =? 10 then "\n"
  else if n =? 13 then "\r"
  else if n =? 9 then "\t"
  else if (n <? 32) || Ascii.eqb c "<" || Ascii.eqb c ">" || Ascii.eqb c "&"
  then u00 n
  else str1 c.

(** The six characters backslash, u, f, f, f, d. *)
Definition escape_FFFD : string := "\u" +:+ "fffd".

(** The text between the quotes of the literal for [s]: bytes that are
    not part of a well-formed UTF-8 sequence become the escape of
    U+FFFD, and U+2028 and U+2029 are escaped. *)
Fixpoint quote_body (s : string) : string :=
  match s with
  | EmptyString => EmptyString
  | String b0 s1 =>
      if code b0 <? 128 then escape_ascii b0 +:+ quote_body s1
      else
        match utf8_len s, s1 with
        | 2%nat, String b1 s2 => String b0 (String b1 (quote_body s2))
        | 3%nat, String b1 (String b2 s3) =>
            if (code b0 =? 226) && (code b1 =? 128)
               && ((code b2 =? 168) || (code b2 =? 169))
            then "\u202" +:+ String (hex_char (code b2 mod 16)) (quote_body s3)
            else String b0 (String b1 (String b2 (quote_body s3)))
        | 4%nat, String b1 (String b2 (String b3 s4)) =>
            String b0 (String b1 (String b2 (String b3 (quote_body s4))))
        | _, _ => escape_FFFD +:+ quote_body s1
        end
  end.

Definition quote (s : string) : string :=
  String dquote (quote_body s +:+ str1 dquote).

Definition is_simple_escape (e : ascii) : bool :=
  Ascii.eqb e "b" || Ascii.eqb e "f" || Ascii.eqb e "n" || Ascii.eqb e "r"
  || Ascii.eqb e "t" || Ascii.eqb e "\" || Ascii.eqb e "/" || Ascii.eqb e dquote.

Definition simple_escape (e : ascii) : ascii :=
  if Ascii.eqb e "b" then byte_of 8
  else if Ascii.eqb e "f" then byte_of 12
  else if Ascii.eqb e "n" then byte_of 10
  else if Ascii.eqb e "r" then byte_of 13
  else if Ascii.eqb e "t" then byte_of 9
  else e.

Definition prepend (p : string) (r : option (string * string))
  : option (string * string) :=
  match r with
  | Some (raw, rest) => Some (p +:+ raw, rest)
  | None => None
  end.

(** The scanner inside a string literal, after the opening quote: the
    text up to the closing quote and the input after it.  Control
    characters and malformed escapes are syntax errors. *)
Fixpoint scan_string (s : string) : option (string * string) :=
  match s with
  | EmptyString => None
  | String c s1 =>
      if Ascii.eqb c dquote then Some (EmptyString, s1)
      else if Ascii.eqb c "\" then
        match s1 with
        | EmptyString => None
        | String e s2 =>
            if is_simple_escape e then
              prepend (String c (str1 e)) (scan_string s2)
            else if Ascii.eqb e "u" then
              match s2 with
              | String h1 (String h2 (String h3 (String h4 s6))) =>
                  if is_hex h1 && is_hex h2 && is_hex h3 && is_hex h4 then
                    prepend
                      (String c (String e (String h1 (String h2 (String h3 (str1 h4))))))
                      (scan_string s6)
                  else None
              | _ => None
              end
            else None
        end
      else if code c <? 32 then None
      else prepend (str1 c) (scan_string s1)
  end.

Definition getu4 (h1 h2 h3 h4 : ascii) : Z :=
  ((hex_val h1 * 16 + hex_val h2) * 16 + hex_val h3) * 16 + hex_val h4.

(** [utf16.DecodeRune]. *)
Definition utf16_DecodeRune (r1 r2 : Z) : Z :=
  if between 55296 r1 56319 && between 56320 r2 57343
  then (r1 - 55296) * 1024 + (r2 - 56320) + 65536
  else RuneError.

(** [unquote] on the text between the quotes of a scanned literal:
    escapes are resolved and the result is coerced to valid UTF-8. *)
Fixpoint unquote (s : string) : string :=
  match s with
  | EmptyString => EmptyString
  | String c s1 =>
      if Ascii.eqb c "\" then
        match s1 with
        | EmptyString => EmptyString
        | String e s2 =>
            if Ascii.eqb e "u" then
              match s2 with
              | String h1 (String h2 (String h3 (String h4 s6))) =>
                  let rr := getu4 h1 h2 h3 h4 in
                  if between 55296 rr 57343 then
                    match s6 with
                    | String q (String u (String g1 (String g2 (String g3 (String g4 s12))))) =>
                        let rr1 :=
                          if Ascii.eqb q "\" && Ascii.eqb u "u" && is_hex g1
                             && is_hex g2 && is_hex g3 && is_hex g4
                          then getu4 g1 g2 g3 g4 else -1 in
                        let dec := utf16_DecodeRune rr rr1 in
                        if dec =? RuneError then EncodeRune RuneError +:+ unquote s6
                        else EncodeRune dec +:+ unquote s12
                    | _ => EncodeRune RuneError +:+ unquote s6
                    end
                  else EncodeRune rr +:+ unquote s6
              | _ => EmptyString
              end
            else String (simple_escape e) (unquote s2)
        end
      else if code c <? 128 then String c (unquote s1)
      else
        match utf8_len s, s1 with
        | 2%nat, String b1 s2 => String c (String b1 (unquote s2))
        | 3%nat, String b1 (String b2 s3) =>
            String c (String b1 (String b2 (unquote s3)))
        | 4%nat, String b1 (String b2 (String b3 s4)) =>
            String c (String b1 (String b2 (String b3 (unquote s4))))
        | _, _ => EncodeRune RuneError +:+ unquote s1
        end
  end.

(** ** encoding/json: values and the parser *)

(** A parsed JSON text.  Numbers and strings keep the text of their
    literal (for a string, the text between the quotes): the decoder
    interprets it by the type of the Go field it fills. *)
#[warnings="-register-all"]
Inductive json : Type :=
| JNull
| JBool (b : bool)
| JNum (lit : string)
| JStr (raw : string)
| JArr (vs : list json)
| JObj (ms : list (string * json)).

Definition is_space (c : ascii) : bool :=
  Ascii.eqb c " " || (code c =? 9) || (code c =? 13) || (code c =? 10).

Fixpoint skip_ws (s : string) : string :=
  match s with
  | String c s' => if is_space c then skip_ws s' else s
  | EmptyString => EmptyString
  end.

(** The digits of the integer part: [0], or a run not starting with 0. *)
Definition scan_int_part (s : string) : option (string * string) :=
  match s with
  | String c s' =>
      if Ascii.eqb c "0" then Some (str1 c, s')
      else if is_digit c then
        let n := digits_run s' in
        Some (String c (take_str n s'), drop_str n s')
      else None
  | EmptyString => None
  end.

Definition scan_frac (s : string) : option (string * string) :=
  match s with
  | String c s' =>
      if Ascii.eqb c "." then
        match digits_run s' with
        | O => None
        | n => Some (String c (take_str n s'), drop_str n s')
        end
      else Some (EmptyString, s)
  | EmptyString => Some (EmptyString, s)
  end.

Definition scan_exp (s : string) : option (string * string) :=
  match s with
  | String e s' =>
      if Ascii.eqb e "e" || Ascii.eqb e "E" then
        let '(sg, s2) :=
          match s' with
          | String c s'' =>
              if Ascii.eqb c "+" || Ascii.eqb c "-" then (str1 c, s'')
              else (EmptyString, s')
          | EmptyString => (EmptyString, s')
          end in
        match digits_run s2 with
        | O => None
        | n => Some (String e (sg +:+ take_str n s2), drop_str n s2)
        end
      else Some (EmptyString, s)
  | EmptyString => Some (EmptyString, s)
  end.

(** A number literal of the JSON grammar at the head of [s]. *)
Definition scan_number (s : string) : option (string * string) :=
  let '(sg, s1) :=
    match s with
    | String c s' => if Ascii.eqb c "-" then (str1 c, s') else (EmptyString, s)
    | EmptyString => (EmptyString, s)
    end in
  match scan_int_part s1 with
  | None => None
  | Some (ip, s2) =>
      match scan_frac s2 with
      | None => None
      | Some (fp, s3) =>
          match scan_exp s3 with
          | None => None
          | Some (ep, s4) => Some (sg +:+ ip +:+ fp +:+ ep, s4)
          end
      end
  end.

(** [lit] at the head of [s]: the input after it. *)
Fixpoint strip_prefix (lit s : string) : option string :=
  match lit, s with
  | EmptyString, _ => Some s
  | String a lit', String b s' =>
      if Ascii.eqb a b then strip_prefix lit' s' else None
  | String _ _, EmptyString => None
  end.

(** The scanner refuses texts nested deeper than this. *)
Definition maxNestingDepth : Z := 10000.

(** One JSON value at the head of [s], after optional white space, and
    the input after it.  [depth] counts the arrays and objects that are
    open.  [fuel] bounds the number of values and separators visited;
    [parse_json] supplies enough of it for the whole input. *)
Fixpoint parse_value (fuel : nat) (depth : Z) (s : string) {struct fuel}
  : option (json * string) :=
  match fuel with
  | O => None
  | S fuel' =>
      match skip_ws s with
      | EmptyString => None
      | String c s1 =>
          if Ascii.eqb c dquote then
            match scan_string s1 with
            | Some (raw, r) => Some (JStr raw, r)
            | None => None
            end
          else if Ascii.eqb c "[" then
            if maxNestingDepth <? depth + 1 then None
            else
              match strip_prefix "]" (skip_ws s1) with
              | Some r => Some (JArr [], r)
              | None =>
                  match parse_elems fuel' (depth + 1) s1 with
                  | Some (vs, r) => Some (JArr vs, r)
                  | None => None
                  end
              end
          else if Ascii.eqb c "{" then
            if maxNestingDepth <? depth + 1 then None
            else
              match strip_prefix "}" (skip_ws s1) with
              | Some r => Some (JObj [], r)
              | None =>
                  match parse_members fuel' (depth + 1) s1 with
                  | Some (ms, r) => Some (JObj ms, r)
                  | None => None
                  end
              end
          else if Ascii.eqb c "t" then
            match strip_prefix "rue" s1 with
            | Some r => Some (JBool true, r)
            | None => None
            end
          else if Ascii.eqb c "f" then
            match strip_prefix "alse" s1 with
            | Some r => Some (JBool false, r)
            | None => None
            end
          else if Ascii.eqb c "n" then
            match strip_prefix "ull" s1 with
            | Some r => Some (JNull, r)
            | None => None
            end
          else
            match scan_number (String c s1) with
            | Some (lit, r) => Some (JNum lit, r)
            | None => None
            end
      end
  end
with parse_elems (fuel : nat) (depth : Z) (s : string) {struct fuel}
  : option (list json * string) :=
  match fuel with
  | O => None
  | S fuel' =>
      match parse_value fuel' depth s with
      | None => None
      | Some (v, r) =>
          match skip_ws r with
          | String c r1 =>
              if Ascii.eqb c "," then
                match parse_elems fuel' depth r1 with
                | Some (vs, r2) => Some (v :: vs, r2)
                | None => None
                end
              else if Ascii.eqb c "]" then Some ([v], r1)
              else None
          | EmptyString => None
          end
      end
  end
with parse_members (fuel : nat) (depth : Z) (s : string) {struct fuel}
  : option (list (string * json) * string) :=
  match fuel with
  | O => None
  | S fuel' =>
      match strip_prefix (str1 dquote) (skip_ws s) with
      | None => None
      | Some s1 =>
          match scan_string s1 with
          | None => None
          | Some (k, r) =>
              match strip_prefix ":" (skip_ws r) with
              | None => None
              | Some r1 =>
                  match parse_value fuel' depth r1 with
                  | None => None
                  | Some (v, r2) =>
                      match skip_ws r2 with
                      | String c r3 =>
                          if Ascii.eqb c "," then
                            match parse_members fuel' depth r3 with
                            | Some (ms, r4) => Some ((k, v) :: ms, r4)
                            | None => None
                            end
                          else if Ascii.eqb c "}" then Some ([(k, v)], r3)
                          else None
                      | EmptyString => None
                      end
                  end
              end
          end
      end
  end.

(** [checkValid] and the scan of the whole input: one value, white
    space around it and nothing else. *)
Definition parse_json (s : string) : option json :=
  match parse_value (2 * String.length s + 2) 0 s with
  | Some (v, r) =>
      match skip_ws r with
      | EmptyString => Some v
      | String _ _ => None
      end
  | None => None
  end.

(** ** encoding/json: decoding into [Tasks] *)

Definition lower (c : ascii) : ascii :=
  if between 65 (code c) 90 then byte_of (code c + 32) else c.

(** Object keys match field names without regard to letter case. *)
Fixpoint fold_eq (a b : string) : bool :=
  match a, b with
  | EmptyString, EmptyString => true
  | String x a', String y b' => Ascii.eqb (lower x) (lower y) && fold_eq a' b'
  | _, _ => false
  end.

(** [Time.UnmarshalJSON] on a value: [null] changes nothing, a string
    literal is read without resolving escapes, anything else is refused. *)
Definition Time_UnmarshalJSON (cur : Time) (v : json) : result Time :=
  match v with
  | JNull => Ok cur
  | JStr raw =>
      match parseStrictRFC3339 raw with
      | Some t => Ok t
      | None => Err (TimeError "parsing time: not in RFC 3339 form")
      end
  | _ => Err (TimeError "Time.UnmarshalJSON: input is not a JSON string")
  end.

(** One member of an object stored into a [Task], by the [json] tags of
    the struct; members with other keys are skipped.  [null] leaves a
    field as it is, except the pointer field, which it clears. *)
Definition decode_field (t : Task) (k : string) (v : json) : result Task :=
  let key := unquote k in
  if fold_eq key "id" then
    match v with
    | JNull => Ok t
    | JNum lit =>
        match ParseInt lit with
        | Ok n => Ok (mkTask n (Title t) (Done t) (CreatedAt t) (CompletedAt t))
        | Err _ => Err (UnmarshalTypeError ("number " +:+ lit))
        end
    | _ => Err (UnmarshalTypeError "Task.id of type int64")
    end
  else if fold_eq key "title" then
    match v with
    | JNull => Ok t
    | JStr raw =>
        Ok (mkTask (ID t) (unquote raw) (Done t) (CreatedAt t) (CompletedAt t))
    | _ => Err (UnmarshalTypeError "Task.title of type string")
    end
  else if fold_eq key "done" then
    match v with
    | JNull => Ok t
    | JBool b => Ok (mkTask (ID t) (Title t) b (CreatedAt t) (CompletedAt t))
    | _ => Err (UnmarshalTypeError "Task.done of type bool")
    end
  else if fold_eq key "created_at" then
    match Time_UnmarshalJSON (CreatedAt t) v with
    | Ok c => Ok (mkTask (ID t) (Title t) (Done t) c (CompletedAt t))
    | Err e => Err e
    end
  else if fold_eq key "completed_at" then
    match v with
    | JNull => Ok (mkTask (ID t) (Title t) (Done t) (CreatedAt t) None)
    | _ =>
        let cur := match CompletedAt t with Some c => c | None => zeroTime end in
        match Time_UnmarshalJSON cur v with
        | Ok c => Ok (mkTask (ID t) (Title t) (Done t) (CreatedAt t) (Some c))
        | Err e => Err e
        end
    end
  else Ok t.

Fixpoint decode_members (t : Task) (ms : list (string * json)) : result Task :=
  match ms with
  | [] => Ok t
  | (k, v) :: ms' =>
      match decode_field t k v with
      | Ok t' => decode_members t' ms'
      | Err e => Err e
      end
  end.

(** One array element stored into a fresh [Task]. *)
Definition decode_task (v : json) : result Task :=
  match v with
  | JObj ms => decode_members zeroTask ms
  | JNull => Ok zeroTask
  | _ => Err (UnmarshalTypeError "Go value of type main.Task")
  end.

Fixpoint decode_tasks (vs : list json) : result (list Task) :=
  match vs with
  | [] => Ok []
  | v :: vs' =>
      match decode_task v, decode_tasks vs' with
      | Ok t, Ok l => Ok (t :: l)
      | Err e, _ => Err e
      | _, Err e => Err e
      end
  end.

(** [json.Unmarshal(b, &ts)] for [var ts Tasks]: the value [ts] holds
    afterwards, or the error.  Any error makes the call fail, whether
    the decoder stops at it or goes on to the end of the input. *)
Definition Unmarshal (b : string) : result Tasks :=
  match parse_json b with
  | None => Err (SyntaxError "invalid JSON text")
  | Some JNull => Ok Nil
  | Some (JArr vs) =>
      match decode_tasks vs with
      | Ok l => Ok (Slice l)
      | Err e => Err e
      end
  | Some _ => Err (UnmarshalTypeError "Go value of type main.Tasks")
  end.

(** ** encoding/json: encoding [Tasks] *)

Definition indent1 : string := String LF "  ".
Definition indent2 : string := String LF "    ".
Definition key (name : string) : string := quote name +:+ ": ".

(** One element of the array, as [MarshalIndent] with no prefix and a
    two-space indent lays it out; [completed_at] is left out when the pointer is nil. *)
Definition marshal_task (t : Task) : result string :=
  match Time_MarshalJSON (CreatedAt t) with
  | Err e => Err e
  | Ok created =>
      let head :=
        "{" +:+ indent2 +:+ key "id" +:+ FormatInt (ID t) +:+ ","
        +:+ indent2 +:+ key "title" +:+ quote (Title t) +:+ ","
        +:+ indent2 +:+ key "done" +:+ (if Done t then "true" else "false") +:+ ","
        +:+ indent2 +:+ key "created_at" +:+ created in
      match CompletedAt t with
      | None => Ok (head +:+ indent1 +:+ "}")
      | Some c =>
          match Time_MarshalJSON c with
          | Err e => Err e
          | Ok completed =>
              Ok (head +:+ "," +:+ indent2 +:+ key "completed_at" +:+ completed
                  +:+ indent1 +:+ "}")
          end
      end
  end.

(** The elements after the first, each behind a comma. *)
Fixpoint marshal_more (l : list Task) : result string :=
  match l with
  | [] => Ok EmptyString
  | t :: l' =>
      match marshal_task t, marshal_more l' with
      | Ok a, Ok b => Ok ("," +:+ indent1 +:+ a +:+ b)
      | Err e, _ => Err e
      | _, Err e => Err e
      end
  end.

(** [json.MarshalIndent] with no prefix and an indent of two spaces. *)
Definition MarshalIndent (ts : Tasks) : result string :=
  match ts with
  | Nil => Ok "null"
  | Slice [] => Ok "[]"
  | Slice (t :: l) =>
      match marshal_task t, marshal_more l with
      | Ok a, Ok b => Ok ("[" +:+ indent1 +:+ a +:+ b +:+ str1 LF +:+ "]")
      | Err e, _ => Err e
      | _, Err e => Err e
      end
  end.

End json.
Import json.

(** ** The process and its surroundings *)

(** What a run of the program reads and changes: the environment, the
    file system, the clock and the two output streams.  Files are kept
    by path.  [read_fault] and [write_fault] are the paths on which the
    operating system refuses to read, or to create, write and replace. *)
Record World : Type := mkWorld {
  environ : gmap string string;
  home : option string;
  files : gmap string string;
  read_fault : gset string;
  write_fault : gset string;
  clock : Time;
  stdout : list string;
  stderr : list string
}.

Definition set_files (f : gmap string string) (w : World) : World :=
  mkWorld (environ w) (home w) f (read_fault w) (write_fault w) (clock w)
    (stdout w) (stderr w).

Definition set_clock (t : Time) (w : World) : World :=
  mkWorld (environ w) (home w) (files w) (read_fault w) (write_fault w) t
    (stdout w) (stderr w).

(** A Go function with an [error] result that acts on the world.  An
    error ends the function; what it did to the world before stays. *)
Definition IO (A : Type) : Type := World -> result A * World.

Definition ret {A} (a : A) : IO A := fun w => (Ok a, w).
Definition fail {A} (e : error) : IO A := fun w => (Err e, w).
Definition lift {A} (r : result A) : IO A := fun w => (r, w).

Definition bind {A B} (m : IO A) (k : A -> IO B) : IO B :=
  fun w =>
    match m w with
    | (Ok a, w') => k a w'
    | (Err e, w') => (Err e, w')
    end.

Notation "x <-- m ;; k" := (bind m (fun x => k))
  (at level 100, m at next level, right associativity).

(** [_ = f()]: the error of [f] is dropped. *)
Definition ignore {A} (m : IO A) : IO unit :=
  fun w => (Ok tt, snd (m w)).

(** Package path/filepath, with the slash as separator. *)
Module filepath.

(** The elements of a path, the texts between its slashes. *)
Fixpoint elements (path : string) (cur : string) : list string :=
  match path with
  | EmptyString => [cur]
  | String c path' =>
      if Ascii.eqb c "/" then cur :: elements path' EmptyString
      else elements path' (cur +:+ str1 c)
  end.

(** One element added to a cleaned path, kept with its last element
    first: empty elements and [.] are dropped, [..] takes away the
    element before it, is dropped at the root and is kept otherwise. *)
Definition push (rooted : bool) (stack : list string) (e : string) : list string :=
  if String.eqb e EmptyString || String.eqb e "." then stack
  else if String.eqb e ".." then
    match stack with
    | top :: rest => if String.eqb top ".." then e :: stack else rest
    | [] => if rooted then [] else [e]
    end
  else e :: stack.

(** [filepath.Clean]. *)
Definition Clean (path : string) : string :=
  let rooted := match path with String c _ => Ascii.eqb c "/" | EmptyString => false end in
  let body := strings.Join (rev (fold_left (push rooted) (elements path EmptyString) []))
                "/" in
  if rooted then "/" +:+ body
  else if String.eqb body EmptyString then "." else body.

(** [filepath.Join] of two elements: the elements from the first that
    is not empty, joined by slashes and cleaned. *)
Definition Join (dir name : string) : string :=
  if negb (String.eqb dir EmptyString) then Clean (dir +:+ "/" +:+ name)
  else if negb (String.eqb name EmptyString) then Clean name
  else EmptyString.

End filepath.

(** Package os, as far as the program uses it.  A refused operation
    changes nothing. *)
Module os.

Definition IsNotExist (e : error) : bool :=
  match e with
  | PathError _ _ b => b
  | _ => false
  end.

(** [os.Getenv]: the empty string when the variable is not set. *)
Definition Getenv (k : string) (w : World) : string :=
  match environ w !! k with
  | Some v => v
  | None => EmptyString
  end.

Definition UserHomeDir : IO string :=
  fun w =>
    match home w with
    | Some h => (Ok h, w)
    | None => (Err HomeError, w)
    end.

(** [os.MkdirAll].  The world keeps files, not directories: the
    directory the call makes is not recorded, and the call is seen only
    through its error. *)
Definition MkdirAll (dir : string) : IO unit :=
  fun w =>
    if decide (dir ∈ write_fault w) then (Err (PathError "mkdir" dir false), w)
    else (Ok tt, w).

Definition Stat (path : string) : IO unit :=
  fun w =>
    match files w !! path with
    | Some _ => (Ok tt, w)
    | None => (Err (PathError "stat" path true), w)
    end.

Definition ReadFile (path : string) : IO string :=
  fun w =>
    match files w !! path with
    | Some b =>
        if decide (path ∈ read_fault w) then (Err (PathError "open" path false), w)
        else (Ok b, w)
    | None => (Err (PathError "open" path true), w)
    end.

Definition WriteFile (path b : string) : IO unit :=
  fun w =>
    if decide (path ∈ write_fault w) then (Err (PathError "open" path false), w)
    else (Ok tt, set_files (<[path := b]> (files w)) w).

Definition Rename (old new : string) : IO unit :=
  fun w =>
    match files w !! old with
    | None => (Err (LinkError "rename" old new), w)
    | Some b =>
        if decide (new ∈ write_fault w) then (Err (LinkError "rename" old new), w)
        else (Ok tt, set_files (<[new := b]> (delete old (files w))) w)
    end.

Definition Remove (path : string) : IO unit :=
  fun w =>
    match files w !! path with
    | None => (Err (PathError "remove" path true), w)
    | Some _ =>
        if decide (path ∈ write_fault w) then (Err (PathError "remove" path false), w)
        else (Ok tt, set_files (delete path (files w)) w)
    end.

End os.

(** [time.Now].  The clock stands still during a command: the readings
    of one run are one instant. *)
Definition time_Now : IO Time := fun w => (Ok (clock w), w).

(** Writes to [os.Stdout] and [os.Stderr]. *)
Definition print (s : string) : IO unit :=
  fun w =>
    (Ok tt, mkWorld (environ w) (home w) (files w) (read_fault w) (write_fault w)
              (clock w) (stdout w ++ [s]) (stderr w)).

Definition eprint (s : string) : IO unit :=
  fun w =>
    (Ok tt, mkWorld (environ w) (home w) (files w) (read_fault w) (write_fault w)
              (clock w) (stdout w) (stderr w ++ [s])).

Definition NL : string := str1 LF.

(** ** The store (main.go:25-84) *)

Definition tasksFilePath : IO string :=
  fun w =>
    let p := os.Getenv "TODO_FILE" w in
    if negb (String.eqb p EmptyString) then (Ok p, w)
    else
      (home <-- os.UserHomeDir ;;
       let dir := filepath.Join home ".todo" in
       _ <-- os.MkdirAll dir ;;
       ret (filepath.Join dir "tasks.json")) w.

Definition backup_name (path : string) (now : Time) : string :=
  path +:+ ".broken." +:+ strconv.FormatInt (Time_Unix now).

Definition corrupted_warning (backup : string) : string :=
  "Warning: tasks file corrupted. Backed up to " +:+ backup
  +:+ " and starting with empty list." +:+ NL.

Definition loadTasks : IO Tasks :=
  path <-- tasksFilePath ;;
  fun w =>
    let '(st, w1) := os.Stat path w in
    if match st with Err e => os.IsNotExist e | Ok _ => false end
    then (Ok (Slice []), w1)
    else
      (b <-- os.ReadFile path ;;
       match json.Unmarshal b with
       | Err _ =>
           now <-- time_Now ;;
           let backup := backup_name path now in
           _ <-- ignore (os.WriteFile backup b) ;;
           _ <-- eprint (corrupted_warning backup) ;;
           ret (Slice [])
       | Ok ts => ret ts
       end) w1.

Definition saveTasks (ts : Tasks) : IO unit :=
  path <-- tasksFilePath ;;
  b <-- lift (json.MarshalIndent ts) ;;
  let tmp := path +:+ ".tmp" in
  _ <-- os.WriteFile tmp b ;;
  os.Rename tmp path.

(** ** The helpers (main.go:86-103) *)

(** The loop of [nextID]: the largest id seen so far, from [max]. *)
Fixpoint max_id (l : list Task) (max : Z) : Z :=
  match l with
  | [] => max
  | t :: l' => max_id l' (if ID t >? max then ID t else max)
  end.

Definition nextID (ts : Tasks) : Z := wrap64 (max_id (elems ts) 0 + 1).

(** The loop of [findIndexByID], at position [i] of the slice. *)
Fixpoint find_from (l : list Task) (id : Z) (i : Z) : Z :=
  match l with
  | [] => -1
  | t :: l' => if ID t =? id then i else find_from l' id (i + 1)
  end.

Definition findIndexByID (ts : Tasks) (id : Z) : Z := find_from (elems ts) id 0.

(** ** The commands (main.go:105-241) *)

(** [ts[i] = t], for an index in range. *)
Definition set_index (ts : Tasks) (i : Z) (t : Task) : Tasks :=
  Slice (<[Z.to_nat i := t]> (elems ts)).

(** [ts[i].Field = v]: the element at [i] with one field changed. *)
Definition update (ts : Tasks) (i : Z) (f : Task -> Task) : Tasks :=
  set_index ts i (f (index ts i)).

Definition set_Title (v : string) (t : Task) : Task :=
  mkTask (ID t) v (Done t) (CreatedAt t) (CompletedAt t).
Definition set_Done (v : bool) (t : Task) : Task :=
  mkTask (ID t) (Title t) v (CreatedAt t) (CompletedAt t).
Definition set_CompletedAt (v : option Time) (t : Task) : Task :=
  mkTask (ID t) (Title t) (Done t) (CreatedAt t) v.

(** [append(ts[:i], ts[i+1:]...)]. *)
Definition remove_at (ts : Tasks) (i : Z) : Tasks :=
  Slice (take (Z.to_nat i) (elems ts) ++ drop (Z.to_nat (i + 1)) (elems ts)).

(** [fmt.Errorf("task %d not found", id)]. *)
Definition not_found (id : Z) : error :=
  errorString ("task " +:+ strconv.FormatInt id +:+ " not found").

Definition cmdAdd (args : list string) : IO unit :=
  match args with
  | [] => fail (errorString "usage: todo add <task title>")
  | _ =>
      let title := strings.Join args " " in
      ts <-- loadTasks ;;
      let id := nextID ts in
      now <-- time_Now ;;
      let t := mkTask id title false now None in
      let ts := append ts t in
      _ <-- saveTasks ts ;;
      print ("Added " +:+ strconv.FormatInt id +:+ ": " +:+ title +:+ NL)
  end.

Definition cmdDo (args : list string) : IO unit :=
  match args with
  | [] => fail (errorString "usage: todo do <id>")
  | a :: _ =>
      id <-- lift (strconv.ParseInt a) ;;
      ts <-- loadTasks ;;
      let i := findIndexByID ts id in
      if i =? -1 then fail (not_found id)
      else if Done (index ts i) then print ("Already completed." +:+ NL)
      else
        now <-- time_Now ;;
        let ts := update ts i (set_Done true) in
        let ts := update ts i (set_CompletedAt (Some now)) in
        _ <-- saveTasks ts ;;
        print ("Marked " +:+ strconv.FormatInt id +:+ " done" +:+ NL)
  end.

Definition cmdRemove (args : list string) : IO unit :=
  match args with
  | [] => fail (errorString "usage: todo rm <id>")
  | a :: _ =>
      id <-- lift (strconv.ParseInt a) ;;
      ts <-- loadTasks ;;
      let i := findIndexByID ts id in
      if i =? -1 then fail (not_found id)
      else
        let ts := remove_at ts i in
        _ <-- saveTasks ts ;;
        print ("Removed " +:+ strconv.FormatInt id +:+ NL)
  end.

Definition cmdEdit (args : list string) : IO unit :=
  match args with
  | [] | [_] => fail (errorString "usage: todo edit <id> <new title>")
  | a :: rest =>
      id <-- lift (strconv.ParseInt a) ;;
      let newTitle := strings.Join rest " " in
      ts <-- loadTasks ;;
      let i := findIndexByID ts id in
      if i =? -1 then fail (not_found id)
      else
        let ts := update ts i (set_Title newTitle) in
        _ <-- saveTasks ts ;;
        print ("Updated " +:+ strconv.FormatInt id +:+ NL)
  end.

Definition cmdClear (args : list string) : IO unit :=
  path <-- tasksFilePath ;;
  fun w =>
    let '(r, w1) := os.Remove path w in
    match r with
    | Err e =>
        if negb (os.IsNotExist e) then (Err e, w1)
        else print ("All tasks cleared." +:+ NL) w1
    | Ok _ => print ("All tasks cleared." +:+ NL) w1
    end.

(** The body of the loop of [cmdList] for one task (main.go:136-143). *)
Definition list_task (t : Task) : IO unit :=
  let check := if Done t then "x" else " " in
  _ <-- print (strconv.FormatInt (ID t) +:+ ") [" +:+ check +:+ "] " +:+ Title t +:+ NL) ;;
  match CompletedAt t with
  | Some c => print ("    completed: " +:+ Time_Format c +:+ NL)
  | None => ret tt
  end.

Fixpoint list_tasks (l : list Task) : IO unit :=
  match l with
  | [] => ret tt
  | t :: l' => _ <-- list_task t ;; list_tasks l'
  end.

Definition cmdList (args : list string) : IO unit :=
  ts <-- loadTasks ;;
  if Nat.eqb (length (elems ts)) 0 then print ("No tasks." +:+ NL)
  else list_tasks (elems ts).

(** The text [usage] prints (main.go:244-252). *)
Definition usage_text : string :=
  "Usage: todo <command> [args]" +:+ NL
  +:+ "Commands:" +:+ NL
  +:+ "  add <title>       Add a task" +:+ NL
  +:+ "  list              List tasks" +:+ NL
  +:+ "  do <id>           Mark task done" +:+ NL
  +:+ "  rm <id>           Remove task" +:+ NL
  +:+ "  edit <id> <title> Edit task title" +:+ NL
  +:+ "  clear             Remove all tasks" +:+ NL
  +:+ "  help              Show this help".

Definition usage : IO unit := print (usage_text +:+ NL).

Section Main.

(** [err.Error()] of the errors that come from the libraries (os,
    strconv, encoding/json, time): their wording is the libraries' and
    is left open. *)
Variable library_text : error -> string.

(** [err.Error()]. *)
Definition Error (e : error) : string :=
  match e with
  | errorString msg => msg
  | _ => library_text e
  end.

(** The end of [main] (main.go:284-287): the exit status of the
    process, 1 after [os.Exit(1)] and 0 when [main] returns. *)
Definition report (c : IO unit) (w : World) : Z * World :=
  match c w with
  | (Ok _, w1) => (0, w1)
  | (Err e, w1) => (1, snd (eprint ("Error: " +:+ Error e +:+ NL) w1))
  end.

(** [main] on [os.Args] (main.go:255-288). *)
Definition main (Args : list string) (w : World) : Z * World :=
  match Args with
  | [] | [_] => (0, snd (usage w))
  | _ :: cmd :: args =>
      if String.eqb cmd "add" then report (cmdAdd args) w
      else if String.eqb cmd "list" then report (cmdList args) w
      else if String.eqb cmd "do" || String.eqb cmd "complete" then report (cmdDo args) w
      else if String.eqb cmd "rm" || String.eqb cmd "remove" then report (cmdRemove args) w
      else if String.eqb cmd "edit" then report (cmdEdit args) w
      else if String.eqb cmd "clear" then report (cmdClear args) w
      else if String.eqb cmd "help" then (0, snd (usage w))
      else (0, snd ((_ <-- print ("Unknown command: " +:+ cmd +:+ NL) ;; usage) w))
  end.

End Main.

(** A run of several commands, one process after the other, on the same
    machine; the results of the commands are collected. *)
Fixpoint run (cmds : list (IO unit)) (w : World) : list (result unit) * World :=
  match cmds with
  | [] => ([], w)
  | c :: cmds' =>
      let '(r, w1) := c w in
      let '(rs, w2) := run cmds' w1 in
      (r :: rs, w2)
  end.

(** A machine with an empty store at [tasks.json] in the working
    directory and nothing written yet. *)
Definition fresh (now : Time) : World :=
  mkWorld {[ "TODO_FILE" := "tasks.json" ]} None ∅ ∅ ∅ now [] [].

(** ** The task operations *)

(** What each command does to the collection it loaded, before it
    saves: the operations Add, MarkDone, Remove and Edit of the
    specification.  The lemmas [cmdAdd_Add], [cmdDo_MarkDone],
    [cmdRemove_Remove] and [cmdEdit_Edit] say that the commands are
    these operations between [loadTasks] and [saveTasks]. *)

(** main.go:115-117: the id assigned and the collection with the new
    task. *)
Definition Add (ts : Tasks) (title : string) (now : Time) : Z * Tasks :=
  let id := nextID ts in
  (id, append ts (mkTask id title false now None)).

Inductive done_outcome : Type :=
| DoneNotFound
| DoneAlready
| DoneMarked (ts : Tasks).

(** main.go:161-171. *)
Definition MarkDone (ts : Tasks) (id : Z) (now : Time) : done_outcome :=
  let i := findIndexByID ts id in
  if i =? -1 then DoneNotFound
  else if Done (index ts i) then DoneAlready
  else
    let t := index ts i in
    DoneMarked (set_index ts i (mkTask (ID t) (Title t) true (CreatedAt t) (Some now))).

(** main.go:192-196. *)
Definition Remove (ts : Tasks) (id : Z) : option Tasks :=
  let i := findIndexByID ts id in
  if i =? -1 then None else Some (remove_at ts i).

(** main.go:218-222. *)
Definition Edit (ts : Tasks) (id : Z) (newTitle : string) : option Tasks :=
  let i := findIndexByID ts id in
  if i =? -1 then None
  else
    let t := index ts i in
    Some (set_index ts i (mkTask (ID t) newTitle (Done t) (CreatedAt t) (CompletedAt t))).

(** ** Notions used to state the properties *)

Definition int64_ok (z : Z) : Prop := int64_min <= z <= int64_max.

(** The largest id of a collection, when it has one. *)
Definition is_max_id (ts : Tasks) (m : Z) : Prop :=
  (exists t, t ∈ elems ts /\ ID t = m) /\ forall t, t ∈ elems ts -> ID t <= m.

(** A sequence of [Add] operations, each with its title and the time
    it is made at: the ids assigned, in order, and the final collection. *)
Fixpoint add_all (adds : list (string * Time)) (ts : Tasks) : list Z * Tasks :=
  match adds with
  | [] => ([], ts)
  | (title, now) :: rest =>
      let '(id, ts1) := Add ts title now in
      let '(ids, ts2) := add_all rest ts1 in
      (id :: ids, ts2)
  end.

(** The collection the store holds after [cmdDo]: the marked one, or
    the old one when nothing is saved. *)
Definition after_MarkDone (ts : Tasks) (id : Z) (now : Time) : Tasks :=
  match MarkDone ts id now with
  | DoneMarked ts' => ts'
  | DoneNotFound | DoneAlready => ts
  end.

(** The first task of the collection with the given id. *)
Definition first_with_id (ts : Tasks) (id : Z) : option Task :=
  List.find (fun t => ID t =? id) (elems ts).

(** The store is the file at [path]: [tasksFilePath] finds that path. *)
Definition resolves (w : World) (path : string) : Prop :=
  tasksFilePath w = (Ok path, w).

(** The world [loadTasks] leaves after it found the content [b] of the
    store unreadable as JSON: the backup is written if the operating
    system lets it, and the warning is printed. *)
Definition recovered (path b : string) (w : World) : World :=
  let backup := backup_name path (clock w) in
  mkWorld (environ w) (home w)
    (if decide (backup ∈ write_fault w) then files w else <[backup := b]> (files w))
    (read_fault w) (write_fault w) (clock w) (stdout w)
    (stderr w ++ [corrupted_warning backup]).

(** The world [saveTasks] leaves after it wrote [b] to the store. *)
Definition saved (path b : string) (w : World) : World :=
  set_files (<[path := b]> (delete (path +:+ ".tmp") (files w))) w.

(** ** Notions used in the proofs about the JSON text *)

Fixpoint all_digits (s : string) : bool :=
  match s with
  | EmptyString => true
  | String c s' => is_digit c && all_digits s'
  end.

(** The offset as the text keeps it: whole minutes. *)
Definition canon_time (t : Time) : Time :=
  mkTime (year t) (month t) (day t) (hour t) (minute t) (second t) (nanosecond t)
    (60 * Z.quot (offset t) 60).

Definition zone_text (off : Z) : string :=
  if off =? 0 then "Z"
  else
    let zone := Z.quot off 60 in
    (if zone <? 0 then "-" else "+")
    +:+ appendInt (Z.abs zone / 60) 2 +:+ ":" +:+ appendInt (Z.abs zone mod 60) 2.

(** What [unquote] makes of the literal written for [s]: the bytes of
    [s] that are not part of a well-formed UTF-8 sequence are replaced
    by U+FFFD. *)
Fixpoint coerce (s : string) : string :=
  match s with
  | EmptyString => EmptyString
  | String b0 s1 =>
      if code b0 <? 128 then String b0 (coerce s1)
      else
        match utf8_len s, s1 with
        | 2%nat, String b1 s2 => String b0 (String b1 (coerce s2))
        | 3%nat, String b1 (String b2 s3) =>
            String b0 (String b1 (String b2 (coerce s3)))
        | 4%nat, String b1 (String b2 (String b3 s4)) =>
            String b0 (String b1 (String b2 (String b3 (coerce s4))))
        | _, _ => EncodeRune RuneError +:+ coerce s1
        end
  end.

(** Characters the scanner takes as they are inside a literal. *)
Definition plain (c : ascii) : bool :=
  negb (Ascii.eqb c dquote) && negb (Ascii.eqb c "\") && negb (code c <? 32).

Fixpoint plain_str (s : string) : bool :=
  match s with
  | EmptyString => true
  | String c s' => plain c && plain_str s'
  end.

(** One member of an object as [marshal_task] writes it: the key on
    its own line, the value, and then a comma and the next member or the
    closing brace. *)
Definition after_member (f : nat) (d : Z) (name : string)
    (p : option (json * string)) : option (list (string * json) * string) :=
  match p with
  | None => None
  | Some (v, r2) =>
      match skip_ws r2 with
      | String c r3 =>
          if Ascii.eqb c "," then
            match parse_members f d r3 with
            | Some (ms, r4) => Some ((name, v) :: ms, r4)
            | None => None
            end
          else if Ascii.eqb c "}" then Some ([(name, v)], r3)
          else None
      | EmptyString => None
      end
  end.

Definition field_name (name : string) : Prop :=
  name = "id" \/ name = "title" \/ name = "done" \/ name = "created_at"
  \/ name = "completed_at".

(** The members [marshal_task] writes for a task. *)
Definition members (t : Task) : list (string * json) :=
  [("id", JNum (FormatInt (ID t)));
   ("title", JStr (quote_body (Title t)));
   ("done", JBool (Done t));
   ("created_at", JStr (formatRFC3339 (CreatedAt t)))]
  ++ match CompletedAt t with
     | Some c => [("completed_at", JStr (formatRFC3339 c))]
     | None => []
     end.

(** The tasks that are Go values: the id is an int64 and the
    timestamps are times. *)
Definition task_ok (t : Task) : bool :=
  (int64_min <=? ID t) && (ID t <=? int64_max) && Time_ok (CreatedAt t)
  && match CompletedAt t with Some c => Time_ok c | None => true end.

Definition Tasks_ok (ts : Tasks) : bool := forallb task_ok (elems ts).

(** The text of a task in front of [r], laid out member by member. *)
Definition task_text (t : Task) (created : string) (completed : option string)
    (r : string) : string :=
  String "{"
    (indent2 +:+ key "id" +:+ FormatInt (ID t) +:+ String ","
       (indent2 +:+ key "title" +:+ String dquote (quote_body (Title t) +:+ str1 dquote)
          +:+ String ","
          (indent2 +:+ key "done" +:+ (if Done t then "true" else "false") +:+ String ","
             (indent2 +:+ key "created_at" +:+ created
                +:+ match completed with
                    | None => indent1 +:+ String "}" r
                    | Some c =>
                        String ","
                          (indent2 +:+ key "completed_at" +:+ c
                             +:+ indent1 +:+ String "}" r)
                    end)))).

(** A task as it comes back from the store: the title coerced to valid
    UTF-8, the zone offsets in whole minutes. *)
Definition canon_task (t : Task) : Task :=
  mkTask (ID t) (coerce (Title t)) (Done t) (canon_time (CreatedAt t))
    (option_map canon_time (CompletedAt t)).

Definition canon_tasks (ts : Tasks) : Tasks :=
  match ts with
  | Nil => Nil
  | Slice l => Slice (map canon_task l)
  end.

(** The texts that do not change when read back: valid UTF-8 titles
    and zone offsets that are zero or at least a minute. *)
Definition stable_time (t : Time) : bool :=
  (offset t =? 0) || (60 <=? Z.abs (offset t)).

Definition stable_task (t : Task) : bool :=
  ValidString (Title t) && stable_time (CreatedAt t)
  && match CompletedAt t with Some c => stable_time c | None => true end.

Definition Tasks_stable (ts : Tasks) : bool := forallb stable_task (elems ts).

(** ** Sample values *)

Definition noon : Time := mkTime 2025 9 21 12 0 0 0 0.
Definition evening : Time := mkTime 2025 9 21 17 45 0 500000000 7200.

Definition milk : Task := mkTask 1 "Buy milk" true noon (Some evening).
Definition three : Task := mkTask 3 "Call home" false noon None.
Definition seven : Task := mkTask 7 "Write report" true noon (Some evening).
Definition minus_five : Task := mkTask (-5) "Old entry" false noon None.

(** A store written by hand in which two tasks have the id 1. *)
Definition q (s : string) : string := str1 dquote +:+ s +:+ str1 dquote.

Definition twins_text : string :=
  "[{" +:+ q "id" +:+ ":1," +:+ q "title" +:+ ":" +:+ q "first" +:+ "},"
  +:+ "{" +:+ q "id" +:+ ":1," +:+ q "title" +:+ ":" +:+ q "second" +:+ "}]".

Definition twins : Tasks :=
  Slice [mkTask 1 "first" false zeroTime None; mkTask 1 "second" false zeroTime None].

(** Machines whose store is unreadable as JSON, empty, or holds [twins]. *)
Definition broken_store : World := set_files {[ "tasks.json" := "{oops" ]} (fresh noon).
Definition empty_store : World := set_files {[ "tasks.json" := EmptyString ]} (fresh noon).
Definition twins_store : World := set_files {[ "tasks.json" := twins_text ]} (fresh noon).

(** The machine after [todo add "Buy milk"] at noon and [todo do 1] in
    the evening: its store holds [milk]. *)
Definition done_store : World :=
  snd (run [cmdDo ["1"]] (set_clock evening (snd (run [cmdAdd ["Buy milk"]] (fresh noon))))).

(** ** Notions and samples for the further properties *)

(** The ids of a collection, in order. *)
Definition ids_of (ts : Tasks) : list Z := ID <$> elems ts.

(** The collections that read back as they are: valid UTF-8 titles and
    zone offsets of whole minutes. *)
Definition exact_time (t : Time) : bool := Z.rem (offset t) 60 =? 0.

Definition exact_task (t : Task) : bool :=
  ValidString (Title t) && exact_time (CreatedAt t)
  && match CompletedAt t with Some c => exact_time c | None => true end.

Definition Tasks_exact (ts : Tasks) : bool := forallb exact_task (elems ts).

(** A machine whose store is the default one in the home directory. *)
Definition at_home : World := mkWorld ∅ (Some "/home/ann") ∅ ∅ ∅ noon [] [].

(** The times that are readings of a [time.Time] and that
    [MarshalJSON] accepts, and the tasks made of such times and an
    int64 id. *)
Definition time_sound (t : Time) : bool := Time_ok t && is_Ok (Time_MarshalJSON t).

Definition task_sound (t : Task) : bool :=
  between int64_min (ID t) int64_max && time_sound (CreatedAt t)
  && match CompletedAt t with Some c => time_sound c | None => true end.


(** The lines [cmdList] prints for a task, and for a collection. *)
Definition task_lines (t : Task) : list string :=
  (FormatInt (ID t) +:+ ") [" +:+ (if Done t then "x" else " ") +:+ "] "
   +:+ Title t +:+ NL)
  :: match CompletedAt t with
     | Some c => ["    completed: " +:+ Time_Format c +:+ NL]
     | None => []
     end.

Definition listing (ts : Tasks) : list string :=
  match elems ts with
  | [] => ["No tasks." +:+ NL]
  | l => flat_map task_lines l
  end.

(** The world with more lines on the standard output. *)
Definition printed (lines : list string) (w : World) : World :=
  mkWorld (environ w) (home w) (files w) (read_fault w) (write_fault w) (clock w)
    (stdout w ++ lines) (stderr w).

(** The machine after [todo add Buy milk] at noon, in the evening: its
    store holds one task that is not done. *)
Definition pending : Task := mkTask 1 "Buy milk" false noon None.

Definition milk_store : World :=
  set_clock evening (snd (cmdAdd ["Buy"; "milk"] (fresh noon))).

(** A machine, in the evening, whose store holds two tasks with the id
    1, the first not done and the second done. *)
Definition mixed_store : World :=
  set_clock evening (snd (saveTasks (Slice [pending; milk]) (fresh noon))).

(** The names [main] knows a command by. *)
Definition command_names : list string :=
  ["add"; "list"; "do"; "complete"; "rm"; "remove"; "edit"; "clear"].

(** A machine without TODO_FILE whose home directory is not known. *)
Definition homeless : World := mkWorld ∅ None ∅ ∅ ∅ noon [] [].

(** The times a timestamp of a store is read as: a real date and time
    of day in a year of four digits; and the tasks made of such times
    and an int64 id. *)
Definition time_loaded (t : Time) : bool := Time_ok t && between 0 (year t) 9999.

Definition task_loaded (t : Task) : bool :=
  between int64_min (ID t) int64_max && time_loaded (CreatedAt t)
  && match CompletedAt t with Some c => time_loaded c | None => true end.

(** The zone of a time is less than 24 hours from UTC, as [MarshalJSON]
    wants it; and so are the zones of the timestamps of a task. *)
Definition zone_hour_ok (t : Time) : bool :=
  (offset t =? 0) || (Z.abs (Z.quot (offset t) 60) / 60 <? 24).

Definition task_zone_ok (t : Task) : bool :=
  zone_hour_ok (CreatedAt t)
  && match CompletedAt t with Some c => zone_hour_ok c | None => true end.


(** A store written by hand whose only task was created in a zone 24
    hours from UTC. *)
Definition far_zone_text : string :=
  "[{" +:+ q "id" +:+ ":1," +:+ q "title" +:+ ":" +:+ q "far" +:+ ","
  +:+ q "created_at" +:+ ":" +:+ q "2025-09-21T12:00:00+24:00" +:+ "}]".

Definition far_zone : Tasks :=
  Slice [mkTask 1 "far" false (mkTime 2025 9 21 12 0 0 0 86400) None].

Definition far_zone_store : World :=
  set_files {[ "tasks.json" := far_zone_text ]} (fresh noon).

(** * Properties *)

(** ** Ids *)

Lemma wrap64_id z : int64_ok z -> wrap64 z = z.
Proof.
  unfold int64_ok, int64_min, int64_max, wrap64. intros H.
  rewrite Z.mod_small; lia.
Qed.

Lemma max_id_ge l m : m <= max_id l m.
Proof.
  revert m. induction l as [|t l IH]; intros m; simpl; [lia|].
  specialize (IH (if ID t >? m then ID t else m)).
  destruct (Z.gtb_spec (ID t) m); lia.
Qed.

Lemma max_id_upper l m t : t ∈ l -> ID t <= max_id l m.
Proof.
  revert m. induction l as [|u l IH]; intros m Hin; [by apply elem_of_nil in Hin|].
  apply elem_of_cons in Hin as [->|Hin]; simpl.
  - pose proof (max_id_ge l (if ID u >? m then ID u else m)).
    destruct (Z.gtb_spec (ID u) m); lia.
  - by apply IH.
Qed.

Lemma max_id_attained l m :
  max_id l m = m \/ exists t, t ∈ l /\ ID t = max_id l m.
Proof.
  revert m. induction l as [|u l IH]; intros m; simpl; [by left|].
  destruct (IH (if ID u >? m then ID u else m)) as [E|(t & Hin & E)].
  - rewrite E. destruct (Z.gtb_spec (ID u) m); [right|by left].
    exists u. split; [apply list_elem_of_here|done].
  - right. exists t. split; [by apply list_elem_of_further|done].
Qed.

Lemma max_id_app l1 l2 m : max_id (l1 ++ l2) m = max_id l2 (max_id l1 m).
Proof. revert m. induction l1 as [|t l1 IH]; intros m; simpl; [done|apply IH]. Qed.

Lemma max_id_is_max ts m : is_max_id ts m -> 0 <= m -> max_id (elems ts) 0 = m.
Proof.
  intros [(t & Hin & Ht) Hup] Hm.
  pose proof (max_id_upper _ 0 _ Hin).
  destruct (max_id_attained (elems ts) 0) as [E|(u & Hu & E)]; [lia|].
  specialize (Hup _ Hu). lia.
Qed.

Lemma max_id_nonpos l : (forall t, t ∈ l -> ID t <= 0) -> max_id l 0 = 0.
Proof.
  intros H. destruct (max_id_attained l 0) as [E|(u & Hu & E)]; [done|].
  specialize (H _ Hu). pose proof (max_id_ge l 0). lia.
Qed.

(** ** Finding a task by id *)

Lemma find_from_range l id i :
  find_from l id i = -1 \/ i <= find_from l id i < i + Z.of_nat (length l).
Proof.
  revert i. induction l as [|t l IH]; intros i; simpl; [by left|].
  destruct (ID t =? id); [right; lia|].
  destruct (IH (i + 1)) as [->|?]; [by left|right; lia].
Qed.

Lemma find_from_absent l id i :
  0 <= i -> (find_from l id i = -1 <-> forall t, t ∈ l -> ID t <> id).
Proof.
  revert i. induction l as [|t l IH]; intros i Hi; simpl.
  - split; [|done]. intros _ t Hin. by apply elem_of_nil in Hin.
  - destruct (Z.eqb_spec (ID t) id) as [E|E].
    + split; [lia|]. intros H. exfalso. apply (H t); [apply list_elem_of_here|done].
    + rewrite IH by lia. split.
      * intros H u Hu. apply elem_of_cons in Hu as [->|Hu]; auto.
      * intros H u Hu. apply H. by apply list_elem_of_further.
Qed.

(** The index found is that of the first task with the id: the slice
    splits there into tasks with other ids, the task, and the rest. *)
Lemma find_from_split l id i k :
  0 <= i -> find_from l id i = k -> k <> -1 ->
  exists pre t post,
    l = pre ++ t :: post /\ ID t = id /\ (forall u, u ∈ pre -> ID u <> id)
    /\ k = i + Z.of_nat (length pre).
Proof.
  revert i. induction l as [|t l IH]; intros i Hi Hk Hne; simpl in Hk; [lia|].
  destruct (Z.eqb_spec (ID t) id) as [E|E].
  - exists [], t, l. repeat split; [done| |simpl; lia].
    intros u Hu. by apply elem_of_nil in Hu.
  - destruct (IH (i + 1)) as (pre & u & post & -> & Hu & Hpre & Hk'); [lia|done|done|].
    exists (t :: pre), u, post. repeat split; [done| |simpl; lia].
    intros v Hv. apply elem_of_cons in Hv as [->|Hv]; auto.
Qed.

Lemma find_from_first pre t post i :
  0 <= i -> (forall u, u ∈ pre -> ID u <> ID t) ->
  find_from (pre ++ t :: post) (ID t) i = i + Z.of_nat (length pre).
Proof.
  revert i. induction pre as [|u pre IH]; intros i Hi Hpre; simpl.
  - rewrite Z.eqb_refl. lia.
  - destruct (Z.eqb_spec (ID u) (ID t)) as [E|E].
    + exfalso. apply (Hpre u); [apply list_elem_of_here|done].
    + rewrite IH; [lia|lia|]. intros v Hv. apply Hpre. by apply list_elem_of_further.
Qed.

Lemma findIndexByID_first pre t post :
  (forall u, u ∈ pre -> ID u <> ID t) ->
  findIndexByID (Slice (pre ++ t :: post)) (ID t) = Z.of_nat (length pre).
Proof. intros H. unfold findIndexByID. simpl. by rewrite find_from_first. Qed.

Lemma index_middle pre t post :
  index (Slice (pre ++ t :: post)) (Z.of_nat (length pre)) = t.
Proof.
  unfold index. simpl. rewrite Nat2Z.id.
  rewrite nth_middle. done.
Qed.

Lemma set_index_middle pre t post t' :
  set_index (Slice (pre ++ t :: post)) (Z.of_nat (length pre)) t'
  = Slice (pre ++ t' :: post).
Proof.
  unfold set_index. simpl. rewrite Nat2Z.id. f_equal.
  rewrite insert_app_r_alt by lia. by rewrite Nat.sub_diag.
Qed.

Lemma remove_at_middle pre t post :
  remove_at (Slice (pre ++ t :: post)) (Z.of_nat (length pre)) = Slice (pre ++ post).
Proof.
  unfold remove_at. simpl. f_equal.
  replace (Z.to_nat (Z.of_nat (length pre) + 1)) with (length pre + 1)%nat by lia.
  by rewrite Nat2Z.id, take_app_length, drop_app_add.
Qed.

Lemma first_with_id_split pre t post :
  (forall u, u ∈ pre -> ID u <> ID t) ->
  first_with_id (Slice (pre ++ t :: post)) (ID t) = Some t.
Proof.
  unfold first_with_id. simpl. induction pre as [|u pre IH]; intros H; simpl.
  - by rewrite Z.eqb_refl.
  - destruct (Z.eqb_spec (ID u) (ID t)) as [E|E].
    + exfalso. apply (H u); [apply list_elem_of_here|done].
    + apply IH. intros v Hv. apply H. by apply list_elem_of_further.
Qed.

(** A task found by id is the first with that id, and the collection
    splits around it. *)
Lemma found_split ts id :
  findIndexByID ts id <> -1 ->
  exists pre t post,
    ts = Slice (pre ++ t :: post) /\ ID t = id
    /\ (forall u, u ∈ pre -> ID u <> id)
    /\ findIndexByID ts id = Z.of_nat (length pre).
Proof.
  intros Hne. unfold findIndexByID in *.
  destruct (find_from_split (elems ts) id 0 _ ltac:(lia) eq_refl Hne)
    as (pre & t & post & E & Ht & Hpre & Hk).
  exists pre, t, post. repeat split; [|done|done|lia].
  destruct ts as [|l]; simpl in E; [by destruct pre|by subst].
Qed.

Lemma first_with_id_found ts id t :
  first_with_id ts id = Some t ->
  exists pre post,
    ts = Slice (pre ++ t :: post) /\ ID t = id /\ (forall u, u ∈ pre -> ID u <> id).
Proof.
  unfold first_with_id. destruct ts as [|l]; simpl; [done|].
  induction l as [|u l IH]; simpl; [done|].
  destruct (Z.eqb_spec (ID u) id) as [E|E].
  - intros [= ->]. exists [], l. repeat split; [done|].
    intros v Hv. by apply elem_of_nil in Hv.
  - intros H. destruct (IH H) as (pre & post & [= ->] & Ht & Hpre).
    exists (u :: pre), post. repeat split; [done|].
    intros v Hv. apply elem_of_cons in Hv as [->|Hv]; auto.
Qed.

Lemma MarkDone_first pre t post now :
  (forall u, u ∈ pre -> ID u <> ID t) ->
  MarkDone (Slice (pre ++ t :: post)) (ID t) now
  = if Done t then DoneAlready
    else DoneMarked
           (Slice (pre ++ mkTask (ID t) (Title t) true (CreatedAt t) (Some now) :: post)).
Proof.
  intros H. unfold MarkDone. rewrite findIndexByID_first by done.
  destruct (Z.eqb_spec (Z.of_nat (length pre)) (-1)); [lia|].
  rewrite index_middle. destruct (Done t); [done|].
  by rewrite set_index_middle.
Qed.

Lemma Edit_first pre t post newTitle :
  (forall u, u ∈ pre -> ID u <> ID t) ->
  Edit (Slice (pre ++ t :: post)) (ID t) newTitle
  = Some (Slice (pre ++ mkTask (ID t) newTitle (Done t) (CreatedAt t) (CompletedAt t)
                   :: post)).
Proof.
  intros H. unfold Edit. rewrite findIndexByID_first by done.
  destruct (Z.eqb_spec (Z.of_nat (length pre)) (-1)); [lia|].
  by rewrite index_middle, set_index_middle.
Qed.

Lemma Remove_first pre t post :
  (forall u, u ∈ pre -> ID u <> ID t) ->
  Remove (Slice (pre ++ t :: post)) (ID t) = Some (Slice (pre ++ post)).
Proof.
  intros H. unfold Remove. rewrite findIndexByID_first by done.
  destruct (Z.eqb_spec (Z.of_nat (length pre)) (-1)); [lia|].
  by rewrite remove_at_middle.
Qed.

Lemma findIndexByID_absent ts id :
  findIndexByID ts id = -1 <-> forall t, t ∈ elems ts -> ID t <> id.
Proof. unfold findIndexByID. by apply find_from_absent. Qed.

Lemma nextID_no_overflow ts :
  (forall t, t ∈ elems ts -> ID t < int64_max) ->
  nextID ts = max_id (elems ts) 0 + 1.
Proof.
  intros H. unfold nextID. apply wrap64_id.
  pose proof (max_id_ge (elems ts) 0) as Hge.
  assert (max_id (elems ts) 0 < int64_max) as Hlt.
  { destruct (max_id_attained (elems ts) 0) as [E|(t & Ht & E)].
    - rewrite E. unfold int64_max. lia.
    - rewrite <- E. by apply H. }
  unfold int64_ok, int64_min, int64_max in *. lia.
Qed.

(** ** C2 *)

(** C2, as stated, fails: for the collection holding one task with id
    -5 the largest id is -5, and the new task gets id 1, not -4. *)
Lemma C2_negative_ids :
  is_max_id (Slice [minus_five]) (-5)
  /\ fst (Add (Slice [minus_five]) "b" noon) = 1
  /\ fst (Add (Slice [minus_five]) "b" noon) <> 1 + (-5).
Proof.
  split; [|split; [reflexivity|discriminate]].
  split.
  - exists minus_five. split; [apply list_elem_of_here|reflexivity].
  - intros t Ht. apply list_elem_of_singleton in Ht as ->. simpl. lia.
Qed.

(** C2, amended: the id assigned to a newly added task is 1 + the
    largest id present when that id is not negative, and 1 when the
    collection is empty or holds no positive id (all ids being below
    the largest int64, at which the sum wraps around). *)
Theorem C2_next_id ts title now :
  (forall t, t ∈ elems ts -> ID t < int64_max) ->
  (forall m, is_max_id ts m -> 0 <= m -> fst (Add ts title now) = 1 + m)
  /\ ((forall t, t ∈ elems ts -> ID t <= 0) -> fst (Add ts title now) = 1)
  /\ (elems ts = [] -> fst (Add ts title now) = 1).
Proof.
  intros Hlt. simpl. rewrite nextID_no_overflow by done. repeat split.
  - intros m Hm H0. rewrite (max_id_is_max ts m) by done. lia.
  - intros H. by rewrite max_id_nonpos.
  - intros ->. done.
Qed.

Lemma C2_next_id_witness :
  (forall t, t ∈ elems (Slice [three; seven]) -> ID t < int64_max)
  /\ is_max_id (Slice [three; seven]) 7
  /\ fst (Add (Slice [three; seven]) "c" noon) = 1 + 7.
Proof.
  assert (forall t, t ∈ elems (Slice [three; seven]) -> ID t < int64_max) as H.
  { intros t Ht. simpl in Ht.
    apply elem_of_cons in Ht as [->|Ht]; [vm_compute; reflexivity|].
    apply list_elem_of_singleton in Ht as ->. vm_compute. reflexivity. }
  assert (is_max_id (Slice [three; seven]) 7) as Hm.
  { split.
    - exists seven. split; [|reflexivity].
      apply list_elem_of_further, list_elem_of_here.
    - intros t Ht. simpl in Ht.
      apply elem_of_cons in Ht as [->|Ht]; [vm_compute; discriminate|].
      apply list_elem_of_singleton in Ht as ->. vm_compute. discriminate. }
  split; [exact H|]. split; [exact Hm|].
  apply (C2_next_id (Slice [three; seven]) "c" noon H); [exact Hm|lia].
Defined.

(** ** C1 *)

(** C1, as stated, fails on its own example: after the only task, with
    id 1, is removed, the next task added gets id 1 again.  The run of
    the commands of the scenario ends with the same id. *)
Lemma C1_removed_id_reused :
  Remove (Slice [milk]) 1 = Some (Slice [])
  /\ fst (Add (Slice []) "X" evening) = 1
  /\ stdout (snd (run [cmdAdd ["Buy milk"]; cmdDo ["1"]; cmdDo ["1"];
                       cmdRemove ["1"]; cmdAdd ["X"]] (fresh noon)))
     = ["Added 1: Buy milk" +:+ NL; "Marked 1 done" +:+ NL;
        "Already completed." +:+ NL; "Removed 1" +:+ NL; "Added 1: X" +:+ NL].
Proof. repeat split; vm_compute; reflexivity. Qed.

(** C1, amended: removing a task takes the first task with the id out
    of the collection, and the task added next gets 1 + the largest id
    that is left, 1 when no positive id is left.  The new id differs
    from the removed one whenever a task with an id at least as large
    is left; the removed id is assigned again when it was larger than
    all ids left and the id just below it is still present, or it was
    1 (ids being below the largest int64). *)
Theorem C1_remove_then_add ts id ts' title now :
  Remove ts id = Some ts' ->
  (forall t, t ∈ elems ts' -> ID t < int64_max) ->
  (exists pre t post,
     ts = Slice (pre ++ t :: post) /\ ID t = id
     /\ (forall u, u ∈ pre -> ID u <> id) /\ ts' = Slice (pre ++ post))
  /\ (forall m, is_max_id ts' m -> 0 <= m -> fst (Add ts' title now) = 1 + m)
  /\ ((forall t, t ∈ elems ts' -> ID t <= 0) -> fst (Add ts' title now) = 1)
  /\ ((exists t, t ∈ elems ts' /\ id <= ID t) -> fst (Add ts' title now) <> id)
  /\ ((forall t, t ∈ elems ts' -> ID t < id) ->
      id = 1 \/ (1 < id /\ exists t, t ∈ elems ts' /\ ID t = id - 1) ->
      fst (Add ts' title now) = id).
Proof.
  intros Hrm Hlt. split.
  { assert (findIndexByID ts id <> -1) as Hne.
    { intros E. unfold Remove in Hrm. by rewrite E in Hrm. }
    destruct (found_split ts id Hne) as (pre & t & post & -> & <- & Hpre & _).
    rewrite Remove_first in Hrm by done. injection Hrm as <-.
    by exists pre, t, post. }
  simpl. rewrite nextID_no_overflow by done. split; [|split; [|split]].
  - intros m Hm H0. rewrite (max_id_is_max ts' m) by done. lia.
  - intros H. by rewrite max_id_nonpos.
  - intros (t & Ht & Hle). pose proof (max_id_upper _ 0 _ Ht). lia.
  - intros Hup [->|(Hid & t & Ht & E)].
    + rewrite max_id_nonpos; [done|]. intros t Ht. specialize (Hup _ Ht). lia.
    + rewrite (max_id_is_max ts' (id - 1)); [lia| |lia].
      split; [by exists t|]. intros u Hu. specialize (Hup _ Hu). lia.
Qed.

Lemma C1_remove_then_add_witness :
  Remove (Slice [milk; seven]) 7 = Some (Slice [milk])
  /\ (forall t, t ∈ elems (Slice [milk]) -> ID t < int64_max)
  /\ is_max_id (Slice [milk]) 1
  /\ fst (Add (Slice [milk]) "X" noon) = 2
  /\ fst (Add (Slice [milk]) "X" noon) <> 7.
Proof.
  assert (forall t, t ∈ elems (Slice [milk]) -> ID t < int64_max) as H.
  { intros t Ht. apply list_elem_of_singleton in Ht as ->. vm_compute. reflexivity. }
  assert (is_max_id (Slice [milk]) 1) as Hmax.
  { split; [exists milk; split; [apply list_elem_of_here|reflexivity]|].
    intros t Ht. apply list_elem_of_singleton in Ht as ->. vm_compute. discriminate. }
  split; [reflexivity|]. split; [exact H|]. split; [exact Hmax|].
  destruct (C1_remove_then_add (Slice [milk; seven]) 7 (Slice [milk]) "X" noon
              eq_refl H) as (_ & Hnext & _ & Hdiff & _).
  split; [apply (Hnext 1 Hmax); lia|].
  intros E. rewrite (Hnext 1 Hmax) in E; [discriminate E|lia].
Defined.

(** ** C8 *)

Lemma max_id_seqZ l k : 0 <= k -> ID <$> l = seqZ 1 k -> max_id l 0 = k.
Proof.
  intros Hk E.
  assert (forall t, t ∈ l -> 1 <= ID t <= k) as Hin.
  { intros t Ht. apply (list_elem_of_fmap_2 ID) in Ht. rewrite E in Ht.
    apply elem_of_seqZ in Ht. lia. }
  destruct (max_id_attained l 0) as [E0|(t & Ht & Et)].
  - destruct (Z.eq_dec k 0) as [->|Hne]; [done|].
    assert (k ∈ ID <$> l) as Hk'. { rewrite E. apply elem_of_seqZ. lia. }
    apply list_elem_of_fmap in Hk' as (t & -> & Ht).
    pose proof (max_id_upper l 0 t Ht). specialize (Hin _ Ht). lia.
  - assert (k <= max_id l 0); [|specialize (Hin _ Ht); lia].
    destruct (Z.eq_dec k 0) as [->|Hne]; [apply max_id_ge|].
    assert (k ∈ ID <$> l) as Hk'. { rewrite E. apply elem_of_seqZ. lia. }
    apply list_elem_of_fmap in Hk' as (u & -> & Hu). by apply max_id_upper.
Qed.

(** Adding to a collection whose ids are 1..k assigns k+1, k+2, ... *)
Lemma add_all_from adds : forall ts k ids ts',
  0 <= k -> ID <$> elems ts = seqZ 1 k ->
  k + Z.of_nat (length adds) <= int64_max ->
  add_all adds ts = (ids, ts') ->
  ids = seqZ (k + 1) (Z.of_nat (length adds))
  /\ ID <$> elems ts' = seqZ 1 (k + Z.of_nat (length adds)).
Proof.
  induction adds as [|[title now] adds IH]; intros ts k ids ts' Hk Hts Hlen Hrun.
  - simpl in *. injection Hrun as <- <-. rewrite Z.add_0_r. by rewrite seqZ_nil.
  - cbn [add_all] in Hrun. unfold Add in Hrun.
    destruct (add_all adds _) as [ids1 ts1] eqn:E1. injection Hrun as <- <-.
    assert (nextID ts = k + 1) as Hid.
    { rewrite nextID_no_overflow.
      - by rewrite (max_id_seqZ _ k).
      - intros t Ht. apply (list_elem_of_fmap_2 ID) in Ht. rewrite Hts in Ht.
        apply elem_of_seqZ in Ht. cbn [length] in Hlen. lia. }
    rewrite Hid in *.
    assert (ID <$> elems (append ts (mkTask (k + 1) title false now None))
            = seqZ 1 (k + 1)) as Hts'.
    { unfold append. cbn [elems]. rewrite fmap_app, Hts.
      rewrite (seqZ_app 1 k 1) by lia. f_equal.
      rewrite seqZ_cons, seqZ_nil by lia. cbn. f_equal. lia. }
    cbn [length] in Hlen.
    destruct (IH _ (k + 1) _ _ ltac:(lia) Hts' ltac:(lia) E1) as [-> Hts1].
    split.
    + rewrite (seqZ_cons (k + 1)) by (cbn [length]; lia). f_equal. f_equal; cbn [length]; lia.
    + rewrite Hts1. f_equal. cbn [length]. lia.
Qed.

(** C8: for every sequence of Add operations applied starting from the
    empty collection, the ids assigned are 1, 2, 3, ..., hence strictly
    increasing, and the ids of the resulting collection are pairwise
    distinct.  (A slice holds at most as many elements as the largest
    int64.) *)
Theorem C8_add_sequence adds ts0 ids ts :
  elems ts0 = [] ->
  Z.of_nat (length adds) <= int64_max ->
  add_all adds ts0 = (ids, ts) ->
  ids = seqZ 1 (Z.of_nat (length adds))
  /\ (forall i j x y, ids !! i = Some x -> ids !! j = Some y -> (i < j)%nat -> x < y)
  /\ ID <$> elems ts = ids
  /\ NoDup (ID <$> elems ts).
Proof.
  intros Hempty Hlen Hrun.
  destruct (add_all_from adds ts0 0 ids ts) as [-> Hts]; try done.
  { rewrite Hempty. by rewrite seqZ_nil. }
  rewrite !Z.add_0_l in *. repeat split.
  - intros i j x y Hi Hj Hij.
    apply lookup_seqZ in Hi as [-> _]. apply lookup_seqZ in Hj as [-> _]. lia.
  - done.
  - rewrite Hts. apply NoDup_seqZ.
Qed.

Lemma C8_add_sequence_witness :
  elems (Slice []) = []
  /\ Z.of_nat (length [("a", noon); ("b", noon); ("c", evening)]) <= int64_max
  /\ fst (add_all [("a", noon); ("b", noon); ("c", evening)] (Slice [])) = [1; 2; 3].
Proof.
  split; [reflexivity|]. split; [vm_compute; discriminate|].
  apply (proj1 (C8_add_sequence [("a", noon); ("b", noon); ("c", evening)]
                  (Slice []) _ _ eq_refl ltac:(vm_compute; discriminate) eq_refl)).
Defined.

(** ** Strings *)

#[local] Arguments String.append !_ _ / : simpl nomatch.

Lemma str_app_assoc (a b c : string) : (a +:+ b) +:+ c = a +:+ (b +:+ c).
Proof. induction a as [|x a IH]; cbn; [done|by f_equal]. Qed.

Lemma str_app_nil_r (a : string) : a +:+ EmptyString = a.
Proof. induction a as [|x a IH]; cbn; [done|by f_equal]. Qed.

Lemma str_length_app (a b : string) :
  String.length (a +:+ b) = (String.length a + String.length b)%nat.
Proof. induction a as [|x a IH]; cbn; [done|by f_equal]. Qed.

Lemma str_app_neq (a b : string) : b <> EmptyString -> a +:+ b <> a.
Proof.
  intros Hb E. apply (f_equal String.length) in E. rewrite str_length_app in E.
  destruct b; [done|simpl in E; lia].
Qed.

Lemma backup_name_neq path now : backup_name path now <> path.
Proof. unfold backup_name. by apply str_app_neq. Qed.

(** ** The store *)

Lemma tasksFilePath_world w r w' : tasksFilePath w = (r, w') -> w' = w.
Proof.
  unfold tasksFilePath, bind, os.UserHomeDir, os.MkdirAll, ret.
  destruct (negb _); [by intros [= _ <-]|].
  destruct (home w); [|by intros [= _ <-]].
  destruct (decide _); by intros [= _ <-].
Qed.

(** The path of the store depends on the environment, the home
    directory and the write permissions only. *)
Lemma tasksFilePath_same w w' :
  environ w' = environ w -> home w' = home w -> write_fault w' = write_fault w ->
  fst (tasksFilePath w') = fst (tasksFilePath w).
Proof.
  intros He Hh Hw. unfold tasksFilePath, bind, os.UserHomeDir, os.MkdirAll, ret, os.Getenv.
  rewrite He, Hh. destruct (negb _); [done|].
  destruct (home w); [|done]. rewrite Hw. by destruct (decide _).
Qed.

Lemma resolves_same w w' path :
  environ w' = environ w -> home w' = home w -> write_fault w' = write_fault w ->
  resolves w path -> resolves w' path.
Proof.
  intros He Hh Hw Hr. unfold resolves in *.
  pose proof (tasksFilePath_same w w' He Hh Hw) as E. rewrite Hr in E.
  destruct (tasksFilePath w') as [r w''] eqn:E'.
  apply tasksFilePath_world in E' as ->. simpl in E. by subst.
Qed.

Lemma loadTasks_absent w path :
  resolves w path -> files w !! path = None -> loadTasks w = (Ok (Slice []), w).
Proof.
  intros Hr Hf. unfold loadTasks, bind. rewrite Hr. unfold os.Stat. by rewrite Hf.
Qed.

Lemma loadTasks_present w path b :
  resolves w path -> files w !! path = Some b -> path ∉ read_fault w ->
  loadTasks w
  = match Unmarshal b with
    | Ok ts => (Ok ts, w)
    | Err _ => (Ok (Slice []), recovered path b w)
    end.
Proof.
  intros Hr Hf Hrd. unfold loadTasks, bind. rewrite Hr. unfold os.Stat. rewrite Hf.
  cbn. unfold os.ReadFile. rewrite Hf. rewrite decide_False by done.
  destruct (Unmarshal b); [done|].
  unfold time_Now, ignore, os.WriteFile, eprint, ret, recovered. cbn.
  by destruct (decide _).
Qed.

Lemma loadTasks_unreadable w path b :
  resolves w path -> files w !! path = Some b -> path ∈ read_fault w ->
  loadTasks w = (Err (PathError "open" path false), w).
Proof.
  intros Hr Hf Hrd. unfold loadTasks, bind. rewrite Hr. unfold os.Stat. rewrite Hf.
  cbn. unfold os.ReadFile. rewrite Hf. by rewrite decide_True.
Qed.

(** Whatever [loadTasks] does, the file of the store keeps its
    content, and only a backup file and the error stream can change. *)
Lemma loadTasks_keeps_store w r w1 path :
  resolves w path -> loadTasks w = (r, w1) ->
  files w1 !! path = files w !! path
  /\ environ w1 = environ w /\ home w1 = home w /\ read_fault w1 = read_fault w
  /\ write_fault w1 = write_fault w /\ clock w1 = clock w /\ stdout w1 = stdout w.
Proof.
  intros Hr Hl. destruct (files w !! path) as [b|] eqn:Hf.
  - destruct (decide (path ∈ read_fault w)) as [Hrd|Hrd].
    + rewrite (loadTasks_unreadable w path b) in Hl by done.
      injection Hl as <- <-. by rewrite Hf.
    + rewrite (loadTasks_present w path b) in Hl by done.
      destruct (Unmarshal b).
      { injection Hl as <- <-. by rewrite Hf. }
      injection Hl as <- <-. unfold recovered. cbn. repeat split.
      destruct (decide _); [done|].
      rewrite lookup_insert_ne; [done|apply backup_name_neq].
  - rewrite (loadTasks_absent w path) in Hl by done.
    injection Hl as <- <-. by rewrite Hf.
Qed.

Lemma saveTasks_ok ts w path b :
  resolves w path -> MarshalIndent ts = Ok b ->
  path +:+ ".tmp" ∉ write_fault w -> path ∉ write_fault w ->
  saveTasks ts w = (Ok tt, saved path b w).
Proof.
  intros Hr Hm Ht Hp. unfold saveTasks, bind. rewrite Hr. unfold lift. rewrite Hm.
  unfold os.WriteFile. rewrite decide_False by done.
  unfold os.Rename. cbn. rewrite lookup_insert_eq. rewrite decide_False by done.
  unfold saved, set_files. cbn. by rewrite delete_insert_eq.
Qed.

Lemma saveTasks_inv ts w w' :
  saveTasks ts w = (Ok tt, w') ->
  exists path b,
    resolves w path /\ MarshalIndent ts = Ok b
    /\ (path +:+ ".tmp" ∉ write_fault w) /\ (path ∉ write_fault w)
    /\ w' = saved path b w.
Proof.
  intros H. unfold saveTasks, bind in H.
  destruct (tasksFilePath w) as [[path|e] w0] eqn:Hp; [|done].
  pose proof (tasksFilePath_world _ _ _ Hp) as ->.
  unfold lift in H. destruct (MarshalIndent ts) as [b|e] eqn:Hm; [|done].
  unfold os.WriteFile in H. destruct (decide (_ ∈ write_fault w)) as [|Ht]; [done|].
  unfold os.Rename in H. cbn in H. rewrite lookup_insert_eq in H.
  destruct (decide (_ ∈ write_fault w)) as [|Hw]; [done|].
  injection H as <-. exists path, b. repeat split; try done.
  unfold saved, set_files. cbn. by rewrite delete_insert_eq.
Qed.

Lemma saved_lookup path b w : files (saved path b w) !! path = Some b.
Proof. unfold saved. cbn. apply lookup_insert_eq. Qed.

(** ** The commands are the task operations *)

Lemma cmdAdd_Add a args w ts w1 :
  loadTasks w = (Ok ts, w1) ->
  cmdAdd (a :: args) w
  = (_ <-- saveTasks (snd (Add ts (strings.Join (a :: args) " ") (clock w1))) ;;
     print ("Added " +:+ strconv.FormatInt (fst (Add ts (strings.Join (a :: args) " ")
                                                  (clock w1)))
            +:+ ": " +:+ strings.Join (a :: args) " " +:+ NL)) w1.
Proof. intros Hl. unfold cmdAdd, bind at 1 2. by rewrite Hl. Qed.

Lemma cmdDo_MarkDone a rest w id ts w1 :
  strconv.ParseInt a = Ok id -> loadTasks w = (Ok ts, w1) ->
  cmdDo (a :: rest) w
  = match MarkDone ts id (clock w1) with
    | DoneNotFound => (Err (not_found id), w1)
    | DoneAlready => print ("Already completed." +:+ NL) w1
    | DoneMarked ts' =>
        (_ <-- saveTasks ts' ;;
         print ("Marked " +:+ strconv.FormatInt id +:+ " done" +:+ NL)) w1
    end.
Proof.
  intros Hp Hl. unfold cmdDo, bind at 1 2, lift. rewrite Hp, Hl. unfold MarkDone.
  destruct (Z.eqb_spec (findIndexByID ts id) (-1)) as [E|Hne]; [done|].
  destruct (Done (index ts (findIndexByID ts id))) eqn:Hd; [done|].
  unfold bind at 1, time_Now. cbv zeta.
  destruct (found_split ts id Hne) as (pre & t & post & -> & <- & Hpre & ->).
  unfold update. rewrite !index_middle, !set_index_middle, index_middle.
  by destruct t.
Qed.

Lemma cmdRemove_Remove a rest w id ts w1 :
  strconv.ParseInt a = Ok id -> loadTasks w = (Ok ts, w1) ->
  cmdRemove (a :: rest) w
  = match Remove ts id with
    | None => (Err (not_found id), w1)
    | Some ts' =>
        (_ <-- saveTasks ts' ;; print ("Removed " +:+ strconv.FormatInt id +:+ NL)) w1
    end.
Proof.
  intros Hp Hl. unfold cmdRemove, bind at 1 2, lift. rewrite Hp, Hl. unfold Remove.
  by destruct (findIndexByID ts id =? -1).
Qed.

Lemma cmdEdit_Edit a b rest w id ts w1 :
  strconv.ParseInt a = Ok id -> loadTasks w = (Ok ts, w1) ->
  cmdEdit (a :: b :: rest) w
  = match Edit ts id (strings.Join (b :: rest) " ") with
    | None => (Err (not_found id), w1)
    | Some ts' =>
        (_ <-- saveTasks ts' ;; print ("Updated " +:+ strconv.FormatInt id +:+ NL)) w1
    end.
Proof.
  intros Hp Hl. unfold cmdEdit, bind at 1 2, lift. rewrite Hp, Hl. unfold Edit.
  by destruct (findIndexByID ts id =? -1).
Qed.

(** ** C5 and C10 *)

(** C5: for every stored file whose content fails to deserialize,
    [loadTasks] writes the bytes it read to a backup file next to the
    store, named after the store and the Unix time (nothing is written
    and no error is raised when the operating system refuses the
    backup), prints the warning on the error stream and returns an
    empty collection and no error.  The store itself keeps its content. *)
Theorem C5_corrupted_store_recovered w path b e :
  resolves w path -> files w !! path = Some b -> path ∉ read_fault w ->
  Unmarshal b = Err e ->
  let backup := path +:+ ".broken." +:+ FormatInt (Time_Unix (clock w)) in
  exists w',
    loadTasks w = (Ok (Slice []), w')
    /\ (backup ∉ write_fault w -> files w' = <[backup := b]> (files w))
    /\ (backup ∈ write_fault w -> files w' = files w)
    /\ files w' !! path = Some b
    /\ stderr w' = stderr w ++ [corrupted_warning backup]
    /\ stdout w' = stdout w.
Proof.
  intros Hr Hf Hrd He backup. exists (recovered path b w).
  rewrite (loadTasks_present w path b) by done. rewrite He.
  unfold recovered. fold (backup_name path (clock w)). cbn.
  change (backup_name path (clock w)) with backup.
  repeat split.
  - intros H. by rewrite decide_False.
  - intros H. by rewrite decide_True.
  - destruct (decide _); [done|].
    rewrite lookup_insert_ne; [done|]. apply backup_name_neq.
Qed.

Lemma C5_corrupted_store_recovered_witness :
  resolves broken_store "tasks.json"
  /\ files broken_store !! "tasks.json" = Some "{oops"
  /\ ("tasks.json" ∉ read_fault broken_store)
  /\ Unmarshal "{oops" = Err (SyntaxError "invalid JSON text")
  /\ exists w',
      loadTasks broken_store = (Ok (Slice []), w')
      /\ files w' !! "tasks.json.broken.1758456000" = Some "{oops".
Proof.
  assert (resolves broken_store "tasks.json") as Hr by reflexivity.
  assert (files broken_store !! "tasks.json" = Some "{oops") as Hf by reflexivity.
  assert ("tasks.json" ∉ read_fault broken_store) as Hrd by (by vm_compute).
  assert (Unmarshal "{oops" = Err (SyntaxError "invalid JSON text")) as He
    by reflexivity.
  repeat (split; [assumption|]).
  destruct (C5_corrupted_store_recovered broken_store "tasks.json" "{oops" _ Hr Hf Hrd He)
    as (w' & Hl & Hb & _).
  exists w'. split; [exact Hl|].
  rewrite Hb; [reflexivity|by vm_compute].
Defined.

(** C10: a store file that exists but is empty is treated as
    corrupted: [loadTasks] backs it up, prints the warning and returns
    an empty collection; only when there is no file at all does it
    return the empty collection with the world unchanged, no backup and
    no warning. *)
Theorem C10_empty_file_is_corrupted w path :
  resolves w path ->
  (files w !! path = Some EmptyString -> path ∉ read_fault w ->
   loadTasks w = (Ok (Slice []), recovered path EmptyString w)
   /\ stderr (recovered path EmptyString w)
      = stderr w ++ [corrupted_warning (backup_name path (clock w))]
   /\ (backup_name path (clock w) ∉ write_fault w ->
       files (recovered path EmptyString w) !! backup_name path (clock w)
       = Some EmptyString))
  /\ (files w !! path = None -> loadTasks w = (Ok (Slice []), w)).
Proof.
  intros Hr. split.
  - intros Hf Hrd. rewrite (loadTasks_present w path EmptyString) by done.
    change (Unmarshal EmptyString) with (@Err Tasks (SyntaxError "invalid JSON text")).
    repeat split. intros Hw. unfold recovered. cbn.
    rewrite decide_False by done. apply lookup_insert_eq.
  - intros Hf. by apply (loadTasks_absent w path).
Qed.

Lemma C10_empty_file_is_corrupted_witness :
  resolves empty_store "tasks.json"
  /\ loadTasks empty_store
     = (Ok (Slice []), recovered "tasks.json" EmptyString empty_store)
  /\ stderr (recovered "tasks.json" EmptyString empty_store)
     = [corrupted_warning "tasks.json.broken.1758456000"]
  /\ loadTasks (fresh noon) = (Ok (Slice []), fresh noon).
Proof.
  assert (resolves empty_store "tasks.json") as Hr by reflexivity.
  assert (resolves (fresh noon) "tasks.json") as Hr' by reflexivity.
  split; [exact Hr|].
  destruct (C10_empty_file_is_corrupted empty_store "tasks.json" Hr) as [H1 _].
  destruct (C10_empty_file_is_corrupted (fresh noon) "tasks.json" Hr') as [_ H2].
  destruct (H1 eq_refl ltac:(by vm_compute)) as (Hl & He & _).
  split; [exact Hl|]. split; [exact He|]. exact (H2 eq_refl).
Defined.

(** ** C7 *)

(** C7: for every collection and every id not present in it, [cmdEdit]
    with that id fails with the not-found error; the world it leaves
    is the one [loadTasks] left, so [saveTasks] has not run, and the
    store file has the content it had before the command. *)
Theorem C7_edit_missing_id w a b rest id ts w1 path :
  ParseInt a = Ok id -> resolves w path -> loadTasks w = (Ok ts, w1) ->
  (forall t, t ∈ elems ts -> ID t <> id) ->
  cmdEdit (a :: b :: rest) w
  = (Err (errorString ("task " +:+ FormatInt id +:+ " not found")), w1)
  /\ files w1 !! path = files w !! path.
Proof.
  intros Hp Hr Hl Hno. split.
  - rewrite (cmdEdit_Edit a b rest w id ts w1 Hp Hl). unfold Edit.
    by rewrite (proj2 (findIndexByID_absent ts id) Hno).
  - by destruct (loadTasks_keeps_store w _ w1 path Hr Hl) as [? _].
Qed.

Lemma C7_edit_missing_id_witness :
  ParseInt "5" = Ok 5 /\ resolves twins_store "tasks.json"
  /\ loadTasks twins_store = (Ok twins, twins_store)
  /\ cmdEdit ["5"; "new title"] twins_store
     = (Err (errorString "task 5 not found"), twins_store).
Proof.
  assert (forall t, t ∈ elems twins -> ID t <> 5) as Hno.
  { intros t Ht. simpl in Ht.
    apply elem_of_cons in Ht as [->|Ht]; [vm_compute; discriminate|].
    apply list_elem_of_singleton in Ht as ->. vm_compute. discriminate. }
  split; [reflexivity|]. split; [reflexivity|]. split; [reflexivity|].
  apply (C7_edit_missing_id twins_store "5" "new title" [] 5 twins twins_store
           "tasks.json" eq_refl eq_refl eq_refl Hno).
Defined.

(** ** C3 *)




(** ** C4 *)

Lemma MarkDone_kind ts id now now' :
  match MarkDone ts id now with
  | DoneNotFound => MarkDone ts id now' = DoneNotFound
  | DoneAlready => MarkDone ts id now' = DoneAlready
  | DoneMarked _ => exists ts', MarkDone ts id now' = DoneMarked ts'
  end.
Proof.
  unfold MarkDone. destruct (_ =? -1); [done|].
  destruct (Done _); [done|]. by eexists.
Qed.

Lemma MarkDone_marked ts id now ts1 :
  MarkDone ts id now = DoneMarked ts1 ->
  exists pre t post,
    ts = Slice (pre ++ t :: post) /\ ID t = id /\ Done t = false
    /\ (forall u, u ∈ pre -> ID u <> id)
    /\ ts1 = Slice (pre ++ mkTask id (Title t) true (CreatedAt t) (Some now) :: post).
Proof.
  intros H.
  assert (findIndexByID ts id <> -1) as Hne.
  { intros E. unfold MarkDone in H. by rewrite E in H. }
  destruct (found_split ts id Hne) as (pre & t & post & -> & <- & Hpre & _).
  rewrite MarkDone_first in H by done.
  destruct (Done t) eqn:Hd; [done|]. injection H as <-.
  by exists pre, t, post.
Qed.

Lemma MarkDone_already ts id t now :
  first_with_id ts id = Some t -> Done t = true -> MarkDone ts id now = DoneAlready.
Proof.
  intros Hf Hd. apply first_with_id_found in Hf as (pre & post & -> & <- & Hpre).
  rewrite MarkDone_first by done. by rewrite Hd.
Qed.

Lemma MarkDone_twice ts id now now' ts1 :
  MarkDone ts id now = DoneMarked ts1 ->
  MarkDone ts1 id now' = DoneAlready
  /\ exists t1, first_with_id ts1 id = Some t1 /\ Done t1 = true
                /\ CompletedAt t1 = Some now.
Proof.
  intros H. apply MarkDone_marked in H as (pre & t & post & -> & <- & Hd & Hpre & ->).
  set (t' := mkTask (ID t) (Title t) true (CreatedAt t) (Some now)).
  assert (first_with_id (Slice (pre ++ t' :: post)) (ID t) = Some t') as Hf.
  { by apply (first_with_id_split pre t' post). }
  split; [by apply (MarkDone_already _ _ t')|by exists t'].
Qed.

Lemma first_with_id_only ts id t u :
  first_with_id ts id = Some t -> NoDup (ids_of ts) -> u ∈ elems ts -> ID u = id -> u = t.
Proof.
  intros Hf Hnd Hu E. apply first_with_id_found in Hf as (pre & post & -> & <- & Hpre).
  unfold ids_of in Hnd. cbn [elems] in *. rewrite fmap_app, fmap_cons in Hnd.
  apply NoDup_app in Hnd as (_ & _ & Hnd). apply NoDup_cons in Hnd as [Hpost _].
  apply elem_of_app in Hu as [Hu|Hu]; [by destruct (Hpre u Hu)|].
  apply elem_of_cons in Hu as [->|Hu]; [done|].
  destruct Hpost. rewrite <- E. by apply list_elem_of_fmap_2.
Qed.

(** C4, as stated, fails when ids repeat: a store in which a task that
    is not done stands before a done task with the same id contains a
    task with the id that is already done, and yet [MarkDone] is not a
    no-op on it: it marks the first task, and [cmdDo] saves the changed
    collection and reports "Marked 1 done". *)
Lemma C4_done_task_not_first :
  milk ∈ elems (Slice [pending; milk]) /\ ID milk = 1 /\ Done milk = true
  /\ MarkDone (Slice [pending; milk]) 1 evening = DoneMarked (Slice [milk; milk])
  /\ fst (loadTasks mixed_store) = Ok (Slice [pending; milk])
  /\ fst (cmdDo ["1"] mixed_store) = Ok tt
  /\ stdout (snd (cmdDo ["1"] mixed_store)) = ["Marked 1 done" +:+ NL]
  /\ fst (loadTasks (snd (cmdDo ["1"] mixed_store))) = Ok (Slice [milk; milk]).
Proof.
  split; [apply list_elem_of_further, list_elem_of_here|].
  repeat split; vm_compute; reflexivity.
Qed.

(** C4, amended: when the first task with the id, which is the only
    one when the ids are pairwise distinct, is already done, [cmdDo] is
    a no-op: it prints "Already completed.", returns no error and saves
    nothing, so the store and completed_at stay as they are.  Applying
    MarkDone a second time to the same id therefore yields the state
    the first application left, whatever the time of the second
    application, and the completion time set by the first stays.  When
    the first task with the id is not done, MarkDone marks that task,
    whatever done tasks with the same id come after it. *)
Theorem C4_mark_done_idempotent w a rest id ts w1 t :
  ParseInt a = Ok id -> loadTasks w = (Ok ts, w1) ->
  first_with_id ts id = Some t -> Done t = true ->
  cmdDo (a :: rest) w = print ("Already completed." +:+ NL) w1
  /\ fst (cmdDo (a :: rest) w) = Ok tt
  /\ files (snd (cmdDo (a :: rest) w)) = files w1
  /\ (forall now, after_MarkDone ts id now = ts)
  /\ (forall ts0 now now',
        after_MarkDone (after_MarkDone ts0 id now) id now' = after_MarkDone ts0 id now)
  /\ (forall ts0 now now' ts1,
        MarkDone ts0 id now = DoneMarked ts1 ->
        MarkDone ts1 id now' = DoneAlready
        /\ exists t1, first_with_id ts1 id = Some t1 /\ Done t1 = true
                      /\ CompletedAt t1 = Some now)
  /\ (NoDup (ids_of ts) -> forall u, u ∈ elems ts -> ID u = id -> u = t)
  /\ (forall pre u post now,
        (forall v, v ∈ pre -> ID v <> id) -> ID u = id -> Done u = false ->
        MarkDone (Slice (pre ++ u :: post)) id now
        = DoneMarked (Slice (pre ++ mkTask id (Title u) true (CreatedAt u) (Some now)
                               :: post))).
Proof.
  intros Hp Hl Hf Hd.
  assert (cmdDo (a :: rest) w = print ("Already completed." +:+ NL) w1) as Hc.
  { rewrite (cmdDo_MarkDone a rest w id ts w1 Hp Hl).
    by rewrite (MarkDone_already ts id t). }
  split; [exact Hc|]. rewrite Hc. split; [done|]. split; [done|].
  split; [|split; [|split; [|split]]].
  - intros now. unfold after_MarkDone. by rewrite (MarkDone_already ts id t).
  - intros ts0 now now'. unfold after_MarkDone at 2 3.
    destruct (MarkDone ts0 id now) as [| |ts1] eqn:E.
    + unfold after_MarkDone.
      pose proof (MarkDone_kind ts0 id now now') as K. rewrite E in K. by rewrite K.
    + unfold after_MarkDone.
      pose proof (MarkDone_kind ts0 id now now') as K. rewrite E in K. by rewrite K.
    + unfold after_MarkDone.
      destruct (MarkDone_twice ts0 id now now' ts1 E) as [-> _]. done.
  - intros ts0 now now' ts1 E. by apply (MarkDone_twice ts0 id now now').
  - intros Hnd u Hu E. by apply (first_with_id_only ts id).
  - intros pre u post now Hpre <- Hu. rewrite MarkDone_first by done. by rewrite Hu.
Qed.

Lemma C4_mark_done_idempotent_witness :
  ParseInt "1" = Ok 1
  /\ loadTasks done_store = (Ok (Slice [milk]), done_store)
  /\ first_with_id (Slice [milk]) 1 = Some milk /\ Done milk = true
  /\ cmdDo ["1"] done_store = print ("Already completed." +:+ NL) done_store.
Proof.
  split; [reflexivity|]. split; [reflexivity|]. split; [reflexivity|].
  split; [reflexivity|].
  apply (C4_mark_done_idempotent done_store "1" [] 1 (Slice [milk]) done_store milk
           eq_refl eq_refl eq_refl eq_refl).
Defined.

(** ** C9 *)

(** C9: [loadTasks] returns what the decoder yields and checks
    nothing, so a store in which several tasks have the same id is
    accepted as it is; and on a collection that holds the id more than
    once MarkDone, Edit and Remove act on the first task with the id:
    the tasks before it and all tasks after it, those with the same id
    included, stay as they are. *)
Theorem C9_duplicate_ids w path b ts :
  resolves w path -> files w !! path = Some b -> path ∉ read_fault w ->
  Unmarshal b = Ok ts ->
  loadTasks w = (Ok ts, w)
  /\ forall pre t post,
      ts = Slice (pre ++ t :: post) -> (forall u, u ∈ pre -> ID u <> ID t) ->
      (forall now,
         MarkDone ts (ID t) now
         = if Done t then DoneAlready
           else DoneMarked
                  (Slice (pre ++ mkTask (ID t) (Title t) true (CreatedAt t) (Some now)
                            :: post)))
      /\ (forall newTitle,
            Edit ts (ID t) newTitle
            = Some (Slice (pre ++ mkTask (ID t) newTitle (Done t) (CreatedAt t)
                                    (CompletedAt t) :: post)))
      /\ Remove ts (ID t) = Some (Slice (pre ++ post)).
Proof.
  intros Hr Hf Hrd Hu. split.
  - rewrite (loadTasks_present w path b) by done. by rewrite Hu.
  - intros pre t post -> Hpre. repeat split.
    + intros now. by apply MarkDone_first.
    + intros newTitle. by apply Edit_first.
    + by apply Remove_first.
Qed.

Lemma C9_duplicate_ids_witness :
  resolves twins_store "tasks.json"
  /\ files twins_store !! "tasks.json" = Some twins_text
  /\ ("tasks.json" ∉ read_fault twins_store)
  /\ Unmarshal twins_text = Ok twins
  /\ loadTasks twins_store = (Ok twins, twins_store)
  /\ Edit twins 1 "renamed"
     = Some (Slice [mkTask 1 "renamed" false zeroTime None;
                    mkTask 1 "second" false zeroTime None])
  /\ Remove twins 1 = Some (Slice [mkTask 1 "second" false zeroTime None]).
Proof.
  assert ("tasks.json" ∉ read_fault twins_store) as Hrd by (by vm_compute).
  split; [reflexivity|]. split; [reflexivity|]. split; [exact Hrd|].
  split; [reflexivity|].
  destruct (C9_duplicate_ids twins_store "tasks.json" twins_text twins
              eq_refl eq_refl Hrd eq_refl) as [Hl Hops].
  split; [exact Hl|].
  destruct (Hops [] (mkTask 1 "first" false zeroTime None)
              [mkTask 1 "second" false zeroTime None] eq_refl) as (_ & He & Hrm).
  { intros u Hu. by apply elem_of_nil in Hu. }
  split; [exact (He "renamed")|exact Hrm].
Defined.

(** ** Characters and digits *)

Lemma code_range c : 0 <= code c < 256.
Proof. unfold code. pose proof (N_ascii_bounded c). lia. Qed.

Lemma code_byte_of n : 0 <= n < 256 -> code (byte_of n) = n.
Proof.
  intros H. unfold code, byte_of. rewrite N_ascii_embedding by lia. lia.
Qed.

Lemma byte_of_code c : byte_of (code c) = c.
Proof. unfold code, byte_of. rewrite N2Z.id. apply ascii_N_embedding. Qed.

Lemma code_inj a b : code a = code b -> a = b.
Proof. intros H. rewrite <- (byte_of_code a), <- (byte_of_code b). by rewrite H. Qed.

Lemma ascii_eqb_code a b : Ascii.eqb a b = (code a =? code b).
Proof.
  destruct (Ascii.eqb_spec a b) as [->|Hne].
  - by rewrite Z.eqb_refl.
  - symmetry. apply Z.eqb_neq. intros E. by apply Hne, code_inj.
Qed.

Lemma digit_char_ok d :
  0 <= d <= 9 -> is_digit (digit_char d) = true /\ digit_val (digit_char d) = d.
Proof.
  intros H. unfold is_digit, digit_val, digit_char.
  rewrite code_byte_of by lia. split; [|lia].
  apply andb_true_intro. split; lia.
Qed.

Lemma is_digit_code c : is_digit c = true <-> 48 <= code c <= 57.
Proof. unfold is_digit. rewrite andb_true_iff. lia. Qed.

Lemma all_digits_app a b : all_digits (a +:+ b) = all_digits a && all_digits b.
Proof. induction a as [|c a IH]; cbn; [done|]. by rewrite IH, andb_assoc. Qed.

Lemma parse_digits_app a b acc :
  parse_digits acc (a +:+ b)
  = match parse_digits acc a with
    | Some x => parse_digits x b
    | None => None
    end.
Proof.
  revert acc. induction a as [|c a IH]; intros acc; cbn; [done|].
  destruct (is_digit c); [apply IH|done].
Qed.

Lemma pad_length n z : String.length (pad n z) = n.
Proof.
  revert z. induction n as [|n IH]; intros z; cbn; [done|].
  rewrite str_length_app, IH. cbn. lia.
Qed.

Lemma pad_all_digits n z : all_digits (pad n z) = true.
Proof.
  revert z. induction n as [|n IH]; intros z; cbn; [done|].
  rewrite all_digits_app, IH. cbn.
  destruct (digit_char_ok (z mod 10)) as [-> _]; [|done].
  pose proof (Z.mod_pos_bound z 10). lia.
Qed.

Lemma pad_value n z acc :
  parse_digits acc (pad n z) = Some (acc * 10 ^ Z.of_nat n + z mod 10 ^ Z.of_nat n).
Proof.
  revert z acc. induction n as [|n IH]; intros z acc.
  - cbn. rewrite Z.mod_1_r. f_equal. lia.
  - cbn [pad]. rewrite parse_digits_app, IH. cbn.
    pose proof (Z.mod_pos_bound z 10 ltac:(lia)) as Hm.
    destruct (digit_char_ok (z mod 10)) as [-> ->]; [lia|]. f_equal.
    rewrite Nat2Z.inj_succ, Z.pow_succ_r by lia.
    rewrite (Z.rem_mul_r z 10 (10 ^ Z.of_nat n)) by lia. lia.
Qed.

Lemma parseUint_pad n z lo hi :
  0 <= z < 10 ^ Z.of_nat n -> lo <= z <= hi -> parseUint (pad n z) lo hi = Some z.
Proof.
  intros Hz Hr. unfold parseUint. rewrite pad_value, Z.mod_small by done.
  rewrite Z.mul_0_l, Z.add_0_l. unfold between.
  destruct (Z.leb_spec lo z); [|lia]. destruct (Z.leb_spec z hi); [done|lia].
Qed.

(** The digits [fmt_digits] puts in front of [acc]. *)
Lemma fmt_digits_spec fuel : forall n acc,
  0 <= n < 2 ^ (Z.of_nat fuel + 1) ->
  exists c ds,
    fmt_digits fuel n acc = String c ds +:+ acc
    /\ all_digits (String c ds) = true
    /\ (forall a, parse_digits a (String c ds)
                  = Some (a * 10 ^ Z.of_nat (String.length (String c ds)) + n))
    /\ (n = 0 -> String c ds = "0")
    /\ (0 < n -> c <> "0"%char).
Proof.
  assert (forall n, 0 <= n < 10 ->
            all_digits (str1 (digit_char n)) = true
            /\ (forall a, parse_digits a (str1 (digit_char n)) = Some (a * 10 ^ 1 + n))
            /\ (n = 0 -> str1 (digit_char n) = "0")
            /\ (0 < n -> digit_char n <> "0"%char)) as Hone.
  { intros n Hn. destruct (digit_char_ok n) as [Hd Hv]; [lia|].
    split; [|split; [|split]].
    - cbn. by rewrite Hd.
    - intros a. cbn. rewrite Hd, Hv. f_equal; lia.
    - by intros ->.
    - intros Hpos E. rewrite E in Hv. change (digit_val "0") with 0 in Hv. lia. }
  induction fuel as [|fuel IH]; intros n acc Hn.
  - cbn [fmt_digits]. change (2 ^ (Z.of_nat 0 + 1)) with 2 in Hn.
    rewrite Z.mod_small by lia.
    exists (digit_char n), EmptyString. split; [done|]. apply Hone. lia.
  - cbn [fmt_digits]. destruct (Z.ltb_spec n 10) as [Hlt|Hge].
    + rewrite Z.mod_small by lia.
      exists (digit_char n), EmptyString. split; [done|]. apply Hone. lia.
    + assert (0 <= n / 10 < 2 ^ (Z.of_nat fuel + 1)) as Hq.
      { split; [apply Z.div_pos; lia|].
        apply Z.div_lt_upper_bound; [lia|].
        replace (Z.of_nat (S fuel) + 1) with (Z.succ (Z.of_nat fuel + 1)) in Hn by lia.
        rewrite Z.pow_succ_r in Hn by lia. lia. }
      destruct (IH (n / 10) (String (digit_char (n mod 10)) acc) Hq)
        as (c & ds & E & Hall & Hval & _ & Hnz).
      pose proof (Z.mod_pos_bound n 10 ltac:(lia)) as Hm.
      destruct (digit_char_ok (n mod 10)) as [Hd Hv]; [lia|].
      exists c, (ds +:+ str1 (digit_char (n mod 10))). repeat split.
      * rewrite E. cbn. f_equal. by rewrite str_app_assoc.
      * change (String c (ds +:+ str1 (digit_char (n mod 10))))
          with (String c ds +:+ str1 (digit_char (n mod 10))).
        rewrite all_digits_app, Hall. cbn. by rewrite Hd.
      * intros a.
        change (String c (ds +:+ str1 (digit_char (n mod 10))))
          with (String c ds +:+ str1 (digit_char (n mod 10))).
        rewrite parse_digits_app, Hval, str_length_app. cbn [parse_digits String.length str1].
        rewrite Hd, Hv. f_equal.
        replace (Z.of_nat (S (String.length ds) + 1))
          with (Z.succ (Z.of_nat (S (String.length ds)))) by lia.
        rewrite Z.pow_succ_r by lia.
        pose proof (Z.div_mod n 10 ltac:(lia)). lia.
      * intros ->. cbn in Hge. lia.
      * intros _. apply Hnz. assert (1 <= n / 10); [|lia].
        apply Z.div_le_lower_bound; lia.
Qed.

Lemma FormatUint_spec n :
  0 <= n ->
  exists c ds,
    FormatUint n = String c ds
    /\ all_digits (String c ds) = true
    /\ parse_digits 0 (String c ds) = Some n
    /\ (n = 0 -> String c ds = "0")
    /\ (0 < n -> c <> "0"%char).
Proof.
  intros Hn. unfold FormatUint.
  destruct (fmt_digits_spec (Z.to_nat (Z.log2 n)) n EmptyString)
    as (c & ds & E & Hall & Hval & Hz & Hnz).
  { split; [done|]. destruct (Z.eq_dec n 0) as [->|Hne]; [done|].
    rewrite Z2Nat.id by apply Z.log2_nonneg.
    replace (Z.log2 n + 1) with (Z.succ (Z.log2 n)) by lia.
    apply Z.log2_spec. lia. }
  exists c, ds. rewrite E, str_app_nil_r.
  split; [done|]. split; [done|]. split; [|done].
  rewrite Hval. f_equal; lia.
Qed.

Lemma ParseInt_FormatInt z : int64_ok z -> ParseInt (FormatInt z) = Ok z.
Proof.
  unfold int64_ok, int64_min, int64_max. intros Hz. unfold FormatInt.
  destruct (Z.ltb_spec z 0) as [Hneg|Hpos].
  - destruct (FormatUint_spec (- z)) as (c & ds & -> & Hall & Hval & _ & _); [lia|].
    unfold ParseInt. cbv zeta. change (Ascii.eqb "-" "-") with true.
    cbn [orb]. cbv iota beta. rewrite Hval.
    replace (- z <=? 2 ^ 63) with true by lia. f_equal; lia.
  - destruct (FormatUint_spec z) as (c & ds & -> & Hall & Hval & _ & _); [lia|].
    unfold ParseInt. cbv zeta. cbn in Hall. apply andb_true_iff in Hall as [Hc _].
    apply is_digit_code in Hc.
    rewrite !ascii_eqb_code. change (code "-") with 45. change (code "+") with 43.
    replace (code c =? 45) with false by lia.
    replace (code c =? 43) with false by lia. cbn [orb]. cbv iota beta.
    rewrite Hval. by replace (z <? 2 ^ 63) with true by lia.
Qed.

(** ** Substrings *)

Lemma take_str_app a b : take_str (String.length a) (a +:+ b) = a.
Proof. induction a as [|c a IH]; cbn; [by destruct b|by f_equal]. Qed.

Lemma drop_str_app a b : drop_str (String.length a) (a +:+ b) = b.
Proof. induction a as [|c a IH]; cbn; [done|apply IH]. Qed.

Lemma take_str_all n s : (String.length s <= n)%nat -> take_str n s = s.
Proof.
  revert n. induction s as [|c s IH]; intros n H; destruct n; cbn in *; try done; [lia|].
  f_equal. apply IH. lia.
Qed.

Lemma digits_run_app a b :
  all_digits a = true ->
  match b with String c _ => is_digit c = false | EmptyString => True end ->
  digits_run (a +:+ b) = String.length a.
Proof.
  intros Ha Hb. induction a as [|c a IH]; cbn in *.
  - destruct b as [|c b]; [done|]. cbn. by rewrite Hb.
  - apply andb_true_iff in Ha as [-> Ha]. f_equal. by apply IH.
Qed.

(** ** Timestamps survive the JSON text *)

Lemma appendInt_pad x w : 0 <= x < 10 ^ Z.of_nat w -> appendInt x w = pad w x.
Proof.
  intros H. unfold appendInt. destruct (Z.ltb_spec x 0); [lia|].
  rewrite Z.abs_eq by lia. destruct (Z.ltb_spec x (10 ^ Z.of_nat w)); [done|lia].
Qed.

Lemma parse_digits_cons acc c s :
  parse_digits acc (String c s)
  = if is_digit c then parse_digits (acc * 10 + digit_val c) s else None.
Proof. done. Qed.

Lemma trim0_value s :
  all_digits s = true ->
  forall acc,
    exists v,
      parse_digits acc (trim0 s) = Some v
      /\ parse_digits acc s
         = Some (v * 10 ^ Z.of_nat (String.length s - String.length (trim0 s)))
      /\ all_digits (trim0 s) = true
      /\ (String.length (trim0 s) <= String.length s)%nat.
Proof.
  induction s as [|c s IH]; intros Hs acc.
  - exists acc. cbn. split; [done|]. split; [f_equal; lia|]. split; [done|lia].
  - cbn in Hs. apply andb_true_iff in Hs as [Hc Hs].
    destruct (IH Hs (acc * 10 + digit_val c)) as (v & Hv & Hp & Ha & Hl).
    cbn [trim0]. destruct (trim0 s) as [|r0 r] eqn:Et.
    + cbn in Hv. injection Hv as <-.
      destruct (Ascii.eqb_spec c "0") as [->|Hne].
      * exists acc. cbn [parse_digits]. rewrite Hc, Hp.
        change (digit_val "0") with 0. cbn [String.length].
        split; [done|]. split; [|split; [done|lia]]. f_equal.
        rewrite !Nat.sub_0_r, Nat2Z.inj_succ, Z.pow_succ_r by lia. lia.
      * exists (acc * 10 + digit_val c). unfold str1. cbn [parse_digits].
        rewrite Hc, Hp. cbn [String.length all_digits]. rewrite Hc.
        split; [done|]. split; [|split; [done|lia]].
        f_equal; by rewrite ?Nat.sub_0_r.
    + exists v.
      rewrite (parse_digits_cons acc c (String r0 r)), (parse_digits_cons acc c s).
      rewrite Hc, Hv, Hp.
      change (all_digits (String c (String r0 r)))
        with (is_digit c && all_digits (String r0 r)).
      rewrite Hc, Ha. cbn [String.length] in *.
      split; [done|]. split; [done|]. split; [done|lia].
Qed.

(** The fraction that [appendNano] writes is read back. *)
Lemma appendNano_parse ns :
  0 < ns <= 999999999 ->
  exists d ds,
    appendNano ns = String "." (String d ds)
    /\ all_digits (String d ds) = true
    /\ parseNanoseconds (String d ds) = Some ns.
Proof.
  intros Hns. unfold appendNano. destruct (Z.eqb_spec ns 0); [lia|].
  rewrite appendInt_pad by (change (10 ^ Z.of_nat 9) with 1000000000; lia).
  pose proof (pad_all_digits 9 ns) as Hall.
  pose proof (pad_value 9 ns 0) as Hpv.
  pose proof (pad_length 9 ns) as Hlen.
  rewrite Z.mod_small in Hpv by (change (10 ^ Z.of_nat 9) with 1000000000; lia).
  rewrite Z.mul_0_l, Z.add_0_l in Hpv.
  revert Hall Hpv Hlen. generalize (pad 9 ns). intros p Hall Hpv Hlen.
  destruct (trim0_value p Hall 0) as (v & Hv & Hp & Ha & Hl).
  rewrite Hpv in Hp. injection Hp as Hp.
  destruct (trim0 p) as [|d ds].
  - cbn in Hv. injection Hv as <-. lia.
  - exists d, ds. split; [done|]. split; [done|].
    unfold parseNanoseconds. rewrite take_str_all by lia. rewrite Hv.
    f_equal. rewrite Hp. f_equal. f_equal. unfold len. lia.
Qed.

Lemma length2 (s : string) :
  String.length s = 2%nat -> exists a b, s = String a (str1 b).
Proof. destruct s as [|a [|b [|]]]; try done. by exists a, b. Qed.

Lemma parseZone_zone_text off :
  off = 0 \/ Z.abs (Z.quot off 60) / 60 < 24 ->
  parseZone (zone_text off) = Some (60 * Z.quot off 60)
  /\ match zone_text off with
     | String c _ => is_digit c = false /\ c <> "."%char
     | EmptyString => False
     end.
Proof.
  intros Hoff. unfold zone_text. destruct (Z.eqb_spec off 0) as [->|Hne]; [done|].
  destruct Hoff as [?|Hh]; [done|].
  set (zone := Z.quot off 60) in *.
  assert (0 <= Z.abs zone / 60 < 24) as Hhh.
  { split; [apply Z.div_pos; lia|done]. }
  pose proof (Z.mod_pos_bound (Z.abs zone) 60 ltac:(lia)) as Hmm.
  pose proof (Z.div_mod (Z.abs zone) 60 ltac:(lia)) as Hdm.
  rewrite !appendInt_pad by (change (10 ^ Z.of_nat 2) with 100; lia).
  pose proof (parseUint_pad 2 (Z.abs zone / 60) 0 23
                ltac:(change (10 ^ Z.of_nat 2) with 100; lia) ltac:(lia)) as Ph.
  pose proof (parseUint_pad 2 (Z.abs zone mod 60) 0 59
                ltac:(change (10 ^ Z.of_nat 2) with 100; lia) ltac:(lia)) as Pm.
  destruct (length2 _ (pad_length 2 (Z.abs zone / 60))) as (h1 & h0 & Eh).
  destruct (length2 _ (pad_length 2 (Z.abs zone mod 60))) as (m1 & m0 & Em).
  rewrite Eh, Em in *.
  destruct (Z.ltb_spec zone 0) as [Hneg|Hpos].
  - split; [|done]. unfold parseZone. cbn. unfold str1 in *. rewrite Ph, Pm. f_equal. lia.
  - split; [|done]. unfold parseZone. cbn. unfold str1 in *. rewrite Ph, Pm. f_equal. lia.
Qed.

Lemma length4 (s : string) :
  String.length s = 4%nat -> exists a b c d, s = String a (String b (String c (str1 d))).
Proof. destruct s as [|a [|b [|c [|d [|]]]]]; try done. by exists a, b, c, d. Qed.

(** The layout of an RFC 3339 text: six fields of digits at fixed
    places, then the fraction and the zone. *)
Lemma parseRFC3339_shape Y Mo D H Mi S rest :
  String.length Y = 4%nat -> String.length Mo = 2%nat -> String.length D = 2%nat ->
  String.length H = 2%nat -> String.length Mi = 2%nat -> String.length S = 2%nat ->
  parseRFC3339 (Y +:+ "-" +:+ Mo +:+ "-" +:+ D +:+ "T" +:+ H +:+ ":" +:+ Mi +:+ ":"
                +:+ S +:+ rest)
  = match parseUint Y 0 9999, parseUint Mo 1 12 with
    | Some y, Some mo =>
        match parseUint D 1 (daysIn mo y), parseUint H 0 23,
              parseUint Mi 0 59, parseUint S 0 59 with
        | Some d, Some h, Some mi, Some se =>
            let n :=
              if Ascii.eqb (char_at 0 rest) "." && is_digit (char_at 1 rest)
              then Datatypes.S (digits_run (drop_str 1 rest)) else O in
            let frac :=
              match n with
              | O => Some 0
              | Datatypes.S k => parseNanoseconds (slice_str 1 n rest)
              end in
            match frac, parseZone (drop_str n rest) with
            | Some ns, Some off => Some (mkTime y mo d h mi se ns off)
            | _, _ => None
            end
        | _, _, _, _ => None
        end
    | _, _ => None
    end.
Proof.
  intros HY HMo HD HH HMi HS.
  destruct (length4 _ HY) as (y3 & y2 & y1 & y0 & ->).
  destruct (length2 _ HMo) as (o1 & o0 & ->). destruct (length2 _ HD) as (d1 & d0 & ->).
  destruct (length2 _ HH) as (h1 & h0 & ->). destruct (length2 _ HMi) as (i1 & i0 & ->).
  destruct (length2 _ HS) as (s1 & s0 & ->).
  reflexivity.
Qed.

Lemma Time_ok_fields t :
  Time_ok t = true ->
  1 <= month t <= 12 /\ 1 <= day t <= daysIn (month t) (year t)
  /\ 0 <= hour t <= 23 /\ 0 <= minute t <= 59 /\ 0 <= second t <= 59
  /\ 0 <= nanosecond t <= 999999999.
Proof.
  unfold Time_ok, between. rewrite !andb_true_iff, !Z.leb_le. tauto.
Qed.

Lemma daysIn_le m y : daysIn m y <= 31.
Proof.
  unfold daysIn. destruct (m =? 2); [by destruct (isLeap y)|].
  by destruct (_ || _).
Qed.

(** Reading the text [formatRFC3339] writes gives the time back, with
    the offset in whole minutes. *)
Lemma parse_format t :
  Time_ok t = true -> 0 <= year t <= 9999 ->
  offset t = 0 \/ Z.abs (Z.quot (offset t) 60) / 60 < 24 ->
  parseRFC3339 (formatRFC3339 t) = Some (canon_time t).
Proof.
  intros Hok Hy Hoff.
  destruct (Time_ok_fields t Hok) as (Hmo & Hd & Hh & Hmi & Hs & Hns).
  pose proof (daysIn_le (month t) (year t)) as Hdi.
  unfold formatRFC3339. fold (zone_text (offset t)).
  rewrite (appendInt_pad (year t) 4) by (change (10 ^ Z.of_nat 4) with 10000; lia).
  rewrite !(appendInt_pad _ 2) by (change (10 ^ Z.of_nat 2) with 100; lia).
  rewrite parseRFC3339_shape by apply pad_length.
  rewrite (parseUint_pad 4 (year t)) by (change (10 ^ Z.of_nat 4) with 10000; lia).
  rewrite !(parseUint_pad 2) by (change (10 ^ Z.of_nat 2) with 100; lia).
  destruct (parseZone_zone_text (offset t) Hoff) as [Hz Hc].
  destruct (Z.eq_dec (nanosecond t) 0) as [E0|Hne].
  - rewrite E0. change (appendNano 0) with EmptyString.
    change (EmptyString +:+ zone_text (offset t)) with (zone_text (offset t)).
    destruct (zone_text (offset t)) as [|c z] eqn:Ez; [done|]. destruct Hc as [_ Hc].
    change (char_at 0 (String c z)) with c.
    destruct (Ascii.eqb_spec c "."); [done|]. cbn [andb].
    cbv zeta. change (drop_str 0 (String c z)) with (String c z). rewrite Hz.
    unfold canon_time. by rewrite E0.
  - destruct (appendNano_parse (nanosecond t)) as (d & ds & -> & Hall & Hp); [lia|].
    change (String "." (String d ds) +:+ zone_text (offset t))
      with (String "." (String d ds +:+ zone_text (offset t))).
    change (char_at 0 (String "." (String d ds +:+ zone_text (offset t)))) with "."%char.
    change (char_at 1 (String "." (String d ds +:+ zone_text (offset t)))) with d.
    change (Ascii.eqb "." ".") with true.
    pose proof Hall as Hall'. cbn in Hall'. apply andb_true_iff in Hall' as [-> _].
    cbn [andb]. cbv zeta.
    change (drop_str 1 (String "." (String d ds +:+ zone_text (offset t))))
      with (String d ds +:+ zone_text (offset t)).
    rewrite digits_run_app; [|done|].
    2:{ destruct (zone_text (offset t)); [done|]. by destruct Hc. }
    change (slice_str 1 (S (String.length (String d ds)))
              (String "." (String d ds +:+ zone_text (offset t))))
      with (take_str (String.length (String d ds))
              (String d ds +:+ zone_text (offset t))).
    rewrite take_str_app, Hp.
    change (drop_str (S (String.length (String d ds)))
              (String "." (String d ds +:+ zone_text (offset t))))
      with (drop_str (String.length (String d ds))
              (String d ds +:+ zone_text (offset t))).
    by rewrite drop_str_app, Hz.
Qed.

(** [MarshalJSON] succeeds on the times whose year and zone fit. *)
Lemma Time_MarshalJSON_ok t txt :
  Time_MarshalJSON t = Ok txt ->
  txt = String dquote (formatRFC3339 t +:+ str1 dquote)
  /\ 0 <= year t <= 9999
  /\ (offset t = 0 \/ Z.abs (Z.quot (offset t) 60) / 60 < 24).
Proof.
  unfold Time_MarshalJSON, between.
  destruct (Z.leb_spec 0 (year t)); [|done].
  destruct (Z.leb_spec (year t) 9999); [|done]. cbn [andb negb].
  destruct (Z.eqb_spec (offset t) 0) as [E|E]; cbn [negb andb].
  - intros [= <-]. split; [done|]. split; [lia|by left].
  - destruct (Z.leb_spec 24 (Z.abs (Z.quot (offset t) 60) / 60)); [done|].
    intros [= <-]. split; [done|]. split; [lia|by right].
Qed.

(** ** Titles survive the JSON text *)

(** The ways a string starts: an ASCII byte, a well-formed sequence of
    two, three or four bytes (whatever follows it), or a byte that
    starts no well-formed sequence. *)
Lemma utf8_len_cases b0 s1 :
  code b0 < 128
  \/ (128 <= code b0 /\ utf8_len (String b0 s1) = O)
  \/ (128 <= code b0 /\ exists b1 s2,
        s1 = String b1 s2 /\ forall y, utf8_len (String b0 (String b1 y)) = 2%nat)
  \/ (128 <= code b0 /\ exists b1 b2 s3,
        s1 = String b1 (String b2 s3)
        /\ forall y, utf8_len (String b0 (String b1 (String b2 y))) = 3%nat)
  \/ (128 <= code b0 /\ exists b1 b2 b3 s4,
        s1 = String b1 (String b2 (String b3 s4))
        /\ forall y,
             utf8_len (String b0 (String b1 (String b2 (String b3 y)))) = 4%nat).
Proof.
  destruct (Z.ltb_spec (code b0) 128) as [Hlt|Hge]; [by left|right].
  unfold utf8_len. destruct (Z.ltb_spec (code b0) 128) as [?|_]; [lia|].
  destruct s1 as [|b1 s2]; [by left|].
  destruct (between 194 (code b0) 223) eqn:E2.
  { destruct (is_cont b1) eqn:Ec; [|by left].
    right. left. split; [done|]. exists b1, s2. split; [done|]. intros y.
    destruct (Z.ltb_spec (code b0) 128); [lia|]. by rewrite ?E2, ?Ec. }
  destruct s2 as [|b2 s3]; [by left|].
  destruct (between 224 (code b0) 239) eqn:E3.
  { destruct (_ && is_cont b2) eqn:Ec; [|by left].
    right. right. left. split; [done|]. exists b1, b2, s3. split; [done|]. intros y.
    destruct (Z.ltb_spec (code b0) 128); [lia|]. by rewrite ?E2, ?E3, ?Ec. }
  destruct s3 as [|b3 s4]; [by left|].
  destruct (between 240 (code b0) 244) eqn:E4; [|by left].
  destruct (_ && is_cont b3) eqn:Ec; [|by left].
  right. right. right. split; [done|]. exists b1, b2, b3, s4. split; [done|]. intros y.
  destruct (Z.ltb_spec (code b0) 128); [lia|]. by rewrite ?E2, ?E3, ?E4, ?Ec.
Qed.

Lemma utf8_ind (P : string -> Prop) :
  P EmptyString ->
  (forall b0 s1, code b0 < 128 -> P s1 -> P (String b0 s1)) ->
  (forall b0 s1, 128 <= code b0 -> utf8_len (String b0 s1) = O -> P s1 ->
                 P (String b0 s1)) ->
  (forall b0 b1 s2, 128 <= code b0 ->
     (forall y, utf8_len (String b0 (String b1 y)) = 2%nat) -> P s2 ->
     P (String b0 (String b1 s2))) ->
  (forall b0 b1 b2 s3, 128 <= code b0 ->
     (forall y, utf8_len (String b0 (String b1 (String b2 y))) = 3%nat) -> P s3 ->
     P (String b0 (String b1 (String b2 s3)))) ->
  (forall b0 b1 b2 b3 s4, 128 <= code b0 ->
     (forall y, utf8_len (String b0 (String b1 (String b2 (String b3 y)))) = 4%nat) ->
     P s4 -> P (String b0 (String b1 (String b2 (String b3 s4))))) ->
  forall s, P s.
Proof.
  intros H0 H1 Hbad H2 H3 H4 s.
  assert (forall n s, (String.length s <= n)%nat -> P s) as Hn; [|by apply (Hn (String.length s))].
  clear s. induction n as [|n IH]; intros s Hs.
  - destruct s; [done|cbn in Hs; lia].
  - destruct s as [|b0 s1]; [done|]. cbn in Hs.
    destruct (utf8_len_cases b0 s1)
      as [Hlt|[[Hge E]|[[Hge (b1 & s2 & -> & E)]|[[Hge (b1 & b2 & s3 & -> & E)]
                                                  |[Hge (b1 & b2 & b3 & s4 & -> & E)]]]]].
    + apply H1; [done|]. apply IH. lia.
    + apply Hbad; [done|done|]. apply IH. lia.
    + apply H2; [done|done|]. apply IH. cbn in Hs. lia.
    + apply H3; [done|done|]. apply IH. cbn in Hs. lia.
    + apply H4; [done|done|]. apply IH. cbn in Hs. lia.
Qed.

(** One ASCII byte: the scanner passes over what [escape_ascii] wrote
    and [unquote] reads the byte back. *)
Lemma escape_ascii_back c r :
  code c < 128 ->
  scan_string (escape_ascii c +:+ r) = prepend (escape_ascii c) (scan_string r)
  /\ unquote (escape_ascii c +:+ r) = String c (unquote r).
Proof.
  destruct c as [b0 b1 b2 b3 b4 b5 b6 b7]. destruct b7.
  { intros H. exfalso. revert H.
    destruct b0, b1, b2, b3, b4, b5, b6; vm_compute; discriminate. }
  intros _.
  destruct b0, b1, b2, b3, b4, b5, b6; split; reflexivity.
Qed.

Lemma prepend_Some p raw rest : prepend p (Some (raw, rest)) = Some (p +:+ raw, rest).
Proof. done. Qed.

Lemma not_ascii_eqb c d : 128 <= code c -> code d < 128 -> Ascii.eqb c d = false.
Proof. intros Hc Hd. rewrite ascii_eqb_code. apply Z.eqb_neq. lia. Qed.

(** A byte outside ASCII is an ordinary character for the scanner. *)
Lemma scan_string_high c r :
  128 <= code c -> scan_string (String c r) = prepend (str1 c) (scan_string r).
Proof.
  intros Hc. cbn [scan_string].
  rewrite (not_ascii_eqb c dquote), (not_ascii_eqb c "\") by (done || by vm_compute).
  by destruct (Z.ltb_spec (code c) 32); [lia|].
Qed.

Lemma code_eq c n : 0 <= n < 256 -> code c = n -> c = byte_of n.
Proof. intros Hn E. apply code_inj. by rewrite code_byte_of. Qed.

Lemma between_true lo x hi : between lo x hi = true <-> lo <= x <= hi.
Proof. unfold between. rewrite andb_true_iff, !Z.leb_le. done. Qed.

(** The bytes after the first of a well-formed sequence are outside
    ASCII. *)
Lemma utf8_len_2_high b0 b1 y :
  utf8_len (String b0 (String b1 y)) = 2%nat -> 128 <= code b1.
Proof.
  unfold utf8_len. destruct (code b0 <? 128); [done|].
  destruct (between 194 _ 223).
  - destruct (is_cont b1) eqn:Ec; [|done]. intros _.
    apply between_true in Ec. lia.
  - destruct y as [|b2 y]; [done|]. destruct (between 224 _ 239).
    + by destruct (_ && _).
    + destruct y as [|b3 y]; [done|]. destruct (between 240 _ 244); [|done].
      by destruct (_ && _).
Qed.

Lemma utf8_len_3_high b0 b1 b2 y :
  utf8_len (String b0 (String b1 (String b2 y))) = 3%nat ->
  128 <= code b1 /\ 128 <= code b2.
Proof.
  unfold utf8_len. destruct (code b0 <? 128); [done|].
  destruct (between 194 _ 223); [by destruct (is_cont b1)|].
  destruct (between 224 _ 239).
  - destruct (_ && is_cont b2) eqn:Ec; [|done]. intros _.
    apply andb_true_iff in Ec as [H1 H2]. apply between_true in H1, H2.
    destruct (code b0 =? 224); lia.
  - destruct y as [|b3 y]; [done|]. destruct (between 240 _ 244); [|done].
    by destruct (_ && _).
Qed.

Lemma utf8_len_4_high b0 b1 b2 b3 y :
  utf8_len (String b0 (String b1 (String b2 (String b3 y)))) = 4%nat ->
  128 <= code b1 /\ 128 <= code b2 /\ 128 <= code b3.
Proof.
  unfold utf8_len. destruct (code b0 <? 128); [done|].
  destruct (between 194 _ 223); [by destruct (is_cont b1)|].
  destruct (between 224 _ 239); [by destruct (_ && _)|].
  destruct (between 240 _ 244); [|done].
  destruct (_ && is_cont b3) eqn:Ec; [|done]. intros _.
  apply andb_true_iff in Ec as [Ec H3]. apply andb_true_iff in Ec as [H1 H2].
  apply between_true in H1, H2, H3. destruct (code b0 =? 240); lia.
Qed.

(** The scanner finds the end of the literal written for [s]. *)
Lemma scan_quote_body s r :
  scan_string (quote_body s +:+ String dquote r) = Some (quote_body s, r).
Proof.
  induction s as [|b0 s1 Hlt IH|b0 s1 Hge E IH|b0 b1 s2 Hge E IH|b0 b1 b2 s3 Hge E IH
                  |b0 b1 b2 b3 s4 Hge E IH] using utf8_ind.
  - done.
  - cbn [quote_body]. destruct (Z.ltb_spec (code b0) 128); [|lia].
    rewrite str_app_assoc. destruct (escape_ascii_back b0 (quote_body s1 +:+ String dquote r))
      as [-> _]; [done|].
    by rewrite IH, prepend_Some.
  - cbn [quote_body]. destruct (Z.ltb_spec (code b0) 128); [lia|]. rewrite E.
    rewrite str_app_assoc.
    change (scan_string (escape_FFFD +:+ quote_body s1 +:+ String dquote r))
      with (prepend escape_FFFD (scan_string (quote_body s1 +:+ String dquote r))).
    by rewrite IH, prepend_Some.
  - cbn [quote_body]. destruct (Z.ltb_spec (code b0) 128); [lia|]. rewrite E.
    pose proof (utf8_len_2_high _ _ _ (E EmptyString)) as H1.
    cbn [String.append]. rewrite (scan_string_high b0), (scan_string_high b1) by done.
    by rewrite IH, !prepend_Some.
  - cbn [quote_body]. destruct (Z.ltb_spec (code b0) 128); [lia|]. rewrite E.
    destruct (utf8_len_3_high _ _ _ _ (E EmptyString)) as [H1 H2].
    destruct (_ && _) eqn:Esep.
    + apply andb_true_iff in Esep as [Esep E2]. apply andb_true_iff in Esep as [E0 E1].
      apply Z.eqb_eq in E0, E1. apply orb_true_iff in E2.
      destruct E2 as [E2|E2]; apply Z.eqb_eq in E2; rewrite E2.
      * change (scan_string (("\u202" +:+ String (hex_char (168 mod 16)) (quote_body s3))
                             +:+ String dquote r))
          with (prepend ("\u202" +:+ str1 (hex_char (168 mod 16)))
                  (scan_string (quote_body s3 +:+ String dquote r))).
        by rewrite IH, prepend_Some.
      * change (scan_string (("\u202" +:+ String (hex_char (169 mod 16)) (quote_body s3))
                             +:+ String dquote r))
          with (prepend ("\u202" +:+ str1 (hex_char (169 mod 16)))
                  (scan_string (quote_body s3 +:+ String dquote r))).
        by rewrite IH, prepend_Some.
    + cbn [String.append].
      rewrite (scan_string_high b0), (scan_string_high b1), (scan_string_high b2) by done.
      by rewrite IH, !prepend_Some.
  - cbn [quote_body]. destruct (Z.ltb_spec (code b0) 128); [lia|]. rewrite E.
    destruct (utf8_len_4_high _ _ _ _ _ (E EmptyString)) as (H1 & H2 & H3).
    cbn [String.append].
    rewrite (scan_string_high b0), (scan_string_high b1), (scan_string_high b2),
      (scan_string_high b3) by done.
    by rewrite IH, !prepend_Some.
Qed.

Lemma unquote_high2 b0 b1 r :
  128 <= code b0 -> (forall y, utf8_len (String b0 (String b1 y)) = 2%nat) ->
  unquote (String b0 (String b1 r)) = String b0 (String b1 (unquote r)).
Proof.
  intros Hge E. cbn [unquote]. rewrite (not_ascii_eqb b0 "\") by (done || by vm_compute).
  destruct (Z.ltb_spec (code b0) 128); [lia|]. by rewrite E.
Qed.

Lemma unquote_high3 b0 b1 b2 r :
  128 <= code b0 -> (forall y, utf8_len (String b0 (String b1 (String b2 y))) = 3%nat) ->
  unquote (String b0 (String b1 (String b2 r)))
  = String b0 (String b1 (String b2 (unquote r))).
Proof.
  intros Hge E. cbn [unquote]. rewrite (not_ascii_eqb b0 "\") by (done || by vm_compute).
  destruct (Z.ltb_spec (code b0) 128); [lia|]. by rewrite E.
Qed.

Lemma unquote_high4 b0 b1 b2 b3 r :
  128 <= code b0 ->
  (forall y, utf8_len (String b0 (String b1 (String b2 (String b3 y)))) = 4%nat) ->
  unquote (String b0 (String b1 (String b2 (String b3 r))))
  = String b0 (String b1 (String b2 (String b3 (unquote r)))).
Proof.
  intros Hge E. cbn [unquote]. rewrite (not_ascii_eqb b0 "\") by (done || by vm_compute).
  destruct (Z.ltb_spec (code b0) 128); [lia|]. by rewrite E.
Qed.

(** [unquote] reads the literal written for [s] back as [coerce s]. *)
Lemma unquote_quote_body s : unquote (quote_body s) = coerce s.
Proof.
  induction s as [|b0 s1 Hlt IH|b0 s1 Hge E IH|b0 b1 s2 Hge E IH|b0 b1 b2 s3 Hge E IH
                  |b0 b1 b2 b3 s4 Hge E IH] using utf8_ind.
  - done.
  - cbn [quote_body coerce]. destruct (Z.ltb_spec (code b0) 128); [|lia].
    destruct (escape_ascii_back b0 (quote_body s1)) as [_ ->]; [done|]. by rewrite IH.
  - cbn [quote_body coerce]. destruct (Z.ltb_spec (code b0) 128); [lia|]. rewrite E.
    change (unquote (escape_FFFD +:+ quote_body s1))
      with (EncodeRune RuneError +:+ unquote (quote_body s1)).
    by rewrite IH.
  - cbn [quote_body coerce]. destruct (Z.ltb_spec (code b0) 128); [lia|]. rewrite E.
    by rewrite unquote_high2, IH.
  - cbn [quote_body coerce]. destruct (Z.ltb_spec (code b0) 128); [lia|]. rewrite E.
    destruct (_ && _) eqn:Esep.
    + apply andb_true_iff in Esep as [Esep E2]. apply andb_true_iff in Esep as [E0 E1].
      apply Z.eqb_eq in E0, E1. apply orb_true_iff in E2.
      apply (code_eq b0 226) in E0; [|lia]. apply (code_eq b1 128) in E1; [|lia].
      destruct E2 as [E2|E2]; apply Z.eqb_eq in E2.
      * pose proof (code_eq b2 168 ltac:(lia) E2) as E2'. rewrite E2, E0, E1, E2'.
        change (unquote ("\u202" +:+ String (hex_char (168 mod 16)) (quote_body s3)))
          with (String (byte_of 226) (String (byte_of 128) (String (byte_of 168)
                  (unquote (quote_body s3))))).
        by rewrite IH.
      * pose proof (code_eq b2 169 ltac:(lia) E2) as E2'. rewrite E2, E0, E1, E2'.
        change (unquote ("\u202" +:+ String (hex_char (169 mod 16)) (quote_body s3)))
          with (String (byte_of 226) (String (byte_of 128) (String (byte_of 169)
                  (unquote (quote_body s3))))).
        by rewrite IH.
    + by rewrite unquote_high3, IH.
  - cbn [quote_body coerce]. destruct (Z.ltb_spec (code b0) 128); [lia|]. rewrite E.
    by rewrite unquote_high4, IH.
Qed.

(** Valid UTF-8 is read back unchanged. *)
Lemma coerce_valid s : ValidString s = true -> coerce s = s.
Proof.
  induction s as [|b0 s1 Hlt IH|b0 s1 Hge E IH|b0 b1 s2 Hge E IH|b0 b1 b2 s3 Hge E IH
                  |b0 b1 b2 b3 s4 Hge E IH] using utf8_ind.
  - done.
  - cbn [ValidString coerce]. destruct (Z.ltb_spec (code b0) 128); [|lia].
    intros Hv. by rewrite IH.
  - cbn [ValidString coerce]. destruct (Z.ltb_spec (code b0) 128); [lia|].
    by rewrite E.
  - cbn [ValidString coerce]. destruct (Z.ltb_spec (code b0) 128); [lia|].
    rewrite E. intros Hv. by rewrite IH.
  - cbn [ValidString coerce]. destruct (Z.ltb_spec (code b0) 128); [lia|].
    rewrite E. intros Hv. by rewrite IH.
  - cbn [ValidString coerce]. destruct (Z.ltb_spec (code b0) 128); [lia|].
    rewrite E. intros Hv. by rewrite IH.
Qed.

(** ** The parser on the text [MarshalIndent] writes *)

Lemma plain_str_app a b : plain_str (a +:+ b) = plain_str a && plain_str b.
Proof. induction a as [|c a IH]; cbn; [done|]. by rewrite IH, andb_assoc. Qed.

Lemma digit_plain c : is_digit c = true -> plain c = true.
Proof.
  intros H. apply is_digit_code in H. unfold plain. rewrite !ascii_eqb_code.
  change (code dquote) with 34. change (code "\") with 92.
  destruct (Z.eqb_spec (code c) 34); [lia|]. destruct (Z.eqb_spec (code c) 92); [lia|].
  by destruct (Z.ltb_spec (code c) 32); [lia|].
Qed.

Lemma digits_plain s : all_digits s = true -> plain_str s = true.
Proof.
  induction s as [|c s IH]; cbn; [done|]. intros H.
  apply andb_true_iff in H as [Hc Hs]. by rewrite digit_plain, IH.
Qed.

Lemma scan_plain x r :
  plain_str x = true -> scan_string (x +:+ String dquote r) = Some (x, r).
Proof.
  induction x as [|c x IH]; intros H.
  - cbn. by change (Ascii.eqb dquote dquote) with true.
  - cbn in H. apply andb_true_iff in H as [Hc Hx]. unfold plain in Hc.
    apply andb_true_iff in Hc as [Hc H32]. apply andb_true_iff in Hc as [Hq Hb].
    cbn [String.append scan_string].
    destruct (Ascii.eqb c dquote); [done|]. destruct (Ascii.eqb c "\"); [done|].
    destruct (code c <? 32); [done|]. by rewrite IH.
Qed.

Lemma formatRFC3339_plain t :
  Time_ok t = true -> 0 <= year t <= 9999 ->
  offset t = 0 \/ Z.abs (Z.quot (offset t) 60) / 60 < 24 ->
  plain_str (formatRFC3339 t) = true.
Proof.
  intros Hok Hy Hoff.
  destruct (Time_ok_fields t Hok) as (Hmo & Hd & Hh & Hmi & Hs & Hns).
  pose proof (daysIn_le (month t) (year t)) as Hdi.
  unfold formatRFC3339.
  rewrite (appendInt_pad (year t) 4) by (change (10 ^ Z.of_nat 4) with 10000; lia).
  rewrite !(appendInt_pad _ 2) by (change (10 ^ Z.of_nat 2) with 100; lia).
  rewrite !plain_str_app, !(digits_plain (pad _ _)) by apply pad_all_digits.
  cbn [andb]. change (plain_str "-") with true. change (plain_str "T") with true.
  change (plain_str ":") with true. cbn [andb].
  apply andb_true_iff. split.
  - unfold appendNano. destruct (nanosecond t =? 0); [done|].
    rewrite appendInt_pad by (change (10 ^ Z.of_nat 9) with 1000000000; lia).
    destruct (trim0_value (pad 9 (nanosecond t)) (pad_all_digits _ _) 0)
      as (_ & _ & _ & Ha & _).
    cbn. by rewrite digits_plain.
  - destruct (Z.eqb_spec (offset t) 0); [done|]. destruct Hoff as [?|Hlt]; [done|].
    cbv zeta.
    assert (0 <= Z.abs (Z.quot (offset t) 60) / 60) by (apply Z.div_pos; lia).
    pose proof (Z.mod_pos_bound (Z.abs (Z.quot (offset t) 60)) 60 ltac:(lia)).
    rewrite !appendInt_pad by (change (10 ^ Z.of_nat 2) with 100; lia).
    rewrite !plain_str_app, !(digits_plain (pad _ _)) by apply pad_all_digits.
    by destruct (_ <? 0).
Qed.

Lemma parse_value_step f d s :
  parse_value (S f) d s
  = match skip_ws s with
    | EmptyString => None
    | String c s1 =>
        if Ascii.eqb c dquote then
          match scan_string s1 with
          | Some (raw, r) => Some (JStr raw, r)
          | None => None
          end
        else if Ascii.eqb c "[" then
          if maxNestingDepth <? d + 1 then None
          else
            match strip_prefix "]" (skip_ws s1) with
            | Some r => Some (JArr [], r)
            | None =>
                match parse_elems f (d + 1) s1 with
                | Some (vs, r) => Some (JArr vs, r)
                | None => None
                end
            end
        else if Ascii.eqb c "{" then
          if maxNestingDepth <? d + 1 then None
          else
            match strip_prefix "}" (skip_ws s1) with
            | Some r => Some (JObj [], r)
            | None =>
                match parse_members f (d + 1) s1 with
                | Some (ms, r) => Some (JObj ms, r)
                | None => None
                end
            end
        else if Ascii.eqb c "t" then
          match strip_prefix "rue" s1 with
          | Some r => Some (JBool true, r)
          | None => None
          end
        else if Ascii.eqb c "f" then
          match strip_prefix "alse" s1 with
          | Some r => Some (JBool false, r)
          | None => None
          end
        else if Ascii.eqb c "n" then
          match strip_prefix "ull" s1 with
          | Some r => Some (JNull, r)
          | None => None
          end
        else
          match scan_number (String c s1) with
          | Some (lit, r) => Some (JNum lit, r)
          | None => None
          end
    end.
Proof. done. Qed.

(** A string literal after the colon and the space. *)
Lemma parse_value_literal f d body r :
  scan_string (body +:+ String dquote r) = Some (body, r) ->
  parse_value (S f) d (String " " (String dquote (body +:+ str1 dquote) +:+ r))
  = Some (JStr body, r).
Proof.
  intros H. rewrite parse_value_step.
  change (skip_ws (String " " (String dquote (body +:+ str1 dquote) +:+ r)))
    with (String dquote ((body +:+ str1 dquote) +:+ r)).
  change (Ascii.eqb dquote dquote) with true. cbv iota.
  rewrite str_app_assoc. change (str1 dquote +:+ r) with (String dquote r).
  by rewrite H.
Qed.

Lemma parse_value_bool f d (b : bool) r :
  parse_value (S f) d (String " " ((if b then "true" else "false") +:+ r))
  = Some (JBool b, r).
Proof. by destruct b. Qed.

Lemma scan_int_part_digits c ds r :
  all_digits (String c ds) = true -> (c = "0"%char -> ds = EmptyString) ->
  scan_int_part (String c ds +:+ String "," r) = Some (String c ds, String "," r).
Proof.
  intros Hall H0. cbn in Hall. apply andb_true_iff in Hall as [Hc Hds].
  cbn [String.append scan_int_part].
  destruct (Ascii.eqb_spec c "0") as [->|Hne].
  - by rewrite (H0 eq_refl).
  - rewrite Hc. rewrite digits_run_app by done. by rewrite take_str_app, drop_str_app.
Qed.

Lemma scan_number_FormatInt z r :
  scan_number (FormatInt z +:+ String "," r) = Some (FormatInt z, String "," r).
Proof.
  assert (forall n, 0 <= n ->
            exists c ds, FormatUint n = String c ds
              /\ is_digit c = true
              /\ scan_int_part (FormatUint n +:+ String "," r)
                 = Some (FormatUint n, String "," r)) as Hu.
  { intros n Hn. destruct (FormatUint_spec n Hn) as (c & ds & E & Hall & _ & Hz & Hnz).
    exists c, ds. split; [done|]. split.
    - cbn in Hall. by apply andb_true_iff in Hall as [-> _].
    - rewrite E. apply scan_int_part_digits; [done|]. intros ->.
      destruct (Z.eq_dec n 0) as [->|Hne]; [by injection (Hz eq_refl)|].
      exfalso. by apply Hnz; [lia|]. }
  unfold FormatInt. destruct (Z.ltb_spec z 0).
  - destruct (Hu (- z)) as (c & ds & E & Hc & Hs); [lia|].
    unfold scan_number. cbn [String.append]. change (Ascii.eqb "-" "-") with true.
    cbv iota beta. rewrite Hs. cbn. by rewrite str_app_nil_r.
  - destruct (Hu z) as (c & ds & E & Hc & Hs); [lia|].
    unfold scan_number. rewrite E in *. cbn [String.append] in *.
    apply is_digit_code in Hc. rewrite ascii_eqb_code. change (code "-") with 45.
    destruct (Z.eqb_spec (code c) 45); [lia|]. cbv iota beta. rewrite Hs. cbn.
    by rewrite str_app_nil_r.
Qed.

(** A number after the colon and the space, before a comma. *)
Lemma parse_value_number f d z r :
  parse_value (S f) d (String " " (FormatInt z +:+ String "," r))
  = Some (JNum (FormatInt z), String "," r).
Proof.
  pose proof (scan_number_FormatInt z r) as Hs.
  assert (exists c x, FormatInt z = String c x
                      /\ (is_digit c = true \/ c = "-"%char)) as (c & x & E & Hc).
  { unfold FormatInt. destruct (Z.ltb_spec z 0).
    - eexists _, _. split; [done|by right].
    - destruct (FormatUint_spec z) as (c & ds & E & Hall & _); [done|].
      exists c, ds. split; [done|]. left. cbn in Hall.
      by apply andb_true_iff in Hall as [-> _]. }
  rewrite parse_value_step. rewrite E in *. cbn [String.append] in *.
  assert (code c = 45 \/ 48 <= code c <= 57) as Hcode.
  { destruct Hc as [Hc| ->]; [right; by apply is_digit_code|by left]. }
  assert (is_space c = false) as Hsp.
  { unfold is_space. rewrite ascii_eqb_code. change (code " ") with 32.
    destruct (Z.eqb_spec (code c) 32); [lia|]. destruct (Z.eqb_spec (code c) 9); [lia|].
    destruct (Z.eqb_spec (code c) 13); [lia|]. by destruct (Z.eqb_spec (code c) 10); [lia|]. }
  cbn [skip_ws]. change (is_space " ") with true. cbv iota. rewrite Hsp.
  rewrite !(ascii_eqb_code c). change (code dquote) with 34. change (code "[") with 91.
  change (code "{") with 123. change (code "t") with 116. change (code "f") with 102.
  change (code "n") with 110.
  destruct (Z.eqb_spec (code c) 34); [lia|]. destruct (Z.eqb_spec (code c) 91); [lia|].
  destruct (Z.eqb_spec (code c) 123); [lia|]. destruct (Z.eqb_spec (code c) 116); [lia|].
  destruct (Z.eqb_spec (code c) 102); [lia|]. destruct (Z.eqb_spec (code c) 110); [lia|].
  by rewrite Hs.
Qed.

Lemma parse_members_field f d name x :
  field_name name ->
  parse_members (S f) d (indent2 +:+ key name +:+ x)
  = after_member f d name (parse_value f d (String " " x)).
Proof. intros [->|[->|[->|[->| ->]]]]; reflexivity. Qed.

Lemma after_member_comma f d name v r :
  after_member f d name (Some (v, String "," r))
  = match parse_members f d r with
    | Some (ms, r4) => Some ((name, v) :: ms, r4)
    | None => None
    end.
Proof. done. Qed.

Lemma after_member_last f d name v r :
  after_member f d name (Some (v, indent1 +:+ String "}" r)) = Some ([(name, v)], r).
Proof. done. Qed.

Lemma task_ok_inv t :
  task_ok t = true ->
  int64_ok (ID t) /\ Time_ok (CreatedAt t) = true
  /\ forall c, CompletedAt t = Some c -> Time_ok c = true.
Proof.
  unfold task_ok, int64_ok. rewrite !andb_true_iff, !Z.leb_le.
  intros [[[H1 H2] H3] H4]. repeat split; try done.
  intros c Hc. by rewrite Hc in H4.
Qed.

Lemma parse_value_time f d t txt r :
  Time_ok t = true -> Time_MarshalJSON t = Ok txt ->
  parse_value (S f) d (String " " (txt +:+ r)) = Some (JStr (formatRFC3339 t), r).
Proof.
  intros Hok Hm. apply Time_MarshalJSON_ok in Hm as (-> & Hy & Hoff).
  apply parse_value_literal, scan_plain. by apply formatRFC3339_plain.
Qed.

Lemma comma_app x : "," +:+ x = String "," x.
Proof. done. Qed.

Lemma Ok_inj {A} (a b : A) : Ok a = Ok b -> a = b.
Proof. by intros [= ->]. Qed.

Lemma marshal_task_text t txt :
  marshal_task t = Ok txt ->
  exists created completed,
    Time_MarshalJSON (CreatedAt t) = Ok created
    /\ match CompletedAt t with
       | None => completed = None
       | Some c => exists x, Time_MarshalJSON c = Ok x /\ completed = Some x
       end
    /\ forall r, txt +:+ r = task_text t created completed r.
Proof.
  unfold marshal_task. intros Hm.
  destruct (Time_MarshalJSON (CreatedAt t)) as [created|]; [|done].
  destruct (CompletedAt t) as [c|].
  - destruct (Time_MarshalJSON c) as [completed|]; [|done].
    exists created, (Some completed). split; [done|]. split; [by exists completed|].
    intros r. apply Ok_inj in Hm. subst txt. unfold task_text, quote.
    rewrite !str_app_assoc. reflexivity.
  - exists created, None. split; [done|]. split; [done|].
    intros r. apply Ok_inj in Hm. subst txt. unfold task_text, quote.
    rewrite !str_app_assoc. reflexivity.
Qed.

Lemma parse_task t txt f r :
  task_ok t = true -> marshal_task t = Ok txt ->
  parse_value (S (S (S (S (S (S (S f))))))) 1 (indent1 +:+ txt +:+ r)
  = Some (JObj (members t), r).
Proof.
  intros Hok Hm. apply task_ok_inv in Hok as (Hid & Hc & Hd).
  destruct (marshal_task_text t txt Hm) as (created & completed & Ec & Ecomp & ->).
  rewrite parse_value_step.
  replace (skip_ws (indent1 +:+ task_text t created completed r))
    with (task_text t created completed r) by done.
  unfold task_text at 1.
  change (Ascii.eqb "{" dquote) with false. change (Ascii.eqb "{" "[") with false.
  change (Ascii.eqb "{" "{") with true. cbv iota.
  change (maxNestingDepth <? 1 + 1) with false. cbv iota.
  change (1 + 1) with 2.
  match goal with
  | |- context [strip_prefix "}" (skip_ws (indent2 +:+ ?x))] =>
      replace (strip_prefix "}" (skip_ws (indent2 +:+ x))) with (@None string) by done
  end.
  rewrite parse_members_field by (unfold field_name; tauto).
  rewrite parse_value_number, after_member_comma.
  rewrite parse_members_field by (unfold field_name; tauto).
  rewrite parse_value_literal by apply scan_quote_body.
  rewrite after_member_comma.
  rewrite parse_members_field by (unfold field_name; tauto).
  rewrite parse_value_bool, after_member_comma.
  rewrite parse_members_field by (unfold field_name; tauto).
  rewrite (parse_value_time _ _ (CreatedAt t)) by done.
  unfold members. destruct (CompletedAt t) as [c|].
  - destruct Ecomp as (x & Ex & ->).
    rewrite after_member_comma.
    rewrite parse_members_field by (unfold field_name; tauto).
    rewrite (parse_value_time _ _ c) by auto.
    by rewrite after_member_last.
  - subst completed. by rewrite after_member_last.
Qed.

(** ** The decoder on the members [marshal_task] writes *)

Lemma decode_field_id t0 lit :
  decode_field t0 "id" (JNum lit)
  = match ParseInt lit with
    | Ok n => Ok (mkTask n (Title t0) (Done t0) (CreatedAt t0) (CompletedAt t0))
    | Err _ => Err (UnmarshalTypeError ("number " +:+ lit))
    end.
Proof. done. Qed.

Lemma decode_field_title t0 raw :
  decode_field t0 "title" (JStr raw)
  = Ok (mkTask (ID t0) (unquote raw) (Done t0) (CreatedAt t0) (CompletedAt t0)).
Proof. done. Qed.

Lemma decode_field_done t0 b :
  decode_field t0 "done" (JBool b)
  = Ok (mkTask (ID t0) (Title t0) b (CreatedAt t0) (CompletedAt t0)).
Proof. done. Qed.

Lemma decode_field_created t0 raw :
  decode_field t0 "created_at" (JStr raw)
  = match parseRFC3339 raw with
    | Some c => Ok (mkTask (ID t0) (Title t0) (Done t0) c (CompletedAt t0))
    | None =>
        match Parse_RFC3339 raw with
        | Some c => Ok (mkTask (ID t0) (Title t0) (Done t0) c (CompletedAt t0))
        | None => Err (TimeError "parsing time: not in RFC 3339 form")
        end
    end.
Proof. change (decode_field t0 "created_at" (JStr raw))
         with (match Time_UnmarshalJSON (CreatedAt t0) (JStr raw) with
               | Ok c => Ok (mkTask (ID t0) (Title t0) (Done t0) c (CompletedAt t0))
               | Err e => Err e
               end).
       unfold Time_UnmarshalJSON, parseStrictRFC3339.
       destruct (parseRFC3339 raw); [done|]. by destruct (Parse_RFC3339 raw).
Qed.

Lemma decode_field_completed t0 raw :
  decode_field t0 "completed_at" (JStr raw)
  = match parseRFC3339 raw with
    | Some c => Ok (mkTask (ID t0) (Title t0) (Done t0) (CreatedAt t0) (Some c))
    | None =>
        match Parse_RFC3339 raw with
        | Some c => Ok (mkTask (ID t0) (Title t0) (Done t0) (CreatedAt t0) (Some c))
        | None => Err (TimeError "parsing time: not in RFC 3339 form")
        end
    end.
Proof.
  change (decode_field t0 "completed_at" (JStr raw))
    with (match Time_UnmarshalJSON
                  (match CompletedAt t0 with Some c => c | None => zeroTime end)
                  (JStr raw) with
          | Ok c => Ok (mkTask (ID t0) (Title t0) (Done t0) (CreatedAt t0) (Some c))
          | Err e => Err e
          end).
  unfold Time_UnmarshalJSON, parseStrictRFC3339.
  destruct (parseRFC3339 raw); [done|]. by destruct (Parse_RFC3339 raw).
Qed.

Lemma decode_task_members t txt :
  task_ok t = true -> marshal_task t = Ok txt ->
  decode_task (JObj (members t)) = Ok (canon_task t).
Proof.
  intros Hok Hm. apply task_ok_inv in Hok as (Hid & Hc & Hd).
  destruct (marshal_task_text t txt Hm) as (created & completed & Ec & Ecomp & _).
  apply Time_MarshalJSON_ok in Ec as (_ & Hy & Hoff).
  unfold decode_task, members. cbn [app decode_members].
  rewrite decode_field_id, ParseInt_FormatInt by done.
  rewrite decode_field_title, unquote_quote_body.
  rewrite decode_field_done.
  rewrite decode_field_created, parse_format by done.
  unfold canon_task. destruct (CompletedAt t) as [c|].
  - destruct Ecomp as (x & Ex & _). apply Time_MarshalJSON_ok in Ex as (_ & Hy' & Hoff').
    cbn [decode_members]. rewrite decode_field_completed, parse_format by auto.
    done.
  - done.
Qed.

Lemma marshal_more_cons t l b :
  marshal_more (t :: l) = Ok b ->
  exists a b', marshal_task t = Ok a /\ marshal_more l = Ok b'
               /\ b = "," +:+ indent1 +:+ a +:+ b'.
Proof.
  cbn [marshal_more]. destruct (marshal_task t) as [a|]; [|done].
  destruct (marshal_more l) as [b'|]; [|done]. intros H. apply Ok_inj in H.
  by exists a, b'.
Qed.

Lemma decode_tasks_members l b :
  forallb task_ok l = true -> marshal_more l = Ok b ->
  decode_tasks (map (fun t => JObj (members t)) l) = Ok (map canon_task l).
Proof.
  revert b. induction l as [|t l IH]; intros b Hok Hm; [done|].
  cbn in Hok. apply andb_true_iff in Hok as [Ht Hl].
  apply marshal_more_cons in Hm as (a & b' & Ha & Hb & _).
  cbn [map decode_tasks]. by rewrite (decode_task_members t a), (IH b').
Qed.

Lemma parse_elems_step f d s :
  parse_elems (S f) d s
  = match parse_value f d s with
    | None => None
    | Some (v, r) =>
        match skip_ws r with
        | String c r1 =>
            if Ascii.eqb c "," then
              match parse_elems f d r1 with
              | Some (vs, r2) => Some (v :: vs, r2)
              | None => None
              end
            else if Ascii.eqb c "]" then Some ([v], r1)
            else None
        | EmptyString => None
        end
    end.
Proof. done. Qed.

(** The elements of the array, from the first to the closing bracket. *)
Lemma parse_elems_tasks l : forall t a b F r,
  task_ok t = true -> forallb task_ok l = true ->
  marshal_task t = Ok a -> marshal_more l = Ok b ->
  (7 + length l <= F)%nat ->
  parse_elems (S F) 1 (indent1 +:+ a +:+ b +:+ String LF (String "]" r))
  = Some (map (fun t => JObj (members t)) (t :: l), r).
Proof.
  induction l as [|t' l IH]; intros t a b F r Ht Hl Ha Hb HF.
  - cbn in Hb. apply Ok_inj in Hb. subst b. rewrite parse_elems_step.
    do 7 (destruct F as [|F]; [cbn in HF; lia|]).
    rewrite (parse_task t a) by done.
    by replace (skip_ws (EmptyString +:+ String LF (String "]" r)))
      with (String "]" r) by done.
  - cbn in Hl. apply andb_true_iff in Hl as [Ht' Hl].
    apply marshal_more_cons in Hb as (a' & b' & Ha' & Hb' & ->).
    rewrite parse_elems_step.
    do 7 (destruct F as [|F]; [cbn in HF; lia|]).
    rewrite (parse_task t a) by done.
    rewrite !str_app_assoc.
    replace (skip_ws ("," +:+ indent1 +:+ a' +:+ b' +:+ String LF (String "]" r)))
      with (String "," (indent1 +:+ a' +:+ b' +:+ String LF (String "]" r))) by done.
    change (Ascii.eqb "," ",") with true. cbv iota.
    rewrite (IH t' a' b') by (done || cbn in HF; cbn; lia).
    done.
Qed.

Lemma marshal_more_length l b :
  marshal_more l = Ok b -> (4 * length l <= String.length b)%nat.
Proof.
  revert b. induction l as [|t l IH]; intros b Hb; [cbn; lia|].
  apply marshal_more_cons in Hb as (a & b' & _ & Hb' & ->).
  specialize (IH b' Hb'). rewrite !str_length_app. cbn [length].
  change (String.length ",") with 1%nat. change (String.length indent1) with 3%nat. lia.
Qed.

(** Reading the text [MarshalIndent] writes gives the collection back,
    titles coerced to valid UTF-8 and zone offsets in whole minutes. *)
Lemma Unmarshal_MarshalIndent ts b :
  Tasks_ok ts = true -> MarshalIndent ts = Ok b -> Unmarshal b = Ok (canon_tasks ts).
Proof.
  intros Hok Hm. destruct ts as [|[|t l]].
  - apply Ok_inj in Hm. by subst b.
  - apply Ok_inj in Hm. by subst b.
  - unfold Tasks_ok in Hok. cbn [elems forallb] in Hok.
    apply andb_true_iff in Hok as [Ht Hl]. cbn [MarshalIndent] in Hm.
    destruct (marshal_task t) as [a|] eqn:Ha; [|done].
    destruct (marshal_more l) as [b'|] eqn:Hb; [|done].
    apply Ok_inj in Hm. subst b.
    pose proof (marshal_more_length l b' Hb) as Hlen.
    unfold Unmarshal, parse_json.
    set (doc := "[" +:+ indent1 +:+ a +:+ b' +:+ str1 LF +:+ "]").
    assert (exists F, (2 * String.length doc + 2 = S (S F))%nat
                      /\ (7 + length l <= F)%nat) as (F & -> & HF).
    { exists (2 * String.length doc)%nat. split; [lia|].
      unfold doc. rewrite !str_length_app.
      change (String.length "[") with 1%nat. change (String.length indent1) with 3%nat.
      change (String.length (str1 LF)) with 1%nat. change (String.length "]") with 1%nat.
      lia. }
    rewrite parse_value_step.
    replace (skip_ws doc)
      with (String "[" (indent1 +:+ a +:+ b' +:+ String LF (String "]" EmptyString)))
      by done.
    change (Ascii.eqb "[" dquote) with false. change (Ascii.eqb "[" "[") with true.
    cbv iota. change (maxNestingDepth <? 0 + 1) with false. cbv iota.
    destruct (marshal_task_text t a Ha) as (created & completed & _ & _ & Etxt).
    rewrite Etxt.
    replace (strip_prefix "]"
               (skip_ws (indent1 +:+ task_text t created completed
                           (b' +:+ String LF (String "]" EmptyString)))))
      with (@None string) by done.
    rewrite <- Etxt. change (0 + 1) with 1.
    rewrite (parse_elems_tasks l t a b') by done.
    change (skip_ws EmptyString) with EmptyString. cbv iota.
    cbn [map decode_tasks]. rewrite (decode_task_members t a) by done.
    rewrite (decode_tasks_members l b') by done. done.
Qed.

(** ** C6 *)

Lemma canon_time_format t :
  stable_time t = true ->
  formatRFC3339 (canon_time t) = formatRFC3339 t
  /\ Time_MarshalJSON (canon_time t) = Time_MarshalJSON t.
Proof.
  intros Hs. unfold stable_time in Hs.
  assert (Z.quot (60 * Z.quot (offset t) 60) 60 = Z.quot (offset t) 60) as Hq.
  { rewrite Z.mul_comm. apply Z.quot_mul. lia. }
  assert ((60 * Z.quot (offset t) 60 =? 0) = (offset t =? 0)) as Hz.
  { apply orb_true_iff in Hs as [Hs|Hs].
    - apply Z.eqb_eq in Hs. by rewrite Hs.
    - apply Z.leb_le in Hs.
      destruct (Z.eqb_spec (offset t) 0) as [E|E]; [by rewrite E|].
      apply Z.eqb_neq. intros E'.
      assert (Z.quot (offset t) 60 = 0) as E0 by lia.
      apply Z.quot_small_iff in E0; lia. }
  unfold Time_MarshalJSON, formatRFC3339, canon_time. cbn [year month day hour minute
    second nanosecond offset]. by rewrite Hz, Hq.
Qed.

Lemma canon_task_marshal t :
  stable_task t = true -> marshal_task (canon_task t) = marshal_task t.
Proof.
  unfold stable_task. intros Hs. apply andb_true_iff in Hs as [Hs Hc].
  apply andb_true_iff in Hs as [Hv Hcr].
  unfold marshal_task, canon_task. cbn [ID Title Done CreatedAt CompletedAt].
  rewrite (coerce_valid _ Hv). destruct (canon_time_format _ Hcr) as [_ ->].
  destruct (CompletedAt t) as [c|]; [|done]. cbn [option_map].
  by destruct (canon_time_format _ Hc) as [_ ->].
Qed.

Lemma canon_tasks_marshal ts :
  Tasks_stable ts = true -> MarshalIndent (canon_tasks ts) = MarshalIndent ts.
Proof.
  destruct ts as [|l]; [done|]. unfold Tasks_stable. cbn [elems canon_tasks].
  assert (forall l, forallb stable_task l = true ->
            marshal_more (map canon_task l) = marshal_more l) as Hmore.
  { clear l. induction l as [|t l IH]; [done|]. cbn [forallb map marshal_more].
    intros H. apply andb_true_iff in H as [Ht Hl].
    by rewrite (canon_task_marshal t), IH. }
  destruct l as [|t l]; [done|]. cbn [forallb map MarshalIndent].
  intros H. apply andb_true_iff in H as [Ht Hl].
  by rewrite (canon_task_marshal t), Hmore.
Qed.

(** After a save the store reads back as the collection that was
    saved, in the form [canon_tasks] gives it. *)
Lemma save_then_load ts w w1 path :
  Tasks_ok ts = true -> resolves w path -> path ∉ read_fault w ->
  saveTasks ts w = (Ok tt, w1) ->
  exists b,
    MarshalIndent ts = Ok b /\ w1 = saved path b w /\ resolves w1 path
    /\ loadTasks w1 = (Ok (canon_tasks ts), w1).
Proof.
  intros Hok Hr Hrd Hs.
  destruct (saveTasks_inv ts w w1 Hs) as (path' & b & Hr' & Hm & Ht & Hp & ->).
  unfold resolves in Hr, Hr'. rewrite Hr in Hr'. injection Hr' as <-.
  assert (resolves (saved path b w) path) as Hr1 by (by apply (resolves_same w)).
  exists b. split; [done|]. split; [done|]. split; [done|].
  rewrite (loadTasks_present _ path b); [|done|apply saved_lookup|done].
  by rewrite (Unmarshal_MarshalIndent ts b).
Qed.

(** C6, as stated, fails: a title that is not valid UTF-8 is saved
    with an escape for U+FFFD in place of each offending byte, is
    loaded as U+FFFD itself, and is then saved as the three bytes of
    U+FFFD, so the second save writes other bytes than the first.  The
    same happens to a time whose zone is less than a minute from UTC:
    it is saved with the zone +00:00, loaded as UTC and saved with Z. *)
Lemma C6_reload_changes_bytes :
  (exists b1 ts' b2,
     MarshalIndent (Slice [mkTask 1 (str1 (byte_of 255)) false noon None]) = Ok b1
     /\ Unmarshal b1 = Ok ts' /\ MarshalIndent ts' = Ok b2 /\ b1 <> b2)
  /\ (exists b1 ts' b2,
        MarshalIndent (Slice [mkTask 1 "a" false (mkTime 2025 9 21 12 0 0 0 30) None])
        = Ok b1
        /\ Unmarshal b1 = Ok ts' /\ MarshalIndent ts' = Ok b2 /\ b1 <> b2)
  /\ files (snd (run [saveTasks (Slice [mkTask 1 (str1 (byte_of 255)) false noon None]);
                      (ts' <-- loadTasks ;; saveTasks ts')] (fresh noon)))
     !! "tasks.json"
     <> files (snd (saveTasks (Slice [mkTask 1 (str1 (byte_of 255)) false noon None])
                      (fresh noon)))
        !! "tasks.json".
Proof.
  split; [|split].
  - eexists _, _, _. split; [vm_compute; reflexivity|].
    split; [vm_compute; reflexivity|]. split; [vm_compute; reflexivity|].
    vm_compute. discriminate.
  - eexists _, _, _. split; [vm_compute; reflexivity|].
    split; [vm_compute; reflexivity|]. split; [vm_compute; reflexivity|].
    vm_compute. discriminate.
  - vm_compute. discriminate.
Qed.

(** C6, amended: for every collection whose titles are valid UTF-8 and
    whose timestamps have a zone offset of zero or of at least a
    minute, saving it, loading it back and saving what was loaded
    leaves in the store the bytes the first save wrote, the serialized
    form of the collection (the store being readable). *)
Theorem C6_save_load_save ts w w1 path :
  Tasks_ok ts = true -> Tasks_stable ts = true ->
  resolves w path -> path ∉ read_fault w ->
  saveTasks ts w = (Ok tt, w1) ->
  exists b ts' w2,
    MarshalIndent ts = Ok b /\ files w1 !! path = Some b
    /\ loadTasks w1 = (Ok ts', w1)
    /\ saveTasks ts' w1 = (Ok tt, w2)
    /\ files w2 !! path = Some b.
Proof.
  intros Hok Hst Hr Hrd Hs.
  destruct (saveTasks_inv ts w w1 Hs) as (path' & b' & Hr' & _ & Ht & Hp & _).
  unfold resolves in Hr, Hr'. pose proof Hr as Hr0. rewrite Hr in Hr'. injection Hr' as <-.
  destruct (save_then_load ts w w1 path Hok Hr0 Hrd Hs) as (b & Hm & -> & Hr1 & Hl).
  exists b, (canon_tasks ts), (saved path b (saved path b w)).
  split; [done|]. split; [apply saved_lookup|]. split; [done|].
  split; [|apply saved_lookup].
  apply saveTasks_ok; [done| |done|done].
  by rewrite canon_tasks_marshal.
Qed.

Lemma C6_save_load_save_witness :
  Tasks_ok (Slice [milk; three]) = true /\ Tasks_stable (Slice [milk; three]) = true
  /\ resolves (fresh noon) "tasks.json"
  /\ fst (saveTasks (Slice [milk; three]) (fresh noon)) = Ok tt
  /\ exists b ts' w2,
      MarshalIndent (Slice [milk; three]) = Ok b
      /\ loadTasks (snd (saveTasks (Slice [milk; three]) (fresh noon)))
         = (Ok ts', snd (saveTasks (Slice [milk; three]) (fresh noon)))
      /\ saveTasks ts' (snd (saveTasks (Slice [milk; three]) (fresh noon))) = (Ok tt, w2)
      /\ files w2 !! "tasks.json" = Some b.
Proof.
  split; [reflexivity|]. split; [reflexivity|]. split; [reflexivity|].
  split; [reflexivity|].
  destruct (C6_save_load_save (Slice [milk; three]) (fresh noon)
              (snd (saveTasks (Slice [milk; three]) (fresh noon))) "tasks.json"
              eq_refl eq_refl eq_refl ltac:(by vm_compute) eq_refl)
    as (b & ts' & w2 & Hm & _ & Hl & Hs & Hf).
  exists b, ts', w2. split; [exact Hm|]. split; [exact Hl|]. split; [exact Hs|exact Hf].
Defined.

(** * Further properties *)

(** ** Ids *)

Lemma max_id_ids l l' m : ID <$> l = ID <$> l' -> max_id l m = max_id l' m.
Proof.
  revert l' m. induction l as [|t l IH]; intros [|t' l'] m H; try done.
  injection H as Ht Hl. simpl. rewrite Ht. by apply IH.
Qed.

Lemma nextID_above ts t :
  (forall u, u ∈ elems ts -> ID u < int64_max) -> t ∈ elems ts -> ID t < nextID ts.
Proof.
  intros Hlt Ht. rewrite nextID_no_overflow by done.
  pose proof (max_id_upper (elems ts) 0 t Ht). lia.
Qed.

Lemma nextID_positive ts :
  (forall u, u ∈ elems ts -> ID u < int64_max) -> 0 < nextID ts.
Proof.
  intros Hlt. rewrite nextID_no_overflow by done.
  pose proof (max_id_ge (elems ts) 0). lia.
Qed.

(** X1: the id [nextID] gives is positive and larger than every id in
    the collection, so [Add] keeps the ids pairwise distinct (no id
    being the largest int64). *)
Theorem Add_keeps_ids_distinct ts title now :
  (forall t, t ∈ elems ts -> ID t < int64_max) ->
  0 < fst (Add ts title now)
  /\ (forall t, t ∈ elems ts -> ID t < fst (Add ts title now))
  /\ ids_of (snd (Add ts title now)) = ids_of ts ++ [fst (Add ts title now)]
  /\ (NoDup (ids_of ts) -> NoDup (ids_of (snd (Add ts title now)))).
Proof.
  intros Hlt. cbn [Add fst snd]. split; [by apply nextID_positive|].
  split; [intros t Ht; by apply nextID_above|].
  assert (ids_of (append ts (mkTask (nextID ts) title false now None))
          = ids_of ts ++ [nextID ts]) as E.
  { unfold ids_of, append. cbn [elems]. by rewrite fmap_app. }
  split; [exact E|]. intros Hnd. rewrite E.
  apply NoDup_app. split; [done|]. split; [|apply NoDup_singleton].
  intros x Hx Hx'. apply list_elem_of_singleton in Hx'. subst x.
  unfold ids_of in Hx. apply list_elem_of_fmap in Hx as (t & E' & Ht).
  pose proof (nextID_above ts t Hlt Ht). lia.
Qed.

Lemma Add_keeps_ids_distinct_witness :
  (forall t, t ∈ elems (Slice [three; seven]) -> ID t < int64_max)
  /\ fst (Add (Slice [three; seven]) "Buy milk" noon) = 8
  /\ ids_of (snd (Add (Slice [three; seven]) "Buy milk" noon)) = [3; 7; 8].
Proof.
  assert (forall t, t ∈ elems (Slice [three; seven]) -> ID t < int64_max) as H.
  { intros t Ht. cbn [elems] in Ht.
    apply elem_of_cons in Ht as [->|Ht]; [by vm_compute|].
    apply list_elem_of_singleton in Ht as ->. by vm_compute. }
  split; [exact H|].
  destruct (Add_keeps_ids_distinct (Slice [three; seven]) "Buy milk" noon H)
    as (_ & _ & E & _).
  split; [reflexivity|exact E].
Defined.

(** X2: the id after the largest int64 wraps around: when a task has
    the id 2^63-1, [Add] assigns -2^63, and it assigns -2^63 again to
    the next task, so that two tasks have the same id. *)
Theorem nextID_wraps ts title now title' now' :
  (forall t, t ∈ elems ts -> ID t <= int64_max) ->
  (exists t, t ∈ elems ts /\ ID t = int64_max) ->
  fst (Add ts title now) = int64_min
  /\ fst (Add (snd (Add ts title now)) title' now') = int64_min
  /\ ~ NoDup (ids_of (snd (Add (snd (Add ts title now)) title' now'))).
Proof.
  intros Hle Hex.
  assert (max_id (elems ts) 0 = int64_max) as Hmax.
  { apply max_id_is_max; [by split|by vm_compute]. }
  assert (nextID ts = int64_min) as Hn.
  { unfold nextID. rewrite Hmax. by vm_compute. }
  cbn [Add fst snd]. rewrite Hn.
  assert (nextID (append ts (mkTask int64_min title false now None)) = int64_min) as Hn'.
  { unfold nextID, append. cbn [elems]. rewrite max_id_app, Hmax. by vm_compute. }
  rewrite Hn'. split; [done|]. split; [done|].
  unfold ids_of, append. cbn [elems]. rewrite !fmap_app. cbn [fmap list_fmap ID].
  rewrite <- app_assoc. intros Hnd. apply NoDup_app in Hnd as (_ & _ & Hnd).
  cbn [app] in Hnd. apply NoDup_cons in Hnd as [Hnd _].
  apply Hnd. apply list_elem_of_here.
Qed.

Lemma nextID_wraps_witness :
  (forall t, t ∈ elems (Slice [mkTask int64_max "last" false noon None])
             -> ID t <= int64_max)
  /\ fst (Add (Slice [mkTask int64_max "last" false noon None]) "next" noon) = - 2 ^ 63.
Proof.
  assert (forall t, t ∈ elems (Slice [mkTask int64_max "last" false noon None])
                    -> ID t <= int64_max) as H.
  { intros t Ht. cbn [elems] in Ht. apply list_elem_of_singleton in Ht as ->.
    cbn [ID]. lia. }
  split; [exact H|].
  destruct (nextID_wraps (Slice [mkTask int64_max "last" false noon None])
              "next" noon "next" noon H) as (E & _).
  { eexists. split; [apply list_elem_of_here|reflexivity]. }
  exact E.
Defined.

(** ** Finding, removing and changing tasks *)

(** X3: [findIndexByID] returns -1 exactly when no task has the id;
    otherwise it returns a position of the slice, the task there has
    the id and no task before it has. *)
Theorem findIndexByID_spec ts id :
  (findIndexByID ts id = -1 <-> forall t, t ∈ elems ts -> ID t <> id)
  /\ (findIndexByID ts id <> -1 ->
      0 <= findIndexByID ts id < Z.of_nat (length (elems ts))
      /\ ID (index ts (findIndexByID ts id)) = id
      /\ forall j, 0 <= j < findIndexByID ts id -> ID (index ts j) <> id).
Proof.
  split; [apply findIndexByID_absent|]. intros Hne.
  destruct (found_split ts id Hne) as (pre & t & post & -> & <- & Hpre & ->).
  cbn [elems]. rewrite length_app. cbn [length]. split; [lia|].
  split; [by rewrite index_middle|].
  intros j Hj. unfold index. cbn [elems].
  rewrite app_nth1 by lia. apply Hpre.
  apply list_elem_of_In. apply nth_In. lia.
Qed.

Lemma findIndexByID_spec_witness :
  findIndexByID (Slice [milk; three; seven]) 7 <> -1
  /\ 0 <= findIndexByID (Slice [milk; three; seven]) 7 < 3
  /\ ID (index (Slice [milk; three; seven]) (findIndexByID (Slice [milk; three; seven]) 7))
     = 7.
Proof.
  assert (findIndexByID (Slice [milk; three; seven]) 7 <> -1) as H by (by vm_compute).
  split; [exact H|].
  destruct (proj2 (findIndexByID_spec (Slice [milk; three; seven]) 7) H) as (Hr & Hi & _).
  split; [exact Hr|exact Hi].
Defined.

(** X4: removing the task that [Add] has just appended gives the
    collection back (no id being the largest int64). *)
Theorem Remove_undoes_Add ts title now :
  (forall t, t ∈ elems ts -> ID t < int64_max) ->
  Remove (snd (Add ts title now)) (fst (Add ts title now)) = Some (Slice (elems ts)).
Proof.
  intros Hlt. cbn [Add fst snd]. unfold append.
  set (t := mkTask (nextID ts) title false now None).
  change (nextID ts) with (ID t).
  rewrite Remove_first; [by rewrite app_nil_r|].
  intros u Hu. pose proof (nextID_above ts u Hlt Hu). cbn [ID t]. lia.
Qed.

Lemma Remove_undoes_Add_witness :
  (forall t, t ∈ elems (Slice [three; seven]) -> ID t < int64_max)
  /\ Remove (snd (Add (Slice [three; seven]) "Buy milk" noon)) 8
     = Some (Slice [three; seven]).
Proof.
  assert (forall t, t ∈ elems (Slice [three; seven]) -> ID t < int64_max) as H.
  { intros t Ht. cbn [elems] in Ht.
    apply elem_of_cons in Ht as [->|Ht]; [by vm_compute|].
    apply list_elem_of_singleton in Ht as ->. by vm_compute. }
  split; [exact H|].
  exact (Remove_undoes_Add (Slice [three; seven]) "Buy milk" noon H).
Defined.

Lemma filter_other_ids (l : list Task) id :
  (forall u, u ∈ l -> ID u <> id) -> filter (fun t => ID t <> id) l = l.
Proof.
  induction l as [|t l IH]; intros H; [done|].
  rewrite filter_cons_True by (apply H, list_elem_of_here).
  rewrite IH; [done|]. intros u Hu. by apply H, list_elem_of_further.
Qed.

(** X5: in a collection with pairwise distinct ids, [Remove] leaves
    exactly the tasks with another id, in their order; the id is gone,
    so that removing it again finds nothing, and the ids stay distinct. *)
Theorem Remove_distinct_ids ts id ts' :
  NoDup (ids_of ts) -> Remove ts id = Some ts' ->
  elems ts' = filter (fun t => ID t <> id) (elems ts)
  /\ (id ∉ ids_of ts') /\ NoDup (ids_of ts') /\ Remove ts' id = None
  /\ (length (elems ts') + 1 = length (elems ts))%nat.
Proof.
  intros Hnd Hrm.
  assert (findIndexByID ts id <> -1) as Hne.
  { intros E. unfold Remove in Hrm. by rewrite E in Hrm. }
  destruct (found_split ts id Hne) as (pre & t & post & -> & <- & Hpre & _).
  rewrite Remove_first in Hrm by done. injection Hrm as <-.
  unfold ids_of in *. cbn [elems] in *.
  rewrite fmap_app, fmap_cons in Hnd.
  apply NoDup_app in Hnd as (Hnd1 & Hdis & Hnd2).
  apply NoDup_cons in Hnd2 as [Hpost Hnd2].
  assert (forall u, u ∈ post -> ID u <> ID t) as Hpost'.
  { intros u Hu E. apply Hpost. rewrite <- E. by apply list_elem_of_fmap_2. }
  assert (ID t ∉ ID <$> pre ++ post) as Hnot.
  { rewrite fmap_app. intros Hin. apply elem_of_app in Hin as [Hin|Hin]; [|done].
    apply list_elem_of_fmap in Hin as (u & E & Hu). by apply (Hpre u). }
  split; [|split; [done|split; [|split]]].
  - rewrite filter_app, filter_cons_False by (intros H; by apply H).
    by rewrite !filter_other_ids.
  - rewrite fmap_app. apply NoDup_app. split; [done|]. split; [|done].
    intros x Hx Hx'. apply (Hdis x Hx). by apply list_elem_of_further.
  - unfold Remove.
    rewrite (proj2 (findIndexByID_absent (Slice (pre ++ post)) (ID t))); [done|].
    intros u Hu E. apply Hnot. rewrite <- E. by apply list_elem_of_fmap_2.
  - rewrite !length_app. cbn [length]. lia.
Qed.

Lemma Remove_distinct_ids_witness :
  NoDup (ids_of (Slice [milk; three; seven]))
  /\ Remove (Slice [milk; three; seven]) 3 = Some (Slice [milk; seven])
  /\ Remove (Slice [milk; seven]) 3 = None.
Proof.
  assert (NoDup (ids_of (Slice [milk; three; seven]))) as H.
  { apply (bool_decide_unpack _). by vm_compute. }
  split; [exact H|]. split; [reflexivity|].
  by destruct (Remove_distinct_ids (Slice [milk; three; seven]) 3 (Slice [milk; seven])
                 H eq_refl) as (_ & _ & _ & E & _).
Defined.

(** X6: [MarkDone] and [Edit] change no id and move no task, so the id
    the next [Add] assigns is the same before and after; [MarkDone]
    keeps every title and creation time, [Edit] keeps every done flag
    and every timestamp. *)
Theorem MarkDone_Edit_keep_ids ts id :
  (forall now ts',
     MarkDone ts id now = DoneMarked ts' ->
     ids_of ts' = ids_of ts /\ nextID ts' = nextID ts
     /\ Title <$> elems ts' = Title <$> elems ts
     /\ CreatedAt <$> elems ts' = CreatedAt <$> elems ts)
  /\ (forall newTitle ts',
        Edit ts id newTitle = Some ts' ->
        ids_of ts' = ids_of ts /\ nextID ts' = nextID ts
        /\ Done <$> elems ts' = Done <$> elems ts
        /\ CreatedAt <$> elems ts' = CreatedAt <$> elems ts
        /\ CompletedAt <$> elems ts' = CompletedAt <$> elems ts).
Proof.
  split.
  - intros now ts' H.
    apply MarkDone_marked in H as (pre & t & post & -> & <- & Hd & Hpre & ->).
    assert (ids_of (Slice (pre ++ mkTask (ID t) (Title t) true (CreatedAt t) (Some now)
                             :: post))
            = ids_of (Slice (pre ++ t :: post))) as E.
    { unfold ids_of. cbn [elems]. by rewrite !fmap_app, !fmap_cons. }
    split; [exact E|]. split; [unfold nextID; by rewrite (max_id_ids _ _ 0 E)|].
    cbn [elems]. by rewrite !fmap_app, !fmap_cons.
  - intros newTitle ts' H.
    assert (findIndexByID ts id <> -1) as Hne.
    { intros E. unfold Edit in H. by rewrite E in H. }
    destruct (found_split ts id Hne) as (pre & t & post & -> & <- & Hpre & _).
    rewrite Edit_first in H by done. injection H as <-.
    assert (ids_of (Slice (pre ++ mkTask (ID t) newTitle (Done t) (CreatedAt t)
                             (CompletedAt t) :: post))
            = ids_of (Slice (pre ++ t :: post))) as E.
    { unfold ids_of. cbn [elems]. by rewrite !fmap_app, !fmap_cons. }
    split; [exact E|]. split; [unfold nextID; by rewrite (max_id_ids _ _ 0 E)|].
    cbn [elems]. by rewrite !fmap_app, !fmap_cons.
Qed.

Lemma MarkDone_Edit_keep_ids_witness :
  MarkDone (Slice [pending; three]) 1 evening = DoneMarked (Slice [milk; three])
  /\ ids_of (Slice [milk; three]) = ids_of (Slice [pending; three])
  /\ nextID (Slice [milk; three]) = nextID (Slice [pending; three]).
Proof.
  split; [reflexivity|].
  destruct (proj1 (MarkDone_Edit_keep_ids (Slice [pending; three]) 1) evening
              (Slice [milk; three]) eq_refl) as (Hi & Hn & _).
  split; [exact Hi|exact Hn].
Defined.

(** ** The path of the store *)

(** X7: [tasksFilePath] returns a non-empty TODO_FILE as it is and does
    nothing else, whatever the home directory and the permissions are.
    An empty TODO_FILE counts as unset: the home directory is asked
    for, and its error is returned when it is not known; otherwise
    [MkdirAll] is called for .todo in it, and the result is the error of
    that call or, when it succeeds, the path of tasks.json in that
    directory.  No file is changed and nothing is printed. *)
Theorem tasksFilePath_cases w :
  (forall p, environ w !! "TODO_FILE" = Some p -> p <> EmptyString ->
     tasksFilePath w = (Ok p, w))
  /\ (environ w !! "TODO_FILE" = None \/ environ w !! "TODO_FILE" = Some EmptyString ->
      match home w with
      | None => tasksFilePath w = (Err HomeError, w)
      | Some h =>
          let dir := filepath.Join h ".todo" in
          (forall e, fst (os.MkdirAll dir w) = Err e -> fst (tasksFilePath w) = Err e)
          /\ (fst (os.MkdirAll dir w) = Ok tt ->
              fst (tasksFilePath w) = Ok (filepath.Join dir "tasks.json"))
      end)
  /\ files (snd (tasksFilePath w)) = files w
  /\ stdout (snd (tasksFilePath w)) = stdout w
  /\ stderr (snd (tasksFilePath w)) = stderr w.
Proof.
  split; [|split].
  - intros p Hp Hne. unfold tasksFilePath, os.Getenv. rewrite Hp.
    destruct (String.eqb_spec p EmptyString); done.
  - intros He.
    assert (os.Getenv "TODO_FILE" w = EmptyString) as Hg.
    { unfold os.Getenv. by destruct He as [-> | ->]. }
    unfold tasksFilePath. rewrite Hg. cbn [String.eqb negb].
    unfold bind, os.UserHomeDir. destruct (home w) as [h|]; [|done].
    cbv zeta. destruct (os.MkdirAll (filepath.Join h ".todo") w) as [[[]|e0] w0].
    + split; [intros e H; discriminate H|done].
    + split; [by intros e [= ->]|intros H; discriminate H].
  - destruct (tasksFilePath w) as [r w'] eqn:E. apply tasksFilePath_world in E.
    by subst w'.
Qed.

Lemma tasksFilePath_cases_witness :
  environ (fresh noon) !! "TODO_FILE" = Some "tasks.json"
  /\ tasksFilePath (fresh noon) = (Ok "tasks.json", fresh noon)
  /\ environ at_home !! "TODO_FILE" = None
  /\ fst (os.MkdirAll "/home/ann/.todo" at_home) = Ok tt
  /\ fst (tasksFilePath at_home) = Ok "/home/ann/.todo/tasks.json".
Proof.
  split; [reflexivity|].
  split; [by apply (proj1 (tasksFilePath_cases (fresh noon)) "tasks.json")|].
  split; [reflexivity|]. split; [reflexivity|].
  exact (proj2 (proj1 (proj2 (tasksFilePath_cases at_home)) (or_introl eq_refl))
           eq_refl).
Defined.

(** ** Saving *)

Lemma tmp_neq path : path +:+ ".tmp" <> path.
Proof. by apply str_app_neq. Qed.

Lemma saveTasks_cases ts w path :
  resolves w path ->
  saveTasks ts w
  = match MarshalIndent ts with
    | Err e => (Err e, w)
    | Ok b =>
        if decide (path +:+ ".tmp" ∈ write_fault w)
        then (Err (PathError "open" (path +:+ ".tmp") false), w)
        else if decide (path ∈ write_fault w)
        then (Err (LinkError "rename" (path +:+ ".tmp") path),
              set_files (<[path +:+ ".tmp" := b]> (files w)) w)
        else (Ok tt, saved path b w)
    end.
Proof.
  intros Hr. unfold saveTasks, bind. rewrite Hr. unfold lift.
  destruct (MarshalIndent ts) as [b|e]; [|done].
  unfold os.WriteFile. destruct (decide (_ ∈ write_fault w)); [done|].
  unfold os.Rename. cbn. rewrite lookup_insert_eq.
  destruct (decide (_ ∈ write_fault w)); [done|].
  unfold saved, set_files. cbn. by rewrite delete_insert_eq.
Qed.

(** X8: [saveTasks] replaces the store in one step.  When it returns
    an error the store file has the content it had, and no file but
    the temporary one beside it has changed; when it succeeds the
    store file holds the whole serialized collection, the temporary
    file is gone, and every other file is as it was. *)
Theorem saveTasks_atomic ts w path :
  resolves w path ->
  (forall e w',
     saveTasks ts w = (Err e, w') ->
     files w' !! path = files w !! path
     /\ (forall p, p <> path +:+ ".tmp" -> files w' !! p = files w !! p)
     /\ stdout w' = stdout w /\ stderr w' = stderr w)
  /\ (forall w',
        saveTasks ts w = (Ok tt, w') ->
        exists b,
          MarshalIndent ts = Ok b /\ files w' !! path = Some b
          /\ files w' !! (path +:+ ".tmp") = None
          /\ (forall p, p <> path -> p <> path +:+ ".tmp" ->
                        files w' !! p = files w !! p)
          /\ stdout w' = stdout w /\ stderr w' = stderr w).
Proof.
  intros Hr. rewrite (saveTasks_cases ts w path Hr). split.
  - intros e w' H. destruct (MarshalIndent ts) as [b|e0]; [|by injection H as _ <-].
    destruct (decide _); [by injection H as _ <-|].
    destruct (decide _); [|done]. injection H as _ <-. cbn.
    split; [|split; [|done]].
    + rewrite lookup_insert_ne; [done|apply tmp_neq].
    + intros p Hp. by rewrite lookup_insert_ne.
  - intros w' H. destruct (MarshalIndent ts) as [b|e0]; [|done].
    destruct (decide _); [done|]. destruct (decide _); [done|].
    injection H as <-. exists b. split; [done|]. unfold saved. cbn.
    split; [apply lookup_insert_eq|]. split; [|split; [|done]].
    + rewrite lookup_insert_ne by (intros E; by apply (tmp_neq path)).
      apply lookup_delete_eq.
    + intros p Hp Hp'. rewrite lookup_insert_ne by done. by rewrite lookup_delete_ne.
Qed.

Lemma saveTasks_atomic_witness :
  resolves (fresh noon) "tasks.json"
  /\ fst (saveTasks (Slice [milk]) (fresh noon)) = Ok tt
  /\ files (snd (saveTasks (Slice [milk]) (fresh noon))) !! "tasks.json.tmp" = None.
Proof.
  split; [reflexivity|]. split; [reflexivity|].
  destruct (proj2 (saveTasks_atomic (Slice [milk]) (fresh noon) "tasks.json" eq_refl)
              (snd (saveTasks (Slice [milk]) (fresh noon))) eq_refl)
    as (b & _ & _ & H & _).
  exact H.
Defined.

(** ** What the decoder yields *)

Lemma digit_val_range c : is_digit c = true -> 0 <= digit_val c <= 9.
Proof. intros H. apply is_digit_code in H. unfold digit_val. lia. Qed.

Lemma parse_digits_bound s : forall acc v,
  parse_digits acc s = Some v -> 0 <= acc ->
  acc * 10 ^ len s <= v < (acc + 1) * 10 ^ len s.
Proof.
  induction s as [|c s IH]; intros acc v H Hacc.
  - injection H as <-. change (10 ^ len EmptyString) with 1. lia.
  - cbn [parse_digits] in H. destruct (is_digit c) eqn:Hc; [|done].
    pose proof (digit_val_range c Hc) as Hd.
    apply IH in H; [|lia].
    assert (10 ^ len (String c s) = 10 * 10 ^ len s) as E.
    { unfold len. cbn [String.length]. rewrite Nat2Z.inj_succ, Z.pow_succ_r; lia. }
    rewrite E. assert (0 < 10 ^ len s) by (apply Z.pow_pos_nonneg; unfold len; lia).
    nia.
Qed.

Lemma ParseInt_range s z : ParseInt s = Ok z -> int64_ok z.
Proof.
  unfold ParseInt. destruct s as [|c s]; [done|]. cbv zeta.
  destruct (if Ascii.eqb c "-" || Ascii.eqb c "+" then s else String c s)
    as [|c' body']; [done|].
  destruct (parse_digits 0 (String c' body')) as [un|] eqn:Ep; [|done].
  apply parse_digits_bound in Ep; [|lia].
  assert (0 <= un) as Hun by lia.
  unfold int64_ok, int64_min, int64_max.
  destruct (Ascii.eqb c "-").
  - destruct (Z.leb_spec un (2 ^ 63)); [|done]. intros [= <-]. lia.
  - destruct (Z.ltb_spec un (2 ^ 63)); [|done]. intros [= <-]. lia.
Qed.

Lemma parseUint_range s lo hi x : parseUint s lo hi = Some x -> lo <= x <= hi.
Proof.
  unfold parseUint. destruct (parse_digits 0 s) as [y|]; [|done].
  destruct (between lo y hi) eqn:E; [|done]. intros [= <-]. by apply between_true.
Qed.

Lemma take_str_length n s : (String.length (take_str n s) <= n)%nat.
Proof.
  revert s. induction n as [|n IH]; intros [|c s]; cbn; try lia.
  specialize (IH s). lia.
Qed.

Lemma parseNanoseconds_range digits ns :
  parseNanoseconds digits = Some ns -> 0 <= ns <= 999999999.
Proof.
  unfold parseNanoseconds. cbv zeta.
  pose proof (take_str_length 9 digits) as Hl.
  generalize dependent (take_str 9 digits). intros ds Hl.
  destruct (parse_digits 0 ds) as [x|] eqn:E; [|done].
  intros H. apply Some_inj in H. subst ns. apply parse_digits_bound in E; [|lia].
  set (k := len ds) in *.
  assert (0 <= k <= 9) as Hk by (unfold k, len; lia).
  assert (10 ^ k * 10 ^ (9 - k) = 10 ^ 9) as Hp.
  { rewrite <- Z.pow_add_r by lia. f_equal. lia. }
  assert (0 < 10 ^ (9 - k)) by (apply Z.pow_pos_nonneg; lia).
  change (10 ^ 9) with 1000000000 in Hp. cbn [Z.mul Z.add] in E.
  generalize dependent (10 ^ (9 - k)). generalize dependent (10 ^ k).
  intros a Ha b Hb Hab. split; [nia|].
  assert (x * b <= (a - 1) * b) by nia. lia.
Qed.

Lemma parseZone_range s off :
  parseZone s = Some off ->
  Z.rem off 60 = 0 /\ (off = 0 \/ Z.abs (Z.quot off 60) / 60 < 24).
Proof.
  unfold parseZone. destruct (String.eqb s "Z"); [intros [= <-]; by split; [|left]|].
  destruct (negb _); [done|].
  destruct (parseUint (slice_str 1 3 s) 0 23) as [hr|] eqn:Eh; [|done].
  destruct (parseUint (slice_str 4 6 s) 0 59) as [mm|] eqn:Em; [|done].
  apply parseUint_range in Eh, Em.
  destruct (_ && _); [|done].
  assert ((hr * 60 + mm) / 60 = hr) as Hdiv.
  { symmetry. apply (Z.div_unique _ 60 hr mm); lia. }
  destruct (Ascii.eqb _ "-"); intros [= <-].
  - rewrite <- Z.mul_opp_l. rewrite Z.rem_mul, Z.quot_mul by lia.
    split; [done|right]. rewrite Z.abs_opp, Z.abs_eq by lia. lia.
  - rewrite Z.rem_mul, Z.quot_mul by lia.
    split; [done|right]. rewrite Z.abs_eq by lia. lia.
Qed.

Lemma parseRFC3339_sound s t :
  parseRFC3339 s = Some t -> time_sound t = true /\ exact_time t = true.
Proof.
  unfold parseRFC3339. destruct (_ <? _)%nat; [done|].
  destruct (parseUint (slice_str 0 4 s) 0 9999) as [y|] eqn:Ey; [|done].
  destruct (parseUint (slice_str 5 7 s) 1 12) as [mo|] eqn:Emo; [|done].
  destruct (parseUint (slice_str 8 10 s) 1 (daysIn mo y)) as [d|] eqn:Ed; [|done].
  destruct (parseUint (slice_str 11 13 s) 0 23) as [h|] eqn:Eh; [|done].
  destruct (parseUint (slice_str 14 16 s) 0 59) as [mi|] eqn:Emi; [|done].
  destruct (parseUint (slice_str 17 19 s) 0 59) as [se|] eqn:Ese; [|done].
  match goal with |- (if ?c then _ else None) = _ -> _ => destruct c; [|done] end.
  cbv zeta.
  set (n := if Ascii.eqb (char_at 0 (drop_str 19 s)) "."
               && is_digit (char_at 1 (drop_str 19 s))
            then S (digits_run (drop_str 1 (drop_str 19 s))) else O).
  assert (exists ns, match n with
                     | O => Some 0
                     | S _ => parseNanoseconds (slice_str 1 n (drop_str 19 s))
                     end = ns
                     /\ forall x, ns = Some x -> 0 <= x <= 999999999)
    as (frac & -> & Hfrac).
  { eexists. split; [reflexivity|]. intros x Hx. destruct n.
    - injection Hx as <-. lia.
    - by apply parseNanoseconds_range in Hx. }
  destruct frac as [ns|]; [|done].
  destruct (parseZone _) as [off|] eqn:Ez; [|done]. intros [= <-].
  apply parseUint_range in Ey, Emo, Ed, Eh, Emi, Ese.
  specialize (Hfrac ns eq_refl). apply parseZone_range in Ez as [Hrem Hz].
  unfold time_sound, exact_time, Time_ok, Time_MarshalJSON.
  cbn [year month day hour minute second nanosecond offset].
  rewrite !(proj2 (between_true _ _ _)) by lia. cbn [andb negb].
  split; [|by apply Z.eqb_eq].
  destruct (Z.eqb_spec off 0); [done|]. cbn [negb andb].
  destruct Hz as [?|Hz]; [done|].
  by destruct (Z.leb_spec 24 (Z.abs (Z.quot off 60) / 60)); [lia|].
Qed.

Lemma getnum_range s fixed v r : getnum s fixed = Some (v, r) -> 0 <= v <= 99.
Proof.
  unfold getnum. destruct s as [|a s1]; [done|].
  destruct (is_digit a) eqn:Ha; [|done]. pose proof (digit_val_range a Ha).
  destruct s1 as [|b s2].
  - destruct fixed; [done|]. intros [= <- _]. lia.
  - destruct (is_digit b) eqn:Hb.
    + pose proof (digit_val_range b Hb). intros [= <- _]. lia.
    + destruct fixed; [done|]. intros [= <- _]. lia.
Qed.

Lemma option_bind_Some {A B} (m : option A) (k : A -> option B) b :
  m ≫= k = Some b -> exists a, m = Some a /\ k a = Some b.
Proof. destruct m as [a|]; [|done]. intros H. by exists a. Qed.

(** What [Parse] lets through is still a real date and time of day in
    a year of four digits. *)
Lemma Parse_RFC3339_loaded s t : Parse_RFC3339 s = Some t -> time_loaded t = true.
Proof.
  unfold Parse_RFC3339. destruct (_ <? _)%nat; [done|]. intros H.
  apply option_bind_Some in H as (y & Hy & H).
  apply option_bind_Some in H as (s1 & _ & H).
  apply option_bind_Some in H as ([mo s2] & Hmo & H).
  apply option_bind_Some in H as (s3 & _ & H).
  apply option_bind_Some in H as ([d s4] & Hd & H).
  apply option_bind_Some in H as (s5 & _ & H).
  apply option_bind_Some in H as ([h s6] & Hh & H).
  apply option_bind_Some in H as (s7 & _ & H).
  apply option_bind_Some in H as ([mi s8] & Hmi & H).
  apply option_bind_Some in H as (s9 & _ & H).
  apply option_bind_Some in H as ([se rest] & Hse & H).
  destruct (between 1 mo 12 && (h <? 24) && (mi <? 60) && (se <? 60)) eqn:Hrange;
    [|done]. cbn [negb] in H. cbv zeta in H.
  apply option_bind_Some in H as (ns & Hns & H).
  apply option_bind_Some in H as (off & _ & H).
  destruct (between 1 d (daysIn mo y)) eqn:Hday; [|done]. injection H as <-.
  apply getnum_range in Hh, Hmi, Hse.
  apply andb_true_iff in Hrange as [Hrange Hse'].
  apply andb_true_iff in Hrange as [Hrange Hmi'].
  apply andb_true_iff in Hrange as [Hmo' Hh'].
  apply Z.ltb_lt in Hse', Hmi', Hh'.
  assert (0 <= ns <= 999999999) as Hns'.
  { match type of Hns with
    | match ?n with O => _ | S _ => _ end = _ => destruct n
    end.
    - injection Hns as <-. lia.
    - by apply parseNanoseconds_range in Hns. }
  assert (0 <= y <= 9999) as Hy'.
  { apply parse_digits_bound in Hy; [|lia].
    pose proof (take_str_length 4 s) as Hl.
    assert (10 ^ len (take_str 4 s) <= 10 ^ 4) as Hp.
    { apply Z.pow_le_mono_r; unfold len; lia. }
    change (10 ^ 4) with 10000 in Hp. lia. }
  unfold time_loaded, Time_ok. cbn [year month day hour minute second nanosecond].
  rewrite Hmo', Hday. rewrite !(proj2 (between_true _ _ _)) by lia. done.
Qed.

Lemma parseRFC3339_loaded s t : parseRFC3339 s = Some t -> time_loaded t = true.
Proof.
  intros H. apply parseRFC3339_sound in H as [H _].
  unfold time_sound in H. apply andb_true_iff in H as [Hok Hm].
  unfold time_loaded. rewrite Hok. cbn [andb].
  unfold Time_MarshalJSON in Hm. by destruct (between 0 (year t) 9999).
Qed.

Lemma Time_UnmarshalJSON_loaded cur v t :
  time_loaded cur = true -> Time_UnmarshalJSON cur v = Ok t -> time_loaded t = true.
Proof.
  intros Hc. destruct v; try done; cbn [Time_UnmarshalJSON].
  - by intros [= <-].
  - unfold parseStrictRFC3339. destruct (parseRFC3339 raw) as [t'|] eqn:E.
    + intros [= <-]. by apply (parseRFC3339_loaded raw).
    + destruct (Parse_RFC3339 raw) as [t'|] eqn:E'; [|done]. intros [= <-].
      by apply (Parse_RFC3339_loaded raw).
Qed.

Lemma decode_field_loaded t k v t' :
  task_loaded t = true -> decode_field t k v = Ok t' -> task_loaded t' = true.
Proof.
  unfold task_loaded. rewrite !andb_true_iff. intros [[Hid Hcr] Hco].
  unfold decode_field. cbv zeta.
  destruct (fold_eq _ "id").
  { destruct v; try done; [by intros [= <-]; rewrite Hid, Hcr, Hco|].
    destruct (ParseInt _) as [n|] eqn:E; [|done]. intros [= <-].
    cbn [ID CreatedAt CompletedAt]. apply ParseInt_range in E.
    rewrite (proj2 (between_true _ _ _)) by done. by rewrite Hcr, Hco. }
  destruct (fold_eq _ "title").
  { destruct v; try done; intros [= <-]; cbn [ID CreatedAt CompletedAt];
      by rewrite Hid, Hcr, Hco. }
  destruct (fold_eq _ "done").
  { destruct v; try done; intros [= <-]; cbn [ID CreatedAt CompletedAt];
      by rewrite Hid, Hcr, Hco. }
  destruct (fold_eq _ "created_at").
  { destruct (Time_UnmarshalJSON _ v) as [c|] eqn:E; [|done]. intros [= <-].
    cbn [ID CreatedAt CompletedAt].
    apply Time_UnmarshalJSON_loaded in E; [|done]. by rewrite Hid, E, Hco. }
  destruct (fold_eq _ "completed_at"); [|by intros [= <-]; rewrite Hid, Hcr, Hco].
  assert (time_loaded match CompletedAt t with Some c => c | None => zeroTime end = true)
    as Hcur by (by destruct (CompletedAt t)).
  destruct v; try (by intros [= <-]; cbn [ID CreatedAt CompletedAt]; rewrite Hid, Hcr);
    (destruct (Time_UnmarshalJSON _ _) as [c|] eqn:E; [|done]; intros [= <-];
     cbn [ID CreatedAt CompletedAt];
     apply Time_UnmarshalJSON_loaded in E; [|done]; by rewrite Hid, Hcr, E).
Qed.

Lemma decode_members_loaded ms : forall t t',
  task_loaded t = true -> decode_members t ms = Ok t' -> task_loaded t' = true.
Proof.
  induction ms as [|[k v] ms IH]; intros t t' Ht H; [by injection H as <-|].
  cbn [decode_members] in H. destruct (decode_field t k v) as [t1|] eqn:E; [|done].
  apply (IH t1); [|done]. by apply (decode_field_loaded t k v).
Qed.

Lemma decode_tasks_loaded vs : forall l,
  decode_tasks vs = Ok l -> forallb task_loaded l = true.
Proof.
  induction vs as [|v vs IH]; intros l H; [by injection H as <-|].
  cbn [decode_tasks] in H. destruct (decode_task v) as [t|] eqn:Et; [|done].
  destruct (decode_tasks vs) as [l'|]; [|done]. injection H as <-.
  cbn [forallb]. rewrite (IH l' eq_refl), andb_true_r.
  destruct v; try done; cbn [decode_task] in Et.
  - by injection Et as <-.
  - by apply (decode_members_loaded ms zeroTask).
Qed.

Lemma Unmarshal_loaded b ts :
  Unmarshal b = Ok ts -> forallb task_loaded (elems ts) = true.
Proof.
  unfold Unmarshal. destruct (parse_json b) as [[]|]; try done.
  - by intros [= <-].
  - destruct (decode_tasks _) as [l|] eqn:E; [|done]. intros [= <-].
    by apply decode_tasks_loaded in E.
Qed.

Lemma loadTasks_inv w ts w1 :
  loadTasks w = (Ok ts, w1) -> ts = Slice [] \/ exists b, Unmarshal b = Ok ts.
Proof.
  unfold loadTasks, bind at 1.
  destruct (tasksFilePath w) as [[path|e] w0]; [|done].
  destruct (os.Stat path w0) as [st w2].
  destruct (match st with Err e => os.IsNotExist e | Ok _ => false end).
  { intros [= <- _]. by left. }
  unfold bind at 1. destruct (os.ReadFile path w2) as [[b|e] w3]; [|done].
  destruct (Unmarshal b) as [ts'|e] eqn:E.
  - intros [= <- _]. right. by exists b.
  - unfold bind, time_Now, ignore, eprint, ret. intros [= <- _]. by left.
Qed.

Lemma loadTasks_loaded w ts w1 :
  loadTasks w = (Ok ts, w1) -> forallb task_loaded (elems ts) = true.
Proof.
  intros H. apply loadTasks_inv in H as [->|(b & H)]; [done|].
  by apply (Unmarshal_loaded b).
Qed.

(** [MarshalJSON] accepts a time read from a store exactly when its
    zone is less than 24 hours from UTC. *)
Lemma time_sound_zone t : time_loaded t = true -> time_sound t = zone_hour_ok t.
Proof.
  unfold time_loaded, time_sound, zone_hour_ok, Time_MarshalJSON.
  intros H. apply andb_true_iff in H as [-> ->]. cbn [andb negb].
  destruct (offset t =? 0); [done|]. cbn [negb andb orb].
  rewrite Z.ltb_antisym. by destruct (24 <=? _).
Qed.

Lemma task_sound_zone t :
  task_loaded t = true -> task_sound t = task_zone_ok t.
Proof.
  unfold task_loaded, task_sound, task_zone_ok. rewrite !andb_true_iff.
  intros [[-> Hcr] Hco]. rewrite (time_sound_zone _ Hcr). cbn [andb].
  destruct (CompletedAt t) as [c|]; [|done]. by rewrite (time_sound_zone _ Hco).
Qed.

Lemma task_loaded_ok t : task_loaded t = true -> task_ok t = true.
Proof.
  unfold task_loaded, time_loaded, task_ok, between. rewrite !andb_true_iff.
  intros [[[-> ->] [-> _]] Hco]. cbn [andb]. destruct (CompletedAt t); [|done].
  by apply andb_true_iff in Hco as [-> _].
Qed.

Lemma Tasks_loaded_ok ts : forallb task_loaded (elems ts) = true -> Tasks_ok ts = true.
Proof.
  unfold Tasks_ok. induction (elems ts) as [|t l IH]; [done|]. cbn [forallb].
  intros H. apply andb_true_iff in H as [Ht Hl]. by rewrite (task_loaded_ok t Ht), IH.
Qed.

Lemma task_sound_ok t :
  task_sound t = true -> task_ok t = true /\ exists a, marshal_task t = Ok a.
Proof.
  unfold task_sound, time_sound, task_ok, between.
  rewrite !andb_true_iff. intros [[[Hlo Hhi] [Hcr Hcr']] Hco]. split.
  - rewrite Hlo, Hhi, Hcr. cbn [andb]. destruct (CompletedAt t); [|done].
    by apply andb_true_iff in Hco as [-> _].
  - unfold marshal_task. destruct (Time_MarshalJSON (CreatedAt t)); [|done].
    destruct (CompletedAt t) as [c|]; [|by eexists].
    apply andb_true_iff in Hco as [_ Hco].
    destruct (Time_MarshalJSON c); [by eexists|done].
Qed.

Lemma Tasks_sound_ok ts :
  forallb task_sound (elems ts) = true ->
  Tasks_ok ts = true /\ exists b, MarshalIndent ts = Ok b.
Proof.
  intros H.
  assert (forall l, forallb task_sound l = true ->
            forallb task_ok l = true /\ exists b, marshal_more l = Ok b) as Hmore.
  { induction l as [|t l IH]; [by split; [|eexists]|]. cbn [forallb marshal_more].
    intros Hl. apply andb_true_iff in Hl as [Ht Hl].
    destruct (task_sound_ok t Ht) as (-> & a & ->).
    destruct (IH Hl) as (-> & b & ->). by split; [|eexists]. }
  destruct ts as [|[|t l]]; [by split; [|eexists]..|].
  cbn [elems forallb] in H. apply andb_true_iff in H as [Ht Hl].
  unfold Tasks_ok. cbn [elems forallb MarshalIndent].
  destruct (task_sound_ok t Ht) as (-> & a & ->).
  destruct (Hmore l Hl) as (-> & b & ->). by split; [|eexists].
Qed.

(** A task that [marshal_task] accepts has times [MarshalJSON] accepts. *)
Lemma marshal_task_sound t a :
  task_ok t = true -> marshal_task t = Ok a -> task_sound t = true.
Proof.
  intros Hok Hm. apply task_ok_inv in Hok as (Hid & Hcr & Hco).
  unfold marshal_task in Hm. unfold task_sound, time_sound.
  rewrite (proj2 (between_true _ _ _)) by done. rewrite Hcr. cbn [andb].
  destruct (Time_MarshalJSON (CreatedAt t)); [|done]. cbn [is_Ok andb].
  destruct (CompletedAt t) as [c|]; [|done]. rewrite (Hco c eq_refl). cbn [andb].
  by destruct (Time_MarshalJSON c).
Qed.

Lemma MarshalIndent_sound ts :
  Tasks_ok ts = true -> is_Ok (MarshalIndent ts) = true ->
  forallb task_sound (elems ts) = true.
Proof.
  assert (forall l, forallb task_ok l = true -> is_Ok (marshal_more l) = true ->
            forallb task_sound l = true) as Hmore.
  { induction l as [|t l IH]; [done|]. cbn [forallb marshal_more].
    intros Hl Hm. apply andb_true_iff in Hl as [Ht Hl].
    destruct (marshal_task t) as [a|] eqn:Ea; [|done].
    destruct (marshal_more l) as [b|] eqn:Eb; [|done].
    by rewrite (marshal_task_sound t a), IH. }
  unfold Tasks_ok. destruct ts as [|[|t l]]; [done..|].
  cbn [elems forallb MarshalIndent]. intros Hl Hm.
  apply andb_true_iff in Hl as [Ht Hl].
  destruct (marshal_task t) as [a|] eqn:Ea; [|done].
  destruct (marshal_more l) as [b|] eqn:Eb; [|done].
  rewrite (marshal_task_sound t a) by done. apply Hmore; [done|by rewrite Eb].
Qed.

(** X9: whatever [loadTasks] returns is a collection of Go values (int64
    ids, real dates and times of day in years of four digits), and
    [MarshalIndent] accepts it exactly when the zone of every timestamp
    is less than 24 hours from UTC: a timestamp with a zone of 24 hours
    is read from the store, and the collection that holds it cannot be
    serialized again. *)
Theorem loaded_saved_iff_zones w ts w1 :
  loadTasks w = (Ok ts, w1) ->
  Tasks_ok ts = true
  /\ (is_Ok (MarshalIndent ts) = true <-> forallb task_zone_ok (elems ts) = true).
Proof.
  intros H. pose proof (loadTasks_loaded w ts w1 H) as Hl.
  pose proof (Tasks_loaded_ok ts Hl) as Hok. split; [done|].
  assert (forallb task_sound (elems ts) = forallb task_zone_ok (elems ts)) as E.
  { induction (elems ts) as [|t l IH]; [done|]. cbn [forallb] in *.
    apply andb_true_iff in Hl as [Ht Hl]. by rewrite (task_sound_zone t Ht), IH. }
  rewrite <- E. split.
  - by apply MarshalIndent_sound.
  - intros Hs. destruct (Tasks_sound_ok ts Hs) as (_ & b & ->). done.
Qed.

Lemma loaded_saved_iff_zones_witness :
  loadTasks far_zone_store = (Ok far_zone, far_zone_store)
  /\ Tasks_ok far_zone = true
  /\ forallb task_zone_ok (elems far_zone) = false
  /\ is_Ok (MarshalIndent far_zone) = false.
Proof.
  assert (loadTasks far_zone_store = (Ok far_zone, far_zone_store)) as H
    by reflexivity.
  destruct (loaded_saved_iff_zones far_zone_store far_zone far_zone_store H)
    as [Hok Hiff].
  split; [exact H|]. split; [exact Hok|]. split; [reflexivity|].
  destruct (is_Ok (MarshalIndent far_zone)) eqn:E; [|reflexivity].
  discriminate (proj1 Hiff eq_refl).
Defined.

(** ** Saving and loading *)

Lemma canon_time_exact t : exact_time t = true -> canon_time t = t.
Proof.
  unfold exact_time, canon_time. intros H. apply Z.eqb_eq in H.
  destruct t as [y mo d h mi se ns off]. cbn [offset year month day hour minute second
    nanosecond] in *. f_equal.
  pose proof (Z.quot_rem' off 60). lia.
Qed.

Lemma canon_task_exact t : exact_task t = true -> canon_task t = t.
Proof.
  unfold exact_task, canon_task. rewrite !andb_true_iff. intros [[Hv Hcr] Hco].
  destruct t as [id title dn cr co]. cbn [ID Title Done CreatedAt CompletedAt] in *.
  rewrite (coerce_valid _ Hv), (canon_time_exact _ Hcr).
  destruct co as [c|]; [|done]. cbn [option_map]. by rewrite (canon_time_exact _ Hco).
Qed.

Lemma canon_tasks_exact ts : Tasks_exact ts = true -> canon_tasks ts = ts.
Proof.
  destruct ts as [|l]; [done|]. unfold Tasks_exact. cbn [elems canon_tasks].
  intros H. f_equal. induction l as [|t l IH]; [done|].
  cbn [forallb map] in *. apply andb_true_iff in H as [Ht Hl].
  by rewrite (canon_task_exact t Ht), IH.
Qed.

(** X10: what [saveTasks] has written, [loadTasks] reads back: the
    collection that was saved, with every title coerced to valid UTF-8
    and every zone offset cut to whole minutes, and so the very same
    collection when its titles are valid UTF-8 and its zone offsets
    are whole minutes.  A nil collection comes back nil. *)
Theorem load_after_save ts w w1 path :
  Tasks_ok ts = true -> resolves w path -> path ∉ read_fault w ->
  saveTasks ts w = (Ok tt, w1) ->
  loadTasks w1 = (Ok (canon_tasks ts), w1)
  /\ (Tasks_exact ts = true -> loadTasks w1 = (Ok ts, w1)).
Proof.
  intros Hok Hr Hrd Hs.
  destruct (save_then_load ts w w1 path Hok Hr Hrd Hs) as (b & _ & _ & _ & Hl).
  split; [done|]. intros He. by rewrite (canon_tasks_exact ts He) in Hl.
Qed.

Lemma load_after_save_witness :
  Tasks_ok (Slice [milk; three]) = true /\ resolves (fresh noon) "tasks.json"
  /\ fst (saveTasks (Slice [milk; three]) (fresh noon)) = Ok tt
  /\ Tasks_exact (Slice [milk; three]) = true
  /\ fst (loadTasks (snd (saveTasks (Slice [milk; three]) (fresh noon))))
     = Ok (Slice [milk; three]).
Proof.
  split; [reflexivity|]. split; [reflexivity|]. split; [reflexivity|].
  split; [reflexivity|].
  destruct (load_after_save (Slice [milk; three]) (fresh noon)
              (snd (saveTasks (Slice [milk; three]) (fresh noon))) "tasks.json"
              eq_refl eq_refl ltac:(by vm_compute) eq_refl) as [_ H].
  by rewrite (H eq_refl).
Defined.

(** ** The commands *)

Lemma wrap64_range z : int64_ok (wrap64 z).
Proof.
  unfold wrap64, int64_ok, int64_min, int64_max.
  pose proof (Z.mod_pos_bound (z + 2 ^ 63) (2 ^ 64) ltac:(lia)). lia.
Qed.

(** The operations keep the tasks sound. *)
Lemma Add_sound ts title now :
  forallb task_sound (elems ts) = true -> time_sound now = true ->
  forallb task_sound (elems (snd (Add ts title now))) = true.
Proof.
  intros Hts Hnow. cbn [Add snd append elems]. rewrite forallb_app, Hts.
  cbn [forallb andb]. unfold task_sound. cbn [ID CreatedAt CompletedAt].
  rewrite Hnow, !andb_true_r. apply between_true. apply wrap64_range.
Qed.

Lemma forallb_middle {A} (f : A -> bool) pre t post :
  forallb f (pre ++ t :: post) = forallb f pre && f t && forallb f post.
Proof. rewrite forallb_app. cbn [forallb]. by rewrite andb_assoc. Qed.

Lemma MarkDone_sound ts id now ts' :
  forallb task_sound (elems ts) = true -> time_sound now = true ->
  MarkDone ts id now = DoneMarked ts' -> forallb task_sound (elems ts') = true.
Proof.
  intros Hts Hnow H.
  apply MarkDone_marked in H as (pre & t & post & -> & <- & Hd & Hpre & ->).
  cbn [elems] in *. rewrite forallb_middle in *.
  apply andb_true_iff in Hts as [Hts Hpost]. apply andb_true_iff in Hts as [Hp Ht].
  rewrite Hp, Hpost, andb_true_r. cbn [andb].
  unfold task_sound in *. cbn [ID CreatedAt CompletedAt]. rewrite Hnow, andb_true_r.
  by apply andb_true_iff in Ht as [-> _].
Qed.

Lemma Edit_sound ts id newTitle ts' :
  forallb task_sound (elems ts) = true ->
  Edit ts id newTitle = Some ts' -> forallb task_sound (elems ts') = true.
Proof.
  intros Hts H.
  assert (findIndexByID ts id <> -1) as Hne.
  { intros E. unfold Edit in H. by rewrite E in H. }
  destruct (found_split ts id Hne) as (pre & t & post & -> & <- & Hpre & _).
  rewrite Edit_first in H by done. injection H as <-.
  cbn [elems] in *. rewrite forallb_middle in *.
  apply andb_true_iff in Hts as [Hts Hpost]. apply andb_true_iff in Hts as [Hp Ht].
  by rewrite Hp, Hpost, andb_true_r.
Qed.

Lemma Remove_sound ts id ts' :
  forallb task_sound (elems ts) = true ->
  Remove ts id = Some ts' -> forallb task_sound (elems ts') = true.
Proof.
  intros Hts H.
  assert (findIndexByID ts id <> -1) as Hne.
  { intros E. unfold Remove in H. by rewrite E in H. }
  destruct (found_split ts id Hne) as (pre & t & post & -> & <- & Hpre & _).
  rewrite Remove_first in H by done. injection H as <-.
  cbn [elems] in *. rewrite forallb_middle in Hts. rewrite forallb_app.
  apply andb_true_iff in Hts as [Hts Hpost]. apply andb_true_iff in Hts as [Hp Ht].
  by rewrite Hp, Hpost.
Qed.

Lemma MarkDone_ok ts id now ts' :
  Tasks_ok ts = true -> Time_ok now = true ->
  MarkDone ts id now = DoneMarked ts' -> Tasks_ok ts' = true.
Proof.
  unfold Tasks_ok. intros Hts Hnow H.
  apply MarkDone_marked in H as (pre & t & post & -> & <- & Hd & Hpre & ->).
  cbn [elems] in *. rewrite forallb_middle in *.
  apply andb_true_iff in Hts as [Hts Hpost]. apply andb_true_iff in Hts as [Hp Ht].
  rewrite Hp, Hpost, andb_true_r. cbn [andb].
  unfold task_ok in *. cbn [ID CreatedAt CompletedAt]. rewrite Hnow, andb_true_r.
  by apply andb_true_iff in Ht as [-> _].
Qed.

(** A collection as it was loaded, when [MarshalIndent] accepts it. *)
Lemma loadTasks_sound w ts w1 :
  loadTasks w = (Ok ts, w1) -> is_Ok (MarshalIndent ts) = true ->
  forallb task_sound (elems ts) = true.
Proof.
  intros H Hm. apply MarshalIndent_sound; [|done].
  apply Tasks_loaded_ok. by apply (loadTasks_loaded w ts w1).
Qed.

(** A command after [loadTasks]: the world it starts in has the store
    and the permissions of the world before. *)
Lemma loaded_world w r w1 path :
  resolves w path -> loadTasks w = (r, w1) ->
  resolves w1 path /\ files w1 !! path = files w !! path
  /\ write_fault w1 = write_fault w /\ clock w1 = clock w /\ stdout w1 = stdout w.
Proof.
  intros Hr Hl.
  destruct (loadTasks_keeps_store w r w1 path Hr Hl) as (Hf & He & Hh & _ & Hw & Hc & Ho).
  split; [by apply (resolves_same w)|done].
Qed.

(** The end of a command that changes the collection: save, then
    report. *)
Lemma commit_ok ts msg w path :
  resolves w path -> forallb task_sound (elems ts) = true ->
  (path +:+ ".tmp" ∉ write_fault w) -> (path ∉ write_fault w) ->
  exists b,
    MarshalIndent ts = Ok b
    /\ (_ <-- saveTasks ts ;; print msg) w = (Ok tt, printed [msg] (saved path b w)).
Proof.
  intros Hr Hts Ht Hp. destruct (Tasks_sound_ok ts Hts) as (_ & b & Hm).
  exists b. split; [done|]. unfold bind. by rewrite (saveTasks_ok ts w path b).
Qed.






Lemma cmdClear_cases args w path :
  resolves w path ->
  cmdClear args w
  = match files w !! path with
    | Some _ =>
        if decide (path ∈ write_fault w) then (Err (PathError "remove" path false), w)
        else (Ok tt, printed ["All tasks cleared." +:+ NL]
                       (set_files (delete path (files w)) w))
    | None => (Ok tt, printed ["All tasks cleared." +:+ NL] w)
    end.
Proof.
  intros Hr. unfold cmdClear, bind. rewrite Hr. unfold os.Remove.
  destruct (files w !! path); [|done]. by destruct (decide _).
Qed.


Lemma list_task_printed t w : list_task t w = (Ok tt, printed (task_lines t) w).
Proof.
  unfold list_task, task_lines, bind, print, printed, ret. cbn.
  destruct (CompletedAt t); cbn; [by rewrite <- app_assoc|done].
Qed.

Lemma printed_nil w : printed [] w = w.
Proof. destruct w. unfold printed. cbn. by rewrite app_nil_r. Qed.

Lemma printed_app a b w : printed b (printed a w) = printed (a ++ b) w.
Proof. unfold printed. cbn. by rewrite app_assoc. Qed.

Lemma list_tasks_printed l : forall w,
  list_tasks l w = (Ok tt, printed (flat_map task_lines l) w).
Proof.
  induction l as [|t l IH]; intros w; [by rewrite printed_nil|].
  cbn [list_tasks flat_map]. unfold bind. rewrite list_task_printed, IH.
  by rewrite printed_app.
Qed.

Lemma cmdList_cases args w :
  cmdList args w
  = match loadTasks w with
    | (Ok ts, w1) => (Ok tt, printed (listing ts) w1)
    | (Err e, w1) => (Err e, w1)
    end.
Proof.
  unfold cmdList, bind. destruct (loadTasks w) as [[ts|e] w1]; [|done].
  unfold listing. destruct (elems ts) as [|t l]; [done|].
  cbn [length Nat.eqb]. apply list_tasks_printed.
Qed.




Lemma found_not_absent ts id :
  (exists t, t ∈ elems ts /\ ID t = id) -> (findIndexByID ts id =? -1) = false.
Proof.
  intros (t & Ht & E). apply Z.eqb_neq. intros H.
  by apply (proj1 (findIndexByID_absent ts id) H t).
Qed.

(** X12: [cmdDo] on a task that is not done, the first with the id,
    in a collection that [MarshalIndent] accepts as it was loaded: with
    a clock that shows a real time and a store that may be written, the
    command succeeds, the store then holds the collection in which that
    task is done and completed at the time of the command, and the
    command reports it.  Arguments after the id are ignored. *)
Theorem cmdDo_marks w a rest id ts w1 path t :
  ParseInt a = Ok id -> resolves w path -> loadTasks w = (Ok ts, w1) ->
  is_Ok (MarshalIndent ts) = true ->
  first_with_id ts id = Some t -> Done t = false -> time_sound (clock w) = true ->
  (path +:+ ".tmp" ∉ write_fault w) -> (path ∉ write_fault w) ->
  exists ts' b,
    MarkDone ts id (clock w) = DoneMarked ts'
    /\ first_with_id ts' id = Some (mkTask id (Title t) true (CreatedAt t) (Some (clock w)))
    /\ MarshalIndent ts' = Ok b
    /\ cmdDo (a :: rest) w
       = (Ok tt, printed ["Marked " +:+ FormatInt id +:+ " done" +:+ NL] (saved path b w1)).
Proof.
  intros Hp Hr Hl Hsv Hf Hd Hnow Ht Hw.
  destruct (loaded_world w _ w1 path Hr Hl) as (Hr1 & _ & Hwf & Hc & _).
  pose proof (loadTasks_sound w ts w1 Hl Hsv) as Hts.
  apply first_with_id_found in Hf as (pre & post & -> & <- & Hpre).
  set (t' := mkTask (ID t) (Title t) true (CreatedAt t) (Some (clock w))).
  assert (MarkDone (Slice (pre ++ t :: post)) (ID t) (clock w)
          = DoneMarked (Slice (pre ++ t' :: post))) as Hm.
  { rewrite MarkDone_first by done. by rewrite Hd. }
  destruct (commit_ok (Slice (pre ++ t' :: post))
              ("Marked " +:+ FormatInt (ID t) +:+ " done" +:+ NL) w1 path)
    as (b & Hb & Hcommit); [done| |by rewrite Hwf..|].
  { by apply (MarkDone_sound _ _ _ _ Hts Hnow Hm). }
  exists (Slice (pre ++ t' :: post)), b. split; [done|].
  split; [by apply (first_with_id_split pre t' post)|]. split; [done|].
  rewrite (cmdDo_MarkDone a rest w (ID t) _ w1 Hp Hl). by rewrite Hc, Hm.
Qed.

(** X13: [cmdRemove] on an id that is present, in a collection that
    [MarshalIndent] accepts as it was loaded, with a store that may be
    written: the command succeeds, the store then holds the collection
    without the first task with the id, and the command reports it. *)
Theorem cmdRemove_removes w a rest id ts w1 path :
  ParseInt a = Ok id -> resolves w path -> loadTasks w = (Ok ts, w1) ->
  is_Ok (MarshalIndent ts) = true ->
  (exists t, t ∈ elems ts /\ ID t = id) ->
  (path +:+ ".tmp" ∉ write_fault w) -> (path ∉ write_fault w) ->
  exists ts' b,
    Remove ts id = Some ts' /\ MarshalIndent ts' = Ok b
    /\ cmdRemove (a :: rest) w
       = (Ok tt, printed ["Removed " +:+ FormatInt id +:+ NL] (saved path b w1)).
Proof.
  intros Hp Hr Hl Hsv Hex Ht Hw.
  destruct (loaded_world w _ w1 path Hr Hl) as (Hr1 & _ & Hwf & _ & _).
  pose proof (loadTasks_sound w ts w1 Hl Hsv) as Hts.
  assert (Remove ts id = Some (remove_at ts (findIndexByID ts id))) as Hrm.
  { unfold Remove. by rewrite (found_not_absent ts id Hex). }
  destruct (commit_ok (remove_at ts (findIndexByID ts id))
              ("Removed " +:+ FormatInt id +:+ NL) w1 path)
    as (b & Hb & Hcommit); [done| |by rewrite Hwf..|].
  { by apply (Remove_sound ts id). }
  eexists _, b. split; [done|]. split; [done|].
  rewrite (cmdRemove_Remove a rest w id ts w1 Hp Hl). by rewrite Hrm.
Qed.

(** X14: [cmdEdit] on an id that is present, in a collection that
    [MarshalIndent] accepts as it was loaded, with a store that may be
    written: the new title is the arguments after the id joined by
    single spaces; the command succeeds, the store then holds the
    collection with that title for the first task with the id, and
    the command reports it. *)
Theorem cmdEdit_edits w a b rest id ts w1 path :
  ParseInt a = Ok id -> resolves w path -> loadTasks w = (Ok ts, w1) ->
  is_Ok (MarshalIndent ts) = true ->
  (exists t, t ∈ elems ts /\ ID t = id) ->
  (path +:+ ".tmp" ∉ write_fault w) -> (path ∉ write_fault w) ->
  exists ts' txt,
    Edit ts id (Join (b :: rest) " ") = Some ts' /\ MarshalIndent ts' = Ok txt
    /\ cmdEdit (a :: b :: rest) w
       = (Ok tt, printed ["Updated " +:+ FormatInt id +:+ NL] (saved path txt w1)).
Proof.
  intros Hp Hr Hl Hsv Hex Ht Hw.
  destruct (loaded_world w _ w1 path Hr Hl) as (Hr1 & _ & Hwf & _ & _).
  pose proof (loadTasks_sound w ts w1 Hl Hsv) as Hts.
  destruct (Edit ts id (Join (b :: rest) " ")) as [ts'|] eqn:He.
  2:{ unfold Edit in He. by rewrite (found_not_absent ts id Hex) in He. }
  destruct (commit_ok ts' ("Updated " +:+ FormatInt id +:+ NL) w1 path)
    as (txt & Hb & Hcommit); [done| |by rewrite Hwf..|].
  { by apply (Edit_sound ts id (Join (b :: rest) " ") ts'). }
  exists ts', txt. split; [done|]. split; [done|].
  rewrite (cmdEdit_Edit a b rest w id ts w1 Hp Hl). by rewrite He.
Qed.

Lemma cmdDo_marks_witness :
  ParseInt "1" = Ok 1 /\ resolves milk_store "tasks.json"
  /\ loadTasks milk_store = (Ok (Slice [pending]), milk_store)
  /\ is_Ok (MarshalIndent (Slice [pending])) = true
  /\ first_with_id (Slice [pending]) 1 = Some pending
  /\ time_sound (clock milk_store) = true
  /\ exists ts' b,
      MarkDone (Slice [pending]) 1 evening = DoneMarked ts'
      /\ first_with_id ts' 1 = Some milk
      /\ MarshalIndent ts' = Ok b
      /\ cmdDo ["1"] milk_store
         = (Ok tt, printed ["Marked 1 done" +:+ NL] (saved "tasks.json" b milk_store)).
Proof.
  split; [reflexivity|]. split; [reflexivity|]. split; [reflexivity|]. split; [reflexivity|].
  split; [reflexivity|]. split; [reflexivity|].
  exact (cmdDo_marks milk_store "1" [] 1 (Slice [pending]) milk_store "tasks.json" pending
           eq_refl eq_refl eq_refl eq_refl eq_refl eq_refl eq_refl
           ltac:(by vm_compute) ltac:(by vm_compute)).
Defined.

Lemma cmdRemove_removes_witness :
  ParseInt "1" = Ok 1 /\ resolves milk_store "tasks.json"
  /\ loadTasks milk_store = (Ok (Slice [pending]), milk_store)
  /\ is_Ok (MarshalIndent (Slice [pending])) = true
  /\ exists ts' b,
      Remove (Slice [pending]) 1 = Some ts' /\ MarshalIndent ts' = Ok b
      /\ cmdRemove ["1"] milk_store
         = (Ok tt, printed ["Removed 1" +:+ NL] (saved "tasks.json" b milk_store)).
Proof.
  split; [reflexivity|]. split; [reflexivity|]. split; [reflexivity|]. split; [reflexivity|].
  apply (cmdRemove_removes milk_store "1" [] 1 (Slice [pending]) milk_store "tasks.json"
           eq_refl eq_refl eq_refl eq_refl); [|by vm_compute..].
  exists pending. split; [apply list_elem_of_here|reflexivity].
Defined.

Lemma cmdEdit_edits_witness :
  ParseInt "1" = Ok 1 /\ resolves milk_store "tasks.json"
  /\ loadTasks milk_store = (Ok (Slice [pending]), milk_store)
  /\ is_Ok (MarshalIndent (Slice [pending])) = true
  /\ exists ts' b,
      Edit (Slice [pending]) 1 "Buy oat milk" = Some ts' /\ MarshalIndent ts' = Ok b
      /\ cmdEdit ["1"; "Buy"; "oat"; "milk"] milk_store
         = (Ok tt, printed ["Updated 1" +:+ NL] (saved "tasks.json" b milk_store)).
Proof.
  split; [reflexivity|]. split; [reflexivity|]. split; [reflexivity|]. split; [reflexivity|].
  apply (cmdEdit_edits milk_store "1" "Buy" ["oat"; "milk"] 1 (Slice [pending]) milk_store
           "tasks.json" eq_refl eq_refl eq_refl eq_refl); [|by vm_compute..].
  exists pending. split; [apply list_elem_of_here|reflexivity].
Defined.

(** X15: the commands check their arguments before they touch
    anything: without the arguments they need, or with an id that is
    not a decimal int64, they return the usage error or the error of
    [ParseInt] and leave the world as it is; the store is not even
    read, so that a corrupted store is not backed up. *)
Theorem bad_arguments_touch_nothing w :
  cmdDo [] w = (Err (errorString "usage: todo do <id>"), w)
  /\ cmdRemove [] w = (Err (errorString "usage: todo rm <id>"), w)
  /\ cmdEdit [] w = (Err (errorString "usage: todo edit <id> <new title>"), w)
  /\ (forall a, cmdEdit [a] w
                = (Err (errorString "usage: todo edit <id> <new title>"), w))
  /\ (forall a rest e,
        ParseInt a = Err e ->
        (exists msg, e = NumError "ParseInt" a msg)
        /\ cmdDo (a :: rest) w = (Err e, w) /\ cmdRemove (a :: rest) w = (Err e, w)
        /\ forall b, cmdEdit (a :: b :: rest) w = (Err e, w)).
Proof.
  split; [done|]. split; [done|]. split; [done|]. split; [done|].
  intros a rest e He. split.
  - unfold ParseInt in He. destruct a as [|c s]; [injection He as <-; by eexists|].
    cbv zeta in He.
    destruct (if Ascii.eqb c "-" || Ascii.eqb c "+" then s else String c s);
      [injection He as <-; by eexists|].
    destruct (parse_digits 0 _); [|injection He as <-; by eexists].
    destruct (Ascii.eqb c "-").
    + destruct (_ <=? _); [done|]. injection He as <-; by eexists.
    + destruct (_ <? _); [done|]. injection He as <-; by eexists.
  - unfold cmdDo, cmdRemove, cmdEdit, bind, lift. by rewrite He.
Qed.

Lemma bad_arguments_touch_nothing_witness :
  ParseInt "one" = Err (NumError "ParseInt" "one" "invalid syntax")
  /\ cmdDo ["one"] broken_store
     = (Err (NumError "ParseInt" "one" "invalid syntax"), broken_store).
Proof.
  split; [reflexivity|].
  by destruct (proj2 (proj2 (proj2 (proj2 (bad_arguments_touch_nothing broken_store))))
                 "one" [] _ eq_refl) as (_ & H & _).
Defined.

(** X16: ids survive the command line: what [ParseInt] accepts is an
    int64, the text [FormatInt] writes for an int64 is read back as
    that int64, and so the id [cmdAdd] prints for a new task is
    accepted by do, rm and edit as the id of that task. *)
Theorem id_text_round_trip :
  (forall s z, ParseInt s = Ok z -> int64_ok z)
  /\ (forall z, int64_ok z -> ParseInt (FormatInt z) = Ok z)
  /\ (forall ts, ParseInt (FormatInt (nextID ts)) = Ok (nextID ts)).
Proof.
  split; [apply ParseInt_range|]. split; [apply ParseInt_FormatInt|].
  intros ts. apply ParseInt_FormatInt. apply wrap64_range.
Qed.

Lemma id_text_round_trip_witness :
  ParseInt "-42" = Ok (-42) /\ int64_ok (-42) /\ ParseInt (FormatInt (-42)) = Ok (-42).
Proof.
  destruct id_text_round_trip as (H1 & H2 & _).
  split; [reflexivity|]. split; [exact (H1 "-42" (-42) eq_refl)|].
  apply H2. exact (H1 "-42" (-42) eq_refl).
Defined.

(** ** Clearing *)



(** X18: after [cmdClear] the ids start again: the next [cmdAdd] gives
    its task the id 1, whatever ids the cleared store held. *)
Theorem clear_then_add args a rest w w1 path :
  resolves w path -> cmdClear args w = (Ok tt, w1) -> time_sound (clock w) = true ->
  (path +:+ ".tmp" ∉ write_fault w) -> (path ∉ write_fault w) ->
  exists b,
    MarshalIndent (Slice [mkTask 1 (Join (a :: rest) " ") false (clock w) None]) = Ok b
    /\ cmdAdd (a :: rest) w1
       = (Ok tt, printed ["Added 1: " +:+ Join (a :: rest) " " +:+ NL]
                   (saved path b w1)).
Proof.
  intros Hr Hc Hnow Ht Hw.
  assert (resolves w1 path /\ files w1 !! path = None /\ clock w1 = clock w
          /\ write_fault w1 = write_fault w) as (Hr1 & Hf1 & Hc1 & Hw1).
  { rewrite (cmdClear_cases args w path Hr) in Hc.
    destruct (files w !! path) eqn:Hf.
    - destruct (decide _); [done|]. injection Hc as <-.
      split; [by apply (resolves_same w)|]. cbn. split; [apply lookup_delete_eq|done].
    - injection Hc as <-. split; [by apply (resolves_same w)|done]. }
  pose proof (loadTasks_absent w1 path Hr1 Hf1) as Hl.
  rewrite (cmdAdd_Add a rest w1 (Slice []) w1 Hl). rewrite Hc1.
  destruct (commit_ok (snd (Add (Slice []) (Join (a :: rest) " ") (clock w)))
              ("Added " +:+ FormatInt (fst (Add (Slice []) (Join (a :: rest) " ")
                                              (clock w)))
               +:+ ": " +:+ Join (a :: rest) " " +:+ NL) w1 path)
    as (b & Hb & Hcommit); [done|by apply Add_sound|by rewrite Hw1..|].
  exists b. split; [exact Hb|exact Hcommit].
Qed.

Lemma clear_then_add_witness :
  resolves twins_store "tasks.json"
  /\ fst (cmdClear [] twins_store) = Ok tt
  /\ time_sound (clock twins_store) = true
  /\ stdout (snd (cmdAdd ["Buy"; "milk"] (snd (cmdClear [] twins_store))))
     = ["All tasks cleared." +:+ NL; "Added 1: Buy milk" +:+ NL].
Proof.
  split; [reflexivity|]. split; [reflexivity|]. split; [reflexivity|].
  destruct (clear_then_add [] "Buy" ["milk"] twins_store (snd (cmdClear [] twins_store))
              "tasks.json" eq_refl eq_refl eq_refl
              ltac:(by vm_compute) ltac:(by vm_compute)) as (b & _ & H).
  by rewrite H.
Defined.

(** ** Listing *)

(** X19: [cmdList] prints, for the collection [loadTasks] returns, one
    line for every task in the order of the store, with an x for a task
    that is done, and under it the completion time to the minute when
    the task has one; it prints "No tasks." for an empty or nil
    collection.  It returns the error of [loadTasks] if there is one,
    ignores its arguments and never changes the store file. *)
Theorem cmdList_lists args w :
  (forall ts w1, loadTasks w = (Ok ts, w1) ->
                 cmdList args w = (Ok tt, printed (listing ts) w1))
  /\ (forall e w1, loadTasks w = (Err e, w1) -> cmdList args w = (Err e, w1))
  /\ (forall path, resolves w path ->
                   files (snd (cmdList args w)) !! path = files w !! path).
Proof.
  rewrite cmdList_cases. split; [by intros ts w1 ->|]. split; [by intros e w1 ->|].
  intros path Hr. destruct (loadTasks w) as [r w1] eqn:Hl.
  destruct (loaded_world w r w1 path Hr Hl) as (_ & Hf & _).
  by destruct r.
Qed.

Lemma cmdList_lists_witness :
  loadTasks done_store = (Ok (Slice [milk]), done_store)
  /\ cmdList [] done_store
     = (Ok tt, printed ["1) [x] Buy milk" +:+ NL;
                        "    completed: 2025-09-21 17:45" +:+ NL] done_store).
Proof.
  split; [reflexivity|].
  exact (proj1 (cmdList_lists [] done_store) (Slice [milk]) done_store eq_refl).
Defined.

(** X20: what [cmdAdd] stores, [cmdList] shows: when [MarshalIndent]
    accepts the collection as it was loaded, the add succeeds, and the
    listing after it is that of the collection as it was loaded and
    saved (titles coerced to valid UTF-8) followed by the line of the
    new task, with its id, not done, and its title. *)
Theorem add_then_list a rest w ts w1 path :
  resolves w path -> path ∉ read_fault w -> loadTasks w = (Ok ts, w1) ->
  is_Ok (MarshalIndent ts) = true -> time_sound (clock w) = true ->
  (path +:+ ".tmp" ∉ write_fault w) -> (path ∉ write_fault w) ->
  exists w2,
    cmdAdd (a :: rest) w = (Ok tt, w2)
    /\ forall args,
        cmdList args w2
        = (Ok tt,
           printed (flat_map task_lines (map canon_task (elems ts))
                    ++ [FormatInt (nextID ts) +:+ ") [ ] "
                        +:+ coerce (Join (a :: rest) " ") +:+ NL]) w2).
Proof.
  intros Hr Hrd Hl Hsv Hnow Ht Hw.
  destruct (loadTasks_keeps_store w _ w1 path Hr Hl)
    as (Hf & He & Hh & Hrf & Hwf & Hc & Ho).
  assert (resolves w1 path) as Hr1 by (by apply (resolves_same w)).
  pose proof (loadTasks_sound w ts w1 Hl Hsv) as Hts.
  set (title := Join (a :: rest) " ").
  set (t := mkTask (nextID ts) title false (clock w) None).
  pose proof (Add_sound ts title (clock w) Hts Hnow) as Hts'.
  cbn [Add snd] in Hts'. fold t in Hts'.
  destruct (commit_ok (append ts t)
              ("Added " +:+ FormatInt (nextID ts) +:+ ": " +:+ title +:+ NL) w1 path)
    as (b & Hb & Hcommit); [done|done|by rewrite Hwf..|].
  eexists. split.
  { rewrite (cmdAdd_Add a rest w ts w1 Hl). rewrite Hc. exact Hcommit. }
  intros args. rewrite cmdList_cases.
  set (w2 := printed _ (saved path b w1)).
  assert (resolves w2 path) as Hr2 by (by apply (resolves_same w1)).
  rewrite (loadTasks_present w2 path b Hr2);
    [|apply lookup_insert_eq|by cbn; rewrite Hrf].
  destruct (Tasks_sound_ok (append ts t) Hts') as [Hok _].
  rewrite (Unmarshal_MarshalIndent (append ts t) b Hok Hb).
  f_equal. f_equal. unfold listing, canon_tasks, append. cbn [elems].
  rewrite map_app. cbn [map].
  destruct (map canon_task (elems ts) ++ [canon_task t]) as [|u l] eqn:E.
  { by apply app_eq_nil in E as [_ ?]. }
  rewrite <- E. by rewrite flat_map_app.
Qed.

Lemma add_then_list_witness :
  resolves milk_store "tasks.json"
  /\ loadTasks milk_store = (Ok (Slice [pending]), milk_store)
  /\ is_Ok (MarshalIndent (Slice [pending])) = true
  /\ time_sound (clock milk_store) = true
  /\ exists w2,
      cmdAdd ["Call"; "home"] milk_store = (Ok tt, w2)
      /\ stdout (snd (cmdList [] w2))
         = ["Added 1: Buy milk" +:+ NL; "Added 2: Call home" +:+ NL;
            "1) [ ] Buy milk" +:+ NL; "2) [ ] Call home" +:+ NL].
Proof.
  split; [reflexivity|]. split; [reflexivity|]. split; [reflexivity|]. split; [reflexivity|].
  destruct (add_then_list "Call" ["home"] milk_store (Slice [pending]) milk_store
              "tasks.json" eq_refl ltac:(by vm_compute) eq_refl eq_refl eq_refl
              ltac:(by vm_compute) ltac:(by vm_compute)) as (w2 & Ha & Hlist).
  exists w2. split; [exact Ha|]. rewrite (Hlist []).
  assert (w2 = snd (cmdAdd ["Call"; "home"] milk_store)) as -> by (by rewrite Ha).
  reflexivity.
Defined.

(** ** The dispatch *)

Section Dispatch.

Variable text : error -> string.

Lemma not_command cmd name :
  name ∈ command_names -> cmd ∉ command_names -> String.eqb cmd name = false.
Proof. intros Hn Hc. apply String.eqb_neq. intros ->. by apply Hc. Qed.

(** X21: without a command, with [help] and with a word that is no
    command, [main] prints the usage text, changes nothing else and
    ends with status 0; an unknown word is named on the standard
    output first, and is not an error. *)
Theorem main_without_command prog args w :
  main text [] w = (0, printed [usage_text +:+ NL] w)
  /\ main text [prog] w = (0, printed [usage_text +:+ NL] w)
  /\ main text (prog :: "help" :: args) w = (0, printed [usage_text +:+ NL] w)
  /\ (forall cmd,
        cmd ∉ command_names -> cmd <> "help" ->
        main text (prog :: cmd :: args) w
        = (0, printed ["Unknown command: " +:+ cmd +:+ NL; usage_text +:+ NL] w)).
Proof.
  split; [done|]. split; [done|]. split; [done|]. intros cmd Hc Hh.
  unfold main.
  rewrite !(not_command cmd) by (done || (apply (bool_decide_unpack _); by vm_compute)).
  apply String.eqb_neq in Hh. rewrite Hh. cbn [orb].
  unfold usage, bind, print, printed. cbn. by rewrite <- app_assoc.
Qed.




Lemma not_found_line id :
  "Error: " +:+ Error text (not_found id) +:+ NL
  = "Error: task " +:+ FormatInt id +:+ " not found" +:+ NL.
Proof. unfold not_found. cbn [Error]. by rewrite !str_app_assoc. Qed.

(** X23: do, complete, rm, remove and edit with an id that no task has
    end with status 1 and the line "Error: task <id> not found" on the
    error stream; complete is do and remove is rm. *)
Theorem main_not_found prog cmd a b rest w id ts w1 :
  ParseInt a = Ok id -> loadTasks w = (Ok ts, w1) ->
  (forall t, t ∈ elems ts -> ID t <> id) ->
  (cmd ∈ ["do"; "complete"; "rm"; "remove"] ->
   main text (prog :: cmd :: a :: rest) w
   = (1, snd (eprint ("Error: task " +:+ FormatInt id +:+ " not found" +:+ NL) w1)))
  /\ main text (prog :: "edit" :: a :: b :: rest) w
     = (1, snd (eprint ("Error: task " +:+ FormatInt id +:+ " not found" +:+ NL) w1)).
Proof.
  intros Hp Hl Hno.
  pose proof (proj2 (findIndexByID_absent ts id) Hno) as Hi.
  assert (cmdDo (a :: rest) w = (Err (not_found id), w1)) as Hdo.
  { rewrite (cmdDo_MarkDone a rest w id ts w1 Hp Hl). unfold MarkDone. by rewrite Hi. }
  assert (cmdRemove (a :: rest) w = (Err (not_found id), w1)) as Hrm.
  { rewrite (cmdRemove_Remove a rest w id ts w1 Hp Hl). unfold Remove. by rewrite Hi. }
  assert (cmdEdit (a :: b :: rest) w = (Err (not_found id), w1)) as Hed.
  { rewrite (cmdEdit_Edit a b rest w id ts w1 Hp Hl). unfold Edit. by rewrite Hi. }
  split.
  - intros Hc. unfold main, report.
    repeat (apply elem_of_cons in Hc as [->|Hc]); [| | | |by apply elem_of_nil in Hc];
      cbn [String.eqb Ascii.eqb Bool.eqb andb orb];
      by rewrite ?Hdo, ?Hrm, not_found_line.
  - unfold main, report. cbn [String.eqb Ascii.eqb Bool.eqb andb orb].
    by rewrite Hed, not_found_line.
Qed.

End Dispatch.


Lemma main_not_found_witness :
  ParseInt "5" = Ok 5 /\ loadTasks twins_store = (Ok twins, twins_store)
  /\ main (fun _ => "library error") ["todo"; "edit"; "5"; "new"; "title"] twins_store
     = (1, snd (eprint ("Error: task 5 not found" +:+ NL) twins_store)).
Proof.
  assert (forall t, t ∈ elems twins -> ID t <> 5) as Hno.
  { intros t Ht. simpl in Ht.
    apply elem_of_cons in Ht as [->|Ht]; [vm_compute; discriminate|].
    apply list_elem_of_singleton in Ht as ->. vm_compute. discriminate. }
  split; [reflexivity|]. split; [reflexivity|].
  exact (proj2 (main_not_found (fun _ => "library error") "todo" "edit" "5" "new"
                  ["title"] twins_store 5 twins twins_store eq_refl eq_refl Hno)).
Defined.

Lemma main_without_command_witness :
  ("undo" ∉ command_names)
  /\ main (fun _ => "library error") ["todo"; "undo"; "1"] milk_store
     = (0, printed ["Unknown command: undo" +:+ NL; usage_text +:+ NL] milk_store).
Proof.
  assert ("undo" ∉ command_names) as H.
  { apply (bool_decide_unpack _). by vm_compute. }
  split; [exact H|].
  apply (proj2 (proj2 (proj2 (main_without_command (fun _ => "library error")
                                "todo" ["1"] milk_store)))); [exact H|discriminate].
Defined.

(** ** Loading *)

(** X24: [loadTasks] returns an error only when the path of the store
    cannot be found, or when the store file exists and cannot be read;
    it has then changed nothing.  Unreadable content is no error. *)
Theorem loadTasks_errors w e w1 :
  loadTasks w = (Err e, w1) ->
  w1 = w
  /\ (tasksFilePath w = (Err e, w)
      \/ exists path b,
           resolves w path /\ files w !! path = Some b /\ path ∈ read_fault w
           /\ e = PathError "open" path false).
Proof.
  intros H. destruct (tasksFilePath w) as [[path|e0] w0] eqn:Hp.
  - pose proof (tasksFilePath_world _ _ _ Hp) as ->.
    destruct (files w !! path) as [b|] eqn:Hf.
    + destruct (decide (path ∈ read_fault w)) as [Hrd|Hrd].
      * rewrite (loadTasks_unreadable w path b Hp Hf Hrd) in H. injection H as <- <-.
        split; [done|]. right. by exists path, b.
      * rewrite (loadTasks_present w path b Hp Hf Hrd) in H. by destruct (Unmarshal b).
    + by rewrite (loadTasks_absent w path Hp Hf) in H.
  - pose proof (tasksFilePath_world _ _ _ Hp) as ->.
    unfold loadTasks, bind in H. rewrite Hp in H. injection H as <- <-.
    split; [done|by left].
Qed.

Lemma loadTasks_errors_witness :
  loadTasks homeless = (Err HomeError, homeless)
  /\ tasksFilePath homeless = (Err HomeError, homeless).
Proof.
  assert (loadTasks homeless = (Err HomeError, homeless)) as H by reflexivity.
  split; [exact H|].
  destruct (loadTasks_errors homeless HomeError homeless H) as [_ [H'|H']]; [exact H'|].
  reflexivity.
Defined.

(** A collection that is not empty was read from the store file. *)
Lemma loadTasks_found w path ts w1 :
  resolves w path -> loadTasks w = (Ok ts, w1) -> elems ts <> [] ->
  w1 = w /\ (path ∉ read_fault w)
  /\ exists b, files w !! path = Some b /\ Unmarshal b = Ok ts.
Proof.
  intros Hr Hl Hne. destruct (files w !! path) as [b|] eqn:Hf.
  - destruct (decide (path ∈ read_fault w)) as [Hrd|Hrd].
    + by rewrite (loadTasks_unreadable w path b Hr Hf Hrd) in Hl.
    + rewrite (loadTasks_present w path b Hr Hf Hrd) in Hl.
      destruct (Unmarshal b) as [ts'|] eqn:E.
      * injection Hl as <- <-. split; [done|]. split; [done|]. by exists b.
      * by injection Hl as <- _.
  - rewrite (loadTasks_absent w path Hr Hf) in Hl. by injection Hl as <- _.
Qed.

(** Reading the store does not depend on the clock or on what has
    been printed. *)
Lemma loadTasks_later w path b ts w' :
  resolves w path -> files w !! path = Some b -> path ∉ read_fault w ->
  Unmarshal b = Ok ts ->
  environ w' = environ w -> home w' = home w -> write_fault w' = write_fault w ->
  read_fault w' = read_fault w -> files w' !! path = Some b ->
  loadTasks w' = (Ok ts, w').
Proof.
  intros Hr Hf Hrd Hu He Hh Hw Hrf Hf'.
  rewrite (loadTasks_present w' path b); [by rewrite Hu| |done|by rewrite Hrf].
  by apply (resolves_same w).
Qed.

Lemma first_with_id_canon ts id t :
  first_with_id ts id = Some t -> first_with_id (canon_tasks ts) id = Some (canon_task t).
Proof.
  destruct ts as [|l]; [done|]. unfold first_with_id. cbn [elems canon_tasks].
  induction l as [|u l IH]; [done|]. cbn [find map ID canon_task].
  destruct (ID u =? id); [by intros [= <-]|done].
Qed.

(** X25: a second [cmdDo] for the same id, in a later run, changes
    nothing: whenever [cmdDo] has succeeded, the next [cmdDo] with
    that id, at whatever time, prints "Already completed." and leaves
    every file as it is. *)
Theorem do_twice w a rest id path w2 :
  ParseInt a = Ok id -> resolves w path -> time_sound (clock w) = true ->
  cmdDo (a :: rest) w = (Ok tt, w2) ->
  forall now rest',
    cmdDo (a :: rest') (set_clock now w2)
    = (Ok tt, printed ["Already completed." +:+ NL] (set_clock now w2)).
Proof.
  intros Hp Hr Hnow Hdo now rest'.
  destruct (loadTasks w) as [[ts|e] w1] eqn:Hl.
  2:{ unfold cmdDo, bind, lift in Hdo. by rewrite Hp, Hl in Hdo. }
  rewrite (cmdDo_MarkDone a rest w id ts w1 Hp Hl) in Hdo.
  destruct (loaded_world w _ w1 path Hr Hl) as (Hr1 & _ & Hwf & Hc & _).
  pose proof (Tasks_loaded_ok ts (loadTasks_loaded w ts w1 Hl)) as Hts.
  assert (Time_ok (clock w) = true) as Hreal.
  { unfold time_sound in Hnow. by apply andb_true_iff in Hnow as [? _]. }
  assert (elems ts <> []) as Hne.
  { intros E. unfold MarkDone, findIndexByID in Hdo. by rewrite E in Hdo. }
  destruct (loadTasks_found w path ts w1 Hr Hl Hne) as (-> & Hrd & b & Hf & Hu).
  assert (exists ts2 t2, loadTasks (set_clock now w2) = (Ok ts2, set_clock now w2)
                         /\ first_with_id ts2 id = Some t2 /\ Done t2 = true)
    as (ts2 & t2 & Hl2 & Hf2 & Hd2).
  { destruct (MarkDone ts id (clock w)) as [| |ts'] eqn:Hm; [done| |].
    - injection Hdo as <-. unfold MarkDone in Hm.
      destruct (Z.eqb_spec (findIndexByID ts id) (-1)) as [|Hi]; [done|].
      destruct (found_split ts id Hi) as (pre & t & post & -> & <- & Hpre & Ei).
      rewrite Ei, index_middle in Hm. destruct (Done t) eqn:Hd; [|done].
      exists (Slice (pre ++ t :: post)), t.
      split; [by apply (loadTasks_later w path b)|].
      split; [by apply first_with_id_split|done].
    - unfold bind in Hdo.
      destruct (saveTasks ts' w) as [[[]|e] w3] eqn:Hs; [|done]. injection Hdo as <-.
      pose proof (MarkDone_ok ts id (clock w) ts' Hts Hreal Hm) as Hok.
      destruct (save_then_load ts' w w3 path Hok Hr Hrd Hs) as (b' & Hb' & -> & Hr3 & _).
      destruct (MarkDone_twice ts id (clock w) now ts' Hm) as (_ & t1 & Hf1 & Hd1 & _).
      exists (canon_tasks ts'), (canon_task t1).
      split; [|split; [by apply first_with_id_canon|done]].
      apply (loadTasks_later (saved path b' w) path b'); try done.
      + apply saved_lookup.
      + by apply Unmarshal_MarshalIndent.
      + apply saved_lookup. }
  rewrite (cmdDo_MarkDone a rest' _ id ts2 _ Hp Hl2).
  by rewrite (MarkDone_already ts2 id t2).
Qed.

Lemma do_twice_witness :
  ParseInt "1" = Ok 1 /\ resolves milk_store "tasks.json"
  /\ time_sound (clock milk_store) = true
  /\ fst (cmdDo ["1"] milk_store) = Ok tt
  /\ stdout (snd (cmdDo ["1"] (set_clock noon (snd (cmdDo ["1"] milk_store)))))
     = ["Added 1: Buy milk" +:+ NL; "Marked 1 done" +:+ NL; "Already completed." +:+ NL].
Proof.
  split; [reflexivity|]. split; [reflexivity|]. split; [reflexivity|].
  split; [reflexivity|].
  by rewrite (do_twice milk_store "1" [] 1 "tasks.json" (snd (cmdDo ["1"] milk_store))
                eq_refl eq_refl eq_refl eq_refl noon []).
Defined.






